(** * LMIA-Tool: the explorer pipeline, the local auth store and the
      signup webhook, embedded from the TypeScript sources.

    Definitions
    - [JsString]: the JavaScript string operations the sources call
      ([trim], [toLowerCase], [toUpperCase], [includes], [split], [join],
      [parseInt]), on strings as lists of UTF-16 code units.
    - [Regex]: a backtracking matcher for the regular-expression
      literals of [isValidCityName] and [handleMinLMIAsChange].
    - [City]: [isValidCityName], the lookup in [CITY_CORRECTIONS] and
      [normalizeCityName], shared by the two explorers.
    - [Data]: [LMIARecord], the [useState] cells, [slice], the events.
    - [ExplorerA] (src/unnamed/part_004) and [ExplorerB]
      (src/src/components/LMIAExplorer.tsx): [filtered], [totalPages],
      [paginatedData], the handlers and the page-reset effect.
    - [Webhook] (src/unnamed/part_000): [handler].
    - [LocalAuth] (src/unnamed/part_003): [signup], [login];
      [LocalAuthOps]: sequences of calls, and the provider over any
      lower-casing.
    - [Controls], [PageRange], [Insights], [Options]: the controls, the
      summary cards and the selects of the explorers.
    - [Loader]: the cleaning of the data file (src/unnamed/part_004), on
      typed rows and on rows as the file can hold them.
    - [SupabaseAuth]: the hosted sign-in.
    - [TextSearch]: the filters over any lower-casing; [Reload]: the
      data loaded again after a language switch.

    Results
    - [WebhookFacts]: order of the handler's checks, the already-exists
      answer.
    - [LocalAuthFacts]: what [signup] stores and when emails stay
      distinct.
    - [PaginationFacts]: pages partition the filtered list; page counts.
    - [ThresholdFacts], [FilterFacts], [StateFacts]: the threshold input,
      monotone filtering, the threshold invariant.
    - [NormalizeFacts]: when normalising twice is normalising once, and
      when it is not.
    - [WebhookMore], [LocalAuthMore], [FilterMore], [PagerFacts],
      [InsightsFacts], [LoaderFacts], [ValidatorFacts], [OptionsFacts],
      [SupabaseFacts]: further properties of the same code. *)

From Stdlib Require Import List ZArith NArith Bool Lia String Ascii.
From Stdlib Require Import Permutation.
Import ListNotations.

(* ================================================================== *)
(** * JavaScript strings *)
(* ================================================================== *)

Module JsString.

Local Open Scope N_scope.

(** A string is its sequence of UTF-16 code units. *)
Abbreviation char := N (only parsing).
Abbreviation jsstring := (list N) (only parsing).

(** ASCII literals, for readable constants. *)
Definition js (s : string) : jsstring :=
  List.map N_of_ascii (list_ascii_of_string s).

Definition ch_eqb (a b : char) : bool := N.eqb a b.

Fixpoint str_eqb (a b : jsstring) : bool :=
  match a, b with
  | [], [] => true
  | x :: a', y :: b' => ch_eqb x y && str_eqb a' b'
  | _, _ => false
  end.

Definition in_range (lo hi c : char) : bool :=
  (N.leb lo c && N.leb c hi)%bool.

(** [WhiteSpace] and [LineTerminator] of ECMAScript: what [trim] strips,
    what [\s] matches and what [parseInt] skips. *)
Definition isWhiteSpace (c : char) : bool :=
  (in_range 9 13 c || ch_eqb c 32 || ch_eqb c 160 || ch_eqb c 5760
   || in_range 8192 8202 c || ch_eqb c 8232 || ch_eqb c 8233
   || ch_eqb c 8239 || ch_eqb c 8287 || ch_eqb c 12288
   || ch_eqb c 65279)%bool.

Definition isDigit (c : char) : bool := in_range 48 57 c.

Fixpoint dropWhile (p : char -> bool) (s : jsstring) : jsstring :=
  match s with
  | [] => []
  | c :: s' => if p c then dropWhile p s' else s
  end.

Definition trimStart (s : jsstring) : jsstring := dropWhile isWhiteSpace s.
Definition trimEnd (s : jsstring) : jsstring :=
  rev (dropWhile isWhiteSpace (rev s)).

(** [String.prototype.trim]. *)
Definition trim (s : jsstring) : jsstring := trimEnd (trimStart s).

(** Case mappings.  They are exact on Basic Latin, on the Latin-1
    Supplement and on Greek pi (U+03A0, U+03C0), which covers every
    code unit that a city validator of the sources admits; any other
    code unit is left as it is.  What is proved about the case of free
    text (e-mails, search texts, the province of a row) takes the case
    mapping as a parameter instead: [LocalAuthOps], [TextSearch],
    [Loader.cleanProvinceWith]. *)
Definition lowerChar (c : char) : char :=
  if in_range 65 90 c then c + 32
  else if (in_range 192 222 c && negb (ch_eqb c 215))%bool then c + 32
  else if ch_eqb c 928 then 960
  else c.

(** Upper-casing may lengthen the string: U+00DF maps to "SS". *)
Definition upperChar (c : char) : jsstring :=
  if in_range 97 122 c then [c - 32]
  else if (in_range 224 254 c && negb (ch_eqb c 247))%bool then [c - 32]
  else if ch_eqb c 223 then [83; 83]
  else if ch_eqb c 255 then [376]
  else if ch_eqb c 181 then [924]
  else if ch_eqb c 960 then [928]
  else [c].

Definition toLowerCase (s : jsstring) : jsstring := List.map lowerChar s.
Definition toUpperCase (s : jsstring) : jsstring := List.flat_map upperChar s.

Fixpoint startsWith (p s : jsstring) : bool :=
  match p, s with
  | [], _ => true
  | x :: p', y :: s' => ch_eqb x y && startsWith p' s'
  | _ :: _, [] => false
  end.

(** [String.prototype.includes]: [p] occurs somewhere in [s]. *)
Fixpoint includes (s p : jsstring) : bool :=
  startsWith p s ||
  match s with
  | [] => false
  | _ :: s' => includes s' p
  end.

(** [s.charAt(0)] and [s.slice(1)]. *)
Definition charAt0 (s : jsstring) : jsstring :=
  match s with [] => [] | c :: _ => [c] end.
Definition slice1 (s : jsstring) : jsstring :=
  match s with [] => [] | _ :: s' => s' end.

(** [s.split(sep)] for a one-code-unit separator: never empty, the
    empty string splits into one empty piece. *)
Fixpoint split (sep : char) (s : jsstring) : list jsstring :=
  match s with
  | [] => [[]]
  | c :: s' =>
      if ch_eqb c sep then [] :: split sep s'
      else match split sep s' with
           | w :: ws => (c :: w) :: ws
           | [] => [[c]]
           end
  end.

(** [parts.join(sep)] for a one-code-unit separator. *)
Fixpoint join (sep : char) (parts : list jsstring) : jsstring :=
  match parts with
  | [] => []
  | [w] => w
  | w :: ws => w ++ sep :: join sep ws
  end.

(** Value of a digit in radix 10 or 16, when it is one. *)
Definition digitValue (radix : Z) (c : char) : option Z :=
  let v :=
    if in_range 48 57 c then Some (Z.of_N c - 48)%Z
    else if in_range 97 122 c then Some (Z.of_N c - 87)%Z
    else if in_range 65 90 c then Some (Z.of_N c - 55)%Z
    else None in
  match v with
  | Some d => if (d <? radix)%Z then Some d else None
  | None => None
  end.

(** Longest prefix of radix digits, read left to right: the value so
    far and whether any digit was seen. *)
Fixpoint readDigits (radix : Z) (s : jsstring) (acc : Z) (seen : bool)
  : option Z :=
  match s with
  | [] => if seen then Some acc else None
  | c :: s' =>
      match digitValue radix c with
      | Some d => readDigits radix s' (acc * radix + d)%Z true
      | None => if seen then Some acc else None
      end
  end.

(** [parseInt(s)] without a radix argument; [None] is NaN.  The result
    is the mathematical integer: it is the result of the code up to
    2^53, beyond which the code rounds to a double (not modelled). *)
Definition parseInt (s : jsstring) : option Z :=
  let s1 := trimStart s in
  let '(sign, s2) :=
    match s1 with
    | c :: r => if ch_eqb c 45 then ((-1)%Z, r)
                else if ch_eqb c 43 then (1%Z, r)
                else (1%Z, s1)
    | [] => (1%Z, s1)
    end in
  let '(radix, s3) :=
    match s2 with
    | a :: b :: r =>
        if (ch_eqb a 48 && (ch_eqb b 120 || ch_eqb b 88))%bool
        then (16%Z, r) else (10%Z, s2)
    | _ => (10%Z, s2)
    end in
  match readDigits radix s3 0%Z false with
  | Some n => Some (sign * n)%Z
  | None => None
  end.

(** [parseInt(s) || dflt]: NaN and (plus or minus) zero are falsy. *)
Definition parseIntOr (s : jsstring) (dflt : Z) : Z :=
  match parseInt s with
  | Some n => if (n =? 0)%Z then dflt else n
  | None => dflt
  end.

(** A string is truthy when it is not empty. *)
Definition truthy (s : jsstring) : bool :=
  match s with [] => false | _ => true end.

End JsString.

Import JsString.

(* ================================================================== *)
(** * Regular-expression literals *)
(* ================================================================== *)

Module Regex.

Local Open Scope N_scope.

Inductive re : Type :=
| Eps : re
| Chr : (char -> bool) -> re          (* one code unit in a class *)
| Seq : re -> re -> re
| Alt : re -> re -> re
| Star : re -> re
| Bol : re                            (* ^ *)
| Eol : re                            (* $ *)
| WordB : re.                         (* \b *)

Definition Opt (r : re) : re := Alt r Eps.
Definition Plus (r : re) : re := Seq r (Star r).

(** [\w] without the unicode flag. *)
Definition isWordChar (c : char) : bool :=
  (in_range 97 122 c || in_range 65 90 c || in_range 48 57 c
   || ch_eqb c 95)%bool.

Definition isWordOpt (o : option char) : bool :=
  match o with Some c => isWordChar c | None => false end.

(** Canonicalisation of the [i] flag (no unicode flag): the upper-case
    form when it is one code unit, unless that would turn a non-ASCII
    code unit into an ASCII one. *)
Definition canon (c : char) : char :=
  match upperChar c with
  | [u] => if (N.leb 128 c && N.ltb u 128)%bool then c else u
  | _ => c
  end.

(** A literal code unit, case-sensitive or under the [i] flag. *)
Definition lit (x : char) : re := Chr (fun c => ch_eqb c x).
Definition lit_i (x : char) : re := Chr (fun c => ch_eqb (canon c) (canon x)).

(** A literal word under the [i] flag. *)
Fixpoint word_i (w : jsstring) : re :=
  match w with
  | [] => Eps
  | x :: w' => Seq (lit_i x) (word_i w')
  end.

Fixpoint alts (rs : list re) : re :=
  match rs with
  | [] => Chr (fun _ => false)
  | [r] => r
  | r :: rs' => Alt r (alts rs')
  end.

Definition cont : Type := option char -> jsstring -> bool.

(** The iteration of a starred expression: at most [n] rounds of
    [body], each of which must consume something (the ECMAScript
    matcher rejects an empty round), then [k]. *)
Fixpoint starLoop (body : option char -> jsstring -> cont -> bool)
         (k : cont) (n : nat) (prev : option char) (s : jsstring) : bool :=
  match n with
  | O => k prev s
  | S n' =>
      body prev s
        (fun p' s' =>
           Nat.ltb (List.length s') (List.length s)
           && starLoop body k n' p' s')
      || k prev s
  end.

(** Backtracking match of [r] at the current position, then [k] on
    what is left; [prev] is the code unit before the position. *)
Fixpoint matchAt (r : re) (prev : option char) (s : jsstring) (k : cont)
         {struct r} : bool :=
  match r with
  | Eps => k prev s
  | Chr p =>
      match s with
      | c :: s' => p c && k (Some c) s'
      | [] => false
      end
  | Seq a b => matchAt a prev s (fun p' s' => matchAt b p' s' k)
  | Alt a b => matchAt a prev s k || matchAt b prev s k
  | Star a => starLoop (matchAt a) k (List.length s) prev s
  | Bol => match prev with None => k prev s | Some _ => false end
  | Eol => match s with [] => k prev s | _ :: _ => false end
  | WordB => xorb (isWordOpt prev) (isWordOpt (List.hd_error s)) && k prev s
  end.

Fixpoint searchFrom (r : re) (prev : option char) (s : jsstring) : bool :=
  matchAt r prev s (fun _ _ => true) ||
  match s with
  | [] => false
  | c :: s' => searchFrom r (Some c) s'
  end.

(** [r.test(s)]: a match starting at some position of [s]. *)
Definition test (r : re) (s : jsstring) : bool := searchFrom r None s.

End Regex.

(* ================================================================== *)
(** * City names: validation and normalisation *)
(* ================================================================== *)

Module City.

Import Regex.
Local Open Scope N_scope.

Fixpoint seqs (rs : list re) : re :=
  match rs with
  | [] => Eps
  | [r] => r
  | r :: rs' => Seq r (seqs rs')
  end.

Definition words_i (ws : list string) : re :=
  alts (List.map (fun w => word_i (js w)) ws).

Definition upperAZ : re := Chr (in_range 65 90).
Definition space : re := Chr isWhiteSpace.
Definition dot : re := lit 46.

(** The six [bannedPatterns] of [isValidCityName], in order. *)
Definition bannedPatterns : list re :=
  [ seqs [WordB;
          words_i ["street"; "st"; "avenue"; "ave"; "road"; "rd"; "drive";
                   "dr"; "boulevard"; "blvd"; "lane"; "ln"; "court"; "ct";
                   "way"; "wy"; "terrace"; "ter"; "place"; "pl"]%string;
          WordB];
    seqs [WordB;
          alts [word_i (js "unit"); word_i (js "suite"); word_i (js "apt");
                word_i (js "apartment"); word_i (js "floor");
                word_i (js "fl"); word_i (js "building");
                word_i (js "bldg"); word_i (js "box");
                seqs [lit_i 112; Opt dot; lit_i 111; Opt dot; Star space;
                      word_i (js "box")];
                word_i (js "rr");
                seqs [lit_i 114; Opt dot; lit_i 114; Opt dot; Star space;
                      Plus (Chr isDigit)]];
          WordB];
    seqs [WordB;
          words_i ["north"; "south"; "east"; "west"; "n"; "s"; "e"; "w";
                   "ne"; "nw"; "se"; "sw"]%string;
          Plus space;
          words_i ["of"; "at"; "and"]%string;
          WordB];
    seqs [Bol; upperAZ; Eol];
    seqs [Bol; upperAZ; Plus space; upperAZ; Eol];
    seqs [Bol; upperAZ; Opt dot; Star space; upperAZ; Opt dot; Eol] ].

(** Membership of a code unit in a list of code units. *)
Definition oneOf (l : list char) (c : char) : bool :=
  List.existsb (ch_eqb c) l.

(** The character class [[a-zA-Z\s\-'...]] of the last pattern, the
    accented letters that close it being [accented]. *)
Definition cityClass (accented : list char) (x : char) : bool :=
  (in_range 97 122 x || in_range 65 90 x || isWhiteSpace x
   || ch_eqb x 45 || ch_eqb x 39 || oneOf accented x)%bool.

(** [isValidCityName], with the accented letters of the character class
    as a parameter: the two explorers differ in nothing else. *)
Definition isValidCityNameWith (accented : list char) (city : jsstring)
  : bool :=
  if negb (truthy city) then false else
  let c := trim city in
  if (Nat.ltb (List.length c) 3 || Nat.ltb 40 (List.length c))%bool
  then false else
  if test (Chr isDigit) c then false else
  if List.existsb (fun p => test p c) bannedPatterns then false else
  if negb (test (seqs [Bol; Plus (Chr (cityClass accented)); Eol]) c)
  then false else
  if (includes c (js "Unknown") || includes c (js "Not Specified")
      || includes c (js "N/A"))%bool
  then false else
  true.

(** What [CITY_CORRECTIONS[c]] evaluates to: an own property of the
    table, a member inherited from [Object.prototype] (a function or an
    object, truthy, not a string), or [undefined]. *)
Inductive lookup_result : Type :=
| Own : jsstring -> lookup_result
| Inherited : lookup_result
| Undefined : lookup_result.

Definition objectPrototypeKeys : list jsstring :=
  List.map js
    ["constructor"; "hasOwnProperty"; "isPrototypeOf";
     "propertyIsEnumerable"; "toLocaleString"; "toString"; "valueOf";
     "__defineGetter__"; "__defineSetter__"; "__lookupGetter__";
     "__lookupSetter__"; "__proto__"]%string.

Fixpoint assoc (table : list (jsstring * jsstring)) (k : jsstring)
  : option jsstring :=
  match table with
  | [] => None
  | (k', v) :: t => if str_eqb k k' then Some v else assoc t k
  end.

Definition lookup (table : list (jsstring * jsstring)) (k : jsstring)
  : lookup_result :=
  match assoc table k with
  | Some v => Own v
  | None =>
      if List.existsb (str_eqb k) objectPrototypeKeys then Inherited
      else Undefined
  end.

Fixpoint mapi_from {A B : Type} (i : nat) (f : A -> nat -> B) (l : list A)
  : list B :=
  match l with
  | [] => []
  | x :: l' => f x i :: mapi_from (S i) f l'
  end.

(** [word.charAt(0).toUpperCase() + word.slice(1)]. *)
Definition capitalize (word : jsstring) : jsstring :=
  toUpperCase (charAt0 word) ++ slice1 word.

(** The callback of [.map] in [normalizeCityName]. *)
Definition titleWord (word : jsstring) : jsstring :=
  if str_eqb word (js "st") then js "St"
  else if str_eqb word (js "ste") then js "Ste"
  else if str_eqb word (js "mt") then js "Mt"
  else if str_eqb word (js "ft") then js "Ft"
  else
    let parts := split 39 word in
    if Nat.ltb 1 (List.length parts) then
      join 39
        (mapi_from 0
           (fun part i => match i with O => capitalize part | S _ => part end)
           parts)
    else capitalize word.

(** [normalizeCityName], with the correction table as a parameter.
    [None] is the TypeError raised by [c.toLowerCase()] when the table
    lookup returned an inherited member instead of a string. *)
Definition normalizeCityNameWith (table : list (jsstring * jsstring))
           (city : jsstring) : option jsstring :=
  let c := trim city in
  let c' :=
    match lookup table c with
    | Own v => if truthy v then Some v else Some c
    | Inherited => None
    | Undefined => Some c
    end in
  match c' with
  | None => None
  | Some c1 =>
      Some (join 32 (List.map titleWord (split 32 (toLowerCase c1))))
  end.

(** *** Notions used to reason about [normalizeCityName] *)

(** Title-casing in one pass: a code unit is upper-cased when it starts
    the string or follows a space. *)
Fixpoint titleFrom (atStart : bool) (s : jsstring) : jsstring :=
  match s with
  | [] => []
  | c :: r =>
      (if atStart then upperChar c else [c]) ++ titleFrom (ch_eqb c 32) r
  end.

(** The first, respectively last, code unit is not white space. *)
Definition headOk (s : jsstring) : bool :=
  match s with
  | [] => true
  | c :: _ => negb (isWhiteSpace c)
  end.

Fixpoint lastOk (s : jsstring) : bool :=
  match s with
  | [] => true
  | [c] => negb (isWhiteSpace c)
  | _ :: r => lastOk r
  end.

(** A code unit on which the case mappings behave as on a plain letter:
    its lower-case form [l] is its own lower case, the upper case of [l]
    is one code unit [u] whose lower case is [l] again, neither mapping
    makes or removes white space, and [u] is neither a lower-case ASCII
    letter nor an underscore. *)
Definition caseRegular (x : char) : bool :=
  let l := lowerChar x in
  match upperChar l with
  | [u] =>
      ch_eqb (lowerChar u) l && ch_eqb (lowerChar l) l
      && Bool.eqb (isWhiteSpace u) (isWhiteSpace x)
      && Bool.eqb (isWhiteSpace l) (isWhiteSpace x)
      && negb (in_range 97 122 u || ch_eqb u 95)
  | _ => false
  end.

(** The code units from [lo] to [hi]. *)
Definition enumRange (lo hi : N) : list char :=
  List.map N.of_nat (List.seq (N.to_nat lo) (N.to_nat hi + 1 - N.to_nat lo)).

Definition whiteSpaceEnum : list char :=
  enumRange 9 13 ++ [32; 160; 5760] ++ enumRange 8192 8202
  ++ [8232; 8233; 8239; 8287; 12288; 65279].

(** Every code unit of [cityClass accented]. *)
Definition cityClassEnum (accented : list char) : list char :=
  enumRange 97 122 ++ enumRange 65 90 ++ whiteSpaceEnum ++ [45; 39]
  ++ accented.

(** The replacement strings of a correction table are not empty, stay
    within the class, and have no white space at either end. *)
Definition tableOk (cls : char -> bool) (table : list (jsstring * jsstring))
  : bool :=
  List.forallb
    (fun kv => truthy (snd kv) && List.forallb cls (snd kv)
               && headOk (snd kv) && lastOk (snd kv))
    table.

End City.

(* ================================================================== *)
(** * Records, filter state and arrays *)
(* ================================================================== *)

Module Data.

(** [LMIARecord]: every field is optional.  The two NOC fields exist
    only in src/src/components/LMIAExplorer.tsx. *)
Record LMIARecord : Type := mkRecord {
  EmployerName : option jsstring;
  City : option jsstring;
  Province : option jsstring;
  ProgramStream : option jsstring;
  NOCCode : option jsstring;
  NOCTitle : option jsstring;
  PositiveLMIAs : option Z
}.

(** The component's [useState] cells that filtering and pagination
    read.  src/unnamed/part_004 has no [noc] cell: its functions
    neither read nor write that field. *)
Record State : Type := mkState {
  rows : list LMIARecord;
  employer : jsstring;
  province : jsstring;
  city : jsstring;
  noc : jsstring;
  stream : jsstring;
  minLMIAs : jsstring;
  currentPage : Z;
  rowsPerPage : Z
}.

Definition setEmployer (v : jsstring) (s : State) : State :=
  mkState (rows s) v (province s) (city s) (noc s) (stream s)
          (minLMIAs s) (currentPage s) (rowsPerPage s).
Definition setProvince (v : jsstring) (s : State) : State :=
  mkState (rows s) (employer s) v (city s) (noc s) (stream s)
          (minLMIAs s) (currentPage s) (rowsPerPage s).
Definition setCity (v : jsstring) (s : State) : State :=
  mkState (rows s) (employer s) (province s) v (noc s) (stream s)
          (minLMIAs s) (currentPage s) (rowsPerPage s).
Definition setNoc (v : jsstring) (s : State) : State :=
  mkState (rows s) (employer s) (province s) (city s) v (stream s)
          (minLMIAs s) (currentPage s) (rowsPerPage s).
Definition setStream (v : jsstring) (s : State) : State :=
  mkState (rows s) (employer s) (province s) (city s) (noc s) v
          (minLMIAs s) (currentPage s) (rowsPerPage s).
Definition setMinLMIAs (v : jsstring) (s : State) : State :=
  mkState (rows s) (employer s) (province s) (city s) (noc s) (stream s)
          v (currentPage s) (rowsPerPage s).
Definition setCurrentPage (v : Z) (s : State) : State :=
  mkState (rows s) (employer s) (province s) (city s) (noc s) (stream s)
          (minLMIAs s) v (rowsPerPage s).
Definition setRowsPerPage (v : Z) (s : State) : State :=
  mkState (rows s) (employer s) (province s) (city s) (noc s) (stream s)
          (minLMIAs s) (currentPage s) v.

(** The initial [useState] values, once [rows] is loaded. *)
Definition initial (loaded : list LMIARecord) : State :=
  mkState loaded [] (js "ALL") (js "ALL") [] (js "ALL") (js "1") 1 100.

(** [field !== v] for an optional string field: a missing field differs
    from every string. *)
Definition differs (field : option jsstring) (v : jsstring) : bool :=
  match field with
  | Some x => negb (str_eqb x v)
  | None => true
  end.

(** [field || ""] and [field ?? 0]. *)
Definition orEmpty (field : option jsstring) : jsstring :=
  match field with Some x => x | None => [] end.
Definition orZero (field : option Z) : Z :=
  match field with Some n => n | None => 0%Z end.

(** [Array.prototype.slice(start, end)], negative indices included. *)
Definition slice {A : Type} (l : list A) (start stop : Z) : list A :=
  let len := Z.of_nat (List.length l) in
  let clamp i := if (i <? 0)%Z then Z.max (len + i) 0 else Z.min i len in
  let k := clamp start in
  let final := clamp stop in
  List.firstn (Z.to_nat (final - k)) (List.skipn (Z.to_nat k) l).

(** [Math.ceil(n / d)] for integers [n] and [d], [d] not zero. *)
Definition ceilDiv (n d : Z) : Z := (- ((- n) / d))%Z.

(** The dependency list of the page-reset [useEffect]: the effect runs
    after a render in which one of these cells changed. *)
Definition filtersChanged (withNoc : bool) (old new : State) : bool :=
  negb (str_eqb (employer old) (employer new)
        && str_eqb (province old) (province new)
        && str_eqb (city old) (city new)
        && (negb withNoc || str_eqb (noc old) (noc new))
        && str_eqb (stream old) (stream new)
        && str_eqb (minLMIAs old) (minLMIAs new)).

(** What the user can do to the filter and pagination controls. *)
Inductive Event : Type :=
| EmployerInput (v : jsstring)
| EmployerClear
| ProvinceSelect (v : jsstring)
| CitySelect (v : jsstring)
| NocInput (v : jsstring)
| NocClear
| StreamSelect (v : jsstring)
| MinLMIAsInput (v : jsstring)
| MinLMIAsClear
| QuickCity (c : jsstring)
| ClearFilters
| RowsPerPageSelect (v : jsstring)
| PageClick (newPage : Z).

(** The invariant: the threshold cell is empty or holds decimal digits
    only. *)
Definition thresholdOk (s : State) : Prop :=
  List.forallb isDigit (minLMIAs s) = true.

(** The page numbers 1, 2, ..., [n]. *)
Definition pages (n : Z) : list Z :=
  List.map Z.of_nat (List.seq 1 (Z.to_nat n)).

(** Three records and a state that shows them two per page. *)
Definition rec1 : LMIARecord :=
  mkRecord (Some (js "Acme Farms")) (Some (js "Surrey")) (Some (js "BC"))
           (Some (js "Agricultural")) None None (Some 4%Z).
Definition rec2 : LMIARecord :=
  mkRecord (Some (js "Borealis Inc")) (Some (js "Toronto")) (Some (js "ON"))
           (Some (js "High Wage")) None None (Some 1%Z).
Definition rec3 : LMIARecord :=
  mkRecord None (Some (js "Calgary")) (Some (js "AB"))
           (Some (js "Low Wage")) None None (Some 0%Z).

Definition sample : State :=
  mkState [rec1; rec2; rec3; rec1; rec2] [] (js "ALL") (js "ALL") []
          (js "ALL") (js "1") 1 2.

End Data.

Import Data.

(* ================================================================== *)
(** * Explorer of src/unnamed/part_004 *)
(* ================================================================== *)

Module ExplorerA.

Local Open Scope N_scope.

Definition CITY_CORRECTIONS : list (jsstring * jsstring) :=
  [ (js "Abbottsford", js "Abbotsford");
    (js "Abortsford", js "Abbotsford");
    (js "Vancouve", js "Vancouver");
    (js "Toront", js "Toronto");
    (js "Montreal", js "Montr" ++ [233] ++ js "al");
    (js "Quebec", js "Qu" ++ [233] ++ js "bec") ].

(** The accented letters of the class, lower case then upper case:
    e-acute, a-grave, e-grave, u-grave, a/e/i/o/u-circumflex,
    c-cedilla. *)
Definition accented : list char :=
  [233; 224; 232; 249; 226; 234; 238; 244; 251; 231;
   201; 192; 200; 217; 194; 202; 206; 212; 219; 199].

Definition isValidCityName : jsstring -> bool :=
  City.isValidCityNameWith accented.

Definition normalizeCityName : jsstring -> option jsstring :=
  City.normalizeCityNameWith CITY_CORRECTIONS.

Local Open Scope Z_scope.

Definition minLMIAsNum (s : State) : Z := parseIntOr (minLMIAs s) 1.

(** The callback of [rows.filter] in [filtered]. *)
Definition keeps (s : State) (r : LMIARecord) : bool :=
  if (negb (str_eqb (province s) (js "ALL"))
      && differs (Province r) (province s))%bool then false else
  if (negb (str_eqb (city s) (js "ALL"))
      && differs (City r) (city s))%bool then false else
  if (negb (str_eqb (stream s) (js "ALL"))
      && differs (ProgramStream r) (stream s))%bool then false else
  if orZero (PositiveLMIAs r) <? minLMIAsNum s then false else
  if (truthy (trim (employer s))
      && negb (includes (toLowerCase (orEmpty (EmployerName r)))
                        (toLowerCase (trim (employer s)))))%bool
  then false else
  true.

Definition filtered (s : State) : list LMIARecord :=
  List.filter (keeps s) (rows s).

Definition filteredLength (s : State) : Z :=
  Z.of_nat (List.length (filtered s)).

Definition totalPages (s : State) : Z :=
  Z.max 1 (ceilDiv (filteredLength s) (rowsPerPage s)).
Definition startIndex (s : State) : Z := (currentPage s - 1) * rowsPerPage s.
Definition endIndex (s : State) : Z := startIndex s + rowsPerPage s.
Definition paginatedData (s : State) : list LMIARecord :=
  slice (filtered s) (startIndex s) (endIndex s).

Definition handleClearFilters (s : State) : State :=
  setCurrentPage 1
    (setMinLMIAs (js "1")
       (setStream (js "ALL")
          (setCity (js "ALL") (setProvince (js "ALL") (setEmployer [] s))))).

(** The guard is [value === "" || /^\d+$/.test(value)]. *)
Definition acceptsMinLMIAs (value : jsstring) : bool :=
  (str_eqb value []
   || Regex.test (City.seqs [Regex.Bol; Regex.Plus (Regex.Chr isDigit);
                             Regex.Eol]) value)%bool.

Definition handleMinLMIAsChange (value : jsstring) (s : State) : State :=
  if acceptsMinLMIAs value
  then setCurrentPage 1 (setMinLMIAs value s)
  else s.

Definition handlePageChange (newPage : Z) (s : State) : State :=
  setCurrentPage (Z.max 1 (Z.min newPage (totalPages s))) s.

Definition handleRowsPerPageChange (value : jsstring) (s : State) : State :=
  setCurrentPage 1 (setRowsPerPage (parseIntOr value 100) s).

Definition handleProvinceChange (newProvince : jsstring) (s : State)
  : State :=
  setCurrentPage 1 (setCity (js "ALL") (setProvince newProvince s)).

(** The handler attached to each control. *)
Definition handle (e : Event) (s : State) : State :=
  match e with
  | EmployerInput v => setEmployer v s
  | EmployerClear => setEmployer [] s
  | ProvinceSelect v => handleProvinceChange v s
  | CitySelect v => setCity v s
  | NocInput _ | NocClear => s
  | StreamSelect v => setStream v s
  | MinLMIAsInput v => handleMinLMIAsChange v s
  | MinLMIAsClear => setMinLMIAs (js "1") s
  | QuickCity c => setCity c (setProvince (js "ALL") s)
  | ClearFilters => handleClearFilters s
  | RowsPerPageSelect v => handleRowsPerPageChange v s
  | PageClick n => handlePageChange n s
  end.

(** One event: the handler, then the page-reset effect of the render
    that follows. *)
Definition step (s : State) (e : Event) : State :=
  let s' := handle e s in
  if filtersChanged false s s' then setCurrentPage 1 s' else s'.

Definition run (s : State) (es : list Event) : State :=
  List.fold_left step es s.

End ExplorerA.

(* ================================================================== *)
(** * Explorer of src/src/components/LMIAExplorer.tsx *)
(* ================================================================== *)

Module ExplorerB.

Local Open Scope N_scope.

(** This file holds its accented letters mis-encoded: each is stored
    as two characters, U+221A followed by a second one. *)
Definition CITY_CORRECTIONS : list (jsstring * jsstring) :=
  [ (js "Abbottsford", js "Abbotsford");
    (js "Abortsford", js "Abbotsford");
    (js "Vancouve", js "Vancouver");
    (js "Toront", js "Toronto");
    (js "Montreal", js "Montr" ++ [8730; 169] ++ js "al");
    (js "Quebec", js "Qu" ++ [8730; 169] ++ js "bec") ].

Definition accented : list char :=
  [8730; 169; 8730; 8224; 8730; 174; 8730; 960; 8730; 162;
   8730; 8482; 8730; 198; 8730; 165; 8730; 170; 8730; 223;
   8730; 226; 8730; 196; 8730; 224; 8730; 244; 8730; 199;
   8730; 228; 8730; 233; 8730; 238; 8730; 245; 8730; 225].

Definition isValidCityName : jsstring -> bool :=
  City.isValidCityNameWith accented.

Definition normalizeCityName : jsstring -> option jsstring :=
  City.normalizeCityNameWith CITY_CORRECTIONS.

Local Open Scope Z_scope.

Definition minLMIAsNum (s : State) : Z := parseIntOr (minLMIAs s) 1.

(** The callback of [rows.filter] in [filtered]. *)
Definition keeps (s : State) (r : LMIARecord) : bool :=
  if (negb (str_eqb (province s) (js "ALL"))
      && differs (Province r) (province s))%bool then false else
  if (negb (str_eqb (city s) (js "ALL"))
      && differs (City r) (city s))%bool then false else
  if (negb (str_eqb (stream s) (js "ALL"))
      && differs (ProgramStream r) (stream s))%bool then false else
  if orZero (PositiveLMIAs r) <? minLMIAsNum s then false else
  if (truthy (trim (employer s))
      && negb (includes (toLowerCase (orEmpty (EmployerName r)))
                        (toLowerCase (trim (employer s)))))%bool
  then false else
  if truthy (trim (noc s)) then
    let searchTerm := toLowerCase (trim (noc s)) in
    let nocCode := toLowerCase (orEmpty (NOCCode r)) in
    let nocTitle := toLowerCase (orEmpty (NOCTitle r)) in
    if (negb (includes nocCode searchTerm)
        && negb (includes nocTitle searchTerm))%bool
    then false else true
  else
  true.

Definition filtered (s : State) : list LMIARecord :=
  List.filter (keeps s) (rows s).

Definition filteredLength (s : State) : Z :=
  Z.of_nat (List.length (filtered s)).

Definition totalPages (s : State) : Z :=
  ceilDiv (filteredLength s) (rowsPerPage s).
Definition startIndex (s : State) : Z := (currentPage s - 1) * rowsPerPage s.
Definition endIndex (s : State) : Z := startIndex s + rowsPerPage s.
Definition paginatedData (s : State) : list LMIARecord :=
  slice (filtered s) (startIndex s) (endIndex s).

Definition handleClearFilters (s : State) : State :=
  setCurrentPage 1
    (setMinLMIAs (js "1")
       (setStream (js "ALL")
          (setNoc []
             (setCity (js "ALL")
                (setProvince (js "ALL") (setEmployer [] s)))))).

(** The guard is [value === "" || /^\d+$/.test(value)]. *)
Definition acceptsMinLMIAs (value : jsstring) : bool :=
  (str_eqb value []
   || Regex.test (City.seqs [Regex.Bol; Regex.Plus (Regex.Chr isDigit);
                             Regex.Eol]) value)%bool.

Definition handleMinLMIAsChange (value : jsstring) (s : State) : State :=
  if acceptsMinLMIAs value
  then setCurrentPage 1 (setMinLMIAs value s)
  else s.

Definition handlePageChange (newPage : Z) (s : State) : State :=
  setCurrentPage (Z.max 1 (Z.min newPage (totalPages s))) s.

Definition handleRowsPerPageChange (value : jsstring) (s : State) : State :=
  let newRowsPerPage := parseIntOr value 100 in
  setCurrentPage 1 (setRowsPerPage newRowsPerPage s).

Definition handleProvinceChange (newProvince : jsstring) (s : State)
  : State :=
  setCurrentPage 1 (setCity (js "ALL") (setProvince newProvince s)).

Definition handle (e : Event) (s : State) : State :=
  match e with
  | EmployerInput v => setEmployer v s
  | EmployerClear => setEmployer [] s
  | ProvinceSelect v => handleProvinceChange v s
  | CitySelect v => setCity v s
  | NocInput v => setNoc v s
  | NocClear => setNoc [] s
  | StreamSelect v => setStream v s
  | MinLMIAsInput v => handleMinLMIAsChange v s
  | MinLMIAsClear => setMinLMIAs (js "1") s
  | QuickCity c => setCity c (setProvince (js "ALL") s)
  | ClearFilters => handleClearFilters s
  | RowsPerPageSelect v => handleRowsPerPageChange v s
  | PageClick n => handlePageChange n s
  end.

Definition step (s : State) (e : Event) : State :=
  let s' := handle e s in
  if filtersChanged true s s' then setCurrentPage 1 s' else s'.

Definition run (s : State) (es : list Event) : State :=
  List.fold_left step es s.

End ExplorerB.

(* ================================================================== *)
(** * Switching one criterion on *)
(* ================================================================== *)

Module Criteria.

(** [activates s s']: [s'] is [s] with one criterion, inactive in [s]
    ("ALL", the empty string, or the threshold "1" or ""), given a new
    value while every other cell keeps its value.  A new threshold is one
    that the threshold input lets in. *)
Inductive activates : State -> State -> Prop :=
| act_employer s v :
    employer s = [] -> activates s (setEmployer v s)
| act_province s v :
    province s = js "ALL" -> activates s (setProvince v s)
| act_city s v :
    city s = js "ALL" -> activates s (setCity v s)
| act_noc s v :
    noc s = [] -> activates s (setNoc v s)
| act_stream s v :
    stream s = js "ALL" -> activates s (setStream v s)
| act_minLMIAs s v :
    minLMIAs s = js "1" \/ minLMIAs s = [] ->
    ExplorerA.acceptsMinLMIAs v = true ->
    activates s (setMinLMIAs v s).

End Criteria.

(* ================================================================== *)
(** * The signup webhook (src/unnamed/part_000) *)
(* ================================================================== *)

Module Webhook.

Local Open Scope Z_scope.

(** [req.query.secret]: absent, one value, or several values. *)
Inductive QueryValue : Type :=
| QMissing : QueryValue
| QString : jsstring -> QueryValue
| QArray : list jsstring -> QueryValue.

(** The fields of the JSON body that the handler reads. *)
Record Payload : Type := mkPayload {
  email : option jsstring;
  name : option jsstring
}.

Record Request : Type := mkRequest {
  method : jsstring;
  query_secret : QueryValue;
  body : option Payload
}.

(** [process.env]. *)
Record Env : Type := mkEnv {
  KAJABI_WEBHOOK_SECRET : option jsstring;
  VITE_SUPABASE_URL : option jsstring;
  SUPABASE_SERVICE_ROLE_KEY : option jsstring;
  SITE_URL : option jsstring
}.

Inductive Json : Type :=
| JError (error : jsstring)
| JMessage (message : jsstring)
| JInvited (message : jsstring) (userId : jsstring).

Record Response : Type := mkResponse {
  status : Z;
  json : Json
}.

(** The arguments of [supabase.auth.admin.inviteUserByEmail], with the
    client's URL and key. *)
Record InviteCall : Type := mkInvite {
  clientUrl : jsstring;
  clientKey : jsstring;
  inviteEmail : jsstring;
  dataName : jsstring;
  redirectTo : jsstring
}.

Record ProviderError : Type := mkError {
  errMessage : jsstring;
  errStatus : option Z
}.

Inductive InviteResult : Type :=
| Invited (userId : jsstring)
| Failed (error : ProviderError).

(** What the handler does besides answering. *)
Inductive Effect : Type :=
| ConsoleError (line : jsstring)
| InviteUserByEmail (call : InviteCall) (result : InviteResult).

Definition optTruthy (o : option jsstring) : bool :=
  match o with Some v => truthy v | None => false end.

(** [!secret || secret !== process.env.KAJABI_WEBHOOK_SECRET]. *)
Definition secretRejected (secret : QueryValue) (configured : option jsstring)
  : bool :=
  match secret with
  | QMissing => true
  | QString v =>
      (negb (truthy v)
       || match configured with
          | Some w => negb (str_eqb v w)
          | None => true
          end)%bool
  | QArray _ => true
  end.

Definition isAlreadyRegistered (e : ProviderError) : bool :=
  (includes (errMessage e) (js "already")
   || match errStatus e with Some n => n =? 422 | None => false end)%bool.

(** The string behind a truthy optional value. *)
Definition valueOf (o : option jsstring) : jsstring :=
  match o with Some v => v | None => [] end.

(** [handler]: the effects performed, in order, and the response.  The
    identity provider is the function [provider]. *)
Definition handler (env : Env) (provider : InviteCall -> InviteResult)
           (req : Request) : list Effect * Response :=
  if negb (str_eqb (method req) (js "POST")) then
    ([], mkResponse 405 (JError (js "Method not allowed")))
  else
  let secret := query_secret req in
  if secretRejected secret (KAJABI_WEBHOOK_SECRET env) then
    ([], mkResponse 401 (JError (js "Unauthorized")))
  else
  let supabaseUrl := VITE_SUPABASE_URL env in
  let serviceRoleKey := SUPABASE_SERVICE_ROLE_KEY env in
  if (negb (optTruthy supabaseUrl) || negb (optTruthy serviceRoleKey))%bool
  then
    ([ConsoleError
        (js "Missing VITE_SUPABASE_URL or SUPABASE_SERVICE_ROLE_KEY")],
     mkResponse 500 (JError (js "Server misconfigured")))
  else
  let email := match body req with Some b => email b | None => None end in
  let name := match body req with Some b => name b | None => None end in
  if negb (optTruthy email) then
    ([], mkResponse 400 (JError (js "Missing email in webhook payload")))
  else
  let siteUrl :=
    if optTruthy (SITE_URL env) then valueOf (SITE_URL env)
    else js "https://lmia-search-ui.vercel.app" in
  let call :=
    mkInvite (valueOf supabaseUrl) (valueOf serviceRoleKey) (valueOf email)
             (if optTruthy name then valueOf name else [])
             siteUrl in
  match provider call with
  | Failed error =>
      if isAlreadyRegistered error then
        ([InviteUserByEmail call (Failed error)],
         mkResponse 200
           (JMessage (js "User already exists, skipping invite")))
      else
        ([InviteUserByEmail call (Failed error);
          ConsoleError (js "Supabase invite error:")],
         mkResponse 500 (JError (js "Failed to invite user")))
  | Invited userId =>
      ([InviteUserByEmail call (Invited userId)],
       mkResponse 200 (JInvited (js "User invited successfully") userId))
  end.

Definition isInvite (e : Effect) : bool :=
  match e with InviteUserByEmail _ _ => true | ConsoleError _ => false end.

(** No call to the identity provider among the effects. *)
Definition noInvite (es : list Effect) : bool :=
  negb (List.existsb isInvite es).

Definition emailOf (req : Request) : option jsstring :=
  match body req with Some b => email b | None => None end.

(** Sample inputs. *)

Definition env0 : Env :=
  mkEnv (Some (js "s3cret")) (Some (js "https://db.example"))
        (Some (js "service-key")) None.

Definition post0 : Request :=
  mkRequest (js "POST") (QString (js "s3cret"))
            (Some (mkPayload (Some (js "a@b.com")) None)).

Definition err0 : ProviderError :=
  mkError (js "A user with this email address has already been registered")
          (Some 422%Z).

(** A server with the shared secret but without the backing-store URL
    and the service key, and one without the shared secret. *)
Definition envNoStore : Env :=
  mkEnv (Some (js "s3cret")) None None None.

Definition envNoSecret : Env :=
  mkEnv None (Some (js "https://db.example")) (Some (js "service-key")) None.

Definition postNoEmail : Request :=
  mkRequest (js "POST") (QString (js "s3cret")) (Some (mkPayload None None)).

Definition get0 : Request :=
  mkRequest (js "GET") (QString (js "s3cret"))
            (Some (mkPayload (Some (js "a@b.com")) None)).

End Webhook.

(* ================================================================== *)
(** * The local-storage auth provider (src/unnamed/part_003) *)
(* ================================================================== *)

Module LocalAuth.

Record User : Type := mkUser {
  userEmail : jsstring;
  userName : jsstring
}.

Record StoredUser : Type := mkStored {
  name : jsstring;
  email : jsstring;
  password : jsstring
}.

(** The [lmia_users] entry of local storage, as [getUsers] reads it and
    [saveUsers] writes it, and the [user] cell of the provider. *)
Record Store : Type := mkStore {
  users : list StoredUser;
  user : option User
}.

Definition emptyStore : Store := mkStore [] None.

(** [a.toLowerCase() === b.toLowerCase()]. *)
Definition sameEmail (a b : jsstring) : bool :=
  str_eqb (toLowerCase a) (toLowerCase b).

(** [login]: the error message, if any, and the store afterwards. *)
Definition login (email password : jsstring) (st : Store)
  : option jsstring * Store :=
  match List.find (fun u => sameEmail (LocalAuth.email u) email
                            && str_eqb (LocalAuth.password u) password)
                  (users st) with
  | None => (Some (js "Invalid email or password"), st)
  | Some found =>
      (None, mkStore (users st)
                     (Some (mkUser (LocalAuth.email found)
                                   (LocalAuth.name found))))
  end.

(** [signup]: the error message, if any, and the store afterwards. *)
Definition signup (name email password : jsstring) (st : Store)
  : option jsstring * Store :=
  if negb (truthy (trim name)) then (Some (js "Name is required"), st) else
  if negb (truthy (trim email)) then (Some (js "Email is required"), st) else
  if Nat.ltb (List.length password) 6 then
    (Some (js "Password must be at least 6 characters"), st) else
  if List.existsb (fun u => sameEmail (LocalAuth.email u) email) (users st)
  then (Some (js "An account with this email already exists"), st) else
  (None,
   mkStore (users st ++ [mkStored (trim name) (toLowerCase (trim email))
                                  password])
           (Some (mkUser (toLowerCase (trim email)) (trim name)))).

(** The stored users whose email equals [e] ignoring case. *)
Definition matching (e : jsstring) (st : Store) : list StoredUser :=
  List.filter (fun u => sameEmail (LocalAuth.email u) e) (users st).

(** No two stored users have emails equal ignoring case. *)
Fixpoint distinctEmails (l : list StoredUser) : bool :=
  match l with
  | [] => true
  | u :: l' =>
      negb (List.existsb (fun v => sameEmail (LocalAuth.email u)
                                             (LocalAuth.email v)) l')
      && distinctEmails l'
  end.

(** A signup whose email field ends with a space, submitted twice. *)
Definition annEmail : jsstring := js "ann@x.com ".

Definition afterFirstSignup : Store :=
  snd (signup (js "Ann") annEmail (js "secret1") emptyStore).

Definition afterSecondSignup : Store :=
  snd (signup (js "Ann") annEmail (js "secret1") afterFirstSignup).

End LocalAuth.

(* ================================================================== *)
(** * Sessions of the local auth provider *)
(* ================================================================== *)

Module LocalAuthOps.

Import LocalAuth.

(** [logout]: [setUser(null)]. *)
Definition logout (st : Store) : Store := mkStore (users st) None.

(** What the auth page can ask of the provider. *)
Inductive Op : Type :=
| Signup (name email password : jsstring)
| Login (email password : jsstring)
| Logout.

Definition apply (st : Store) (op : Op) : Store :=
  match op with
  | Signup n e p => snd (signup n e p st)
  | Login e p => snd (login e p st)
  | Logout => logout st
  end.

Definition runOps (st : Store) (ops : list Op) : Store :=
  List.fold_left apply ops st.

(** The signed-in user is the projection of a stored account. *)
Definition sessionStored (st : Store) : Prop :=
  match user st with
  | None => True
  | Some u =>
      exists s, In s (users st)
                /\ userEmail u = email s /\ userName u = name s
  end.

(** ** The provider over any lower-casing

    [String.prototype.toLowerCase] follows the case tables of the
    engine, of which [JsString.toLowerCase] holds the Basic Latin and
    Latin-1 part.  Here the lower-casing is a parameter [lower], so that
    what is proved of these functions holds of the code on every
    string, whatever the tables say. *)

(** [a.toLowerCase() === b.toLowerCase()]. *)
Definition sameEmailWith (lower : jsstring -> jsstring) (a b : jsstring)
  : bool :=
  str_eqb (lower a) (lower b).

(** [login], src/unnamed/part_003 lines 66-74. *)
Definition loginWith (lower : jsstring -> jsstring)
           (email password : jsstring) (st : Store)
  : option jsstring * Store :=
  match List.find (fun u => sameEmailWith lower (LocalAuth.email u) email
                            && str_eqb (LocalAuth.password u) password)
                  (users st) with
  | None => (Some (js "Invalid email or password"), st)
  | Some found =>
      (None, mkStore (users st)
                     (Some (mkUser (LocalAuth.email found)
                                   (LocalAuth.name found))))
  end.

(** [signup], src/unnamed/part_003 lines 76-90. *)
Definition signupWith (lower : jsstring -> jsstring)
           (name email password : jsstring) (st : Store)
  : option jsstring * Store :=
  if negb (truthy (trim name)) then (Some (js "Name is required"), st) else
  if negb (truthy (trim email)) then (Some (js "Email is required"), st) else
  if Nat.ltb (List.length password) 6 then
    (Some (js "Password must be at least 6 characters"), st) else
  if List.existsb (fun u => sameEmailWith lower (LocalAuth.email u) email)
                  (users st)
  then (Some (js "An account with this email already exists"), st) else
  (None,
   mkStore (users st ++ [mkStored (trim name) (lower (trim email)) password])
           (Some (mkUser (lower (trim email)) (trim name)))).

Definition applyWith (lower : jsstring -> jsstring) (st : Store) (op : Op)
  : Store :=
  match op with
  | Signup n e p => snd (signupWith lower n e p st)
  | Login e p => snd (loginWith lower e p st)
  | Logout => logout st
  end.

Definition runOpsWith (lower : jsstring -> jsstring) (st : Store)
           (ops : list Op) : Store :=
  List.fold_left (applyWith lower) ops st.

(** A stored account as [signup] writes it: the email trimmed,
    lower-cased (lower-casing it changes nothing) and not empty, the
    name trimmed and not empty, the password of six code units or
    more. *)
Definition wellStoredWith (lower : jsstring -> jsstring) (u : StoredUser)
  : bool :=
  (str_eqb (trim (email u)) (email u)
   && str_eqb (lower (email u)) (email u)
   && truthy (email u)
   && str_eqb (trim (name u)) (name u)
   && truthy (name u)
   && Nat.leb 6 (List.length (password u)))%bool.

End LocalAuthOps.

(* ================================================================== *)
(** * Reading the webhook's effects *)
(* ================================================================== *)

Module WebhookTrace.

Import Webhook.

Definition isConsoleError (e : Effect) : bool :=
  match e with ConsoleError _ => true | InviteUserByEmail _ _ => false end.

(** The invite that [handler] builds from the environment and the
    request once every check has passed. *)
Definition inviteOf (env : Env) (req : Request) : InviteCall :=
  mkInvite (valueOf (VITE_SUPABASE_URL env))
           (valueOf (SUPABASE_SERVICE_ROLE_KEY env))
           (valueOf (emailOf req))
           (valueOf (match body req with Some b => name b | None => None end))
           (if optTruthy (SITE_URL env) then valueOf (SITE_URL env)
            else js "https://lmia-search-ui.vercel.app").

(** The four checks that precede the invite. *)
Definition checksPass (env : Env) (req : Request) : bool :=
  (str_eqb (method req) (js "POST")
   && negb (secretRejected (query_secret req) (KAJABI_WEBHOOK_SECRET env))
   && optTruthy (VITE_SUPABASE_URL env)
   && optTruthy (SUPABASE_SERVICE_ROLE_KEY env)
   && optTruthy (emailOf req))%bool.

End WebhookTrace.

(* ================================================================== *)
(** * Controls of the explorers *)
(* ================================================================== *)

Module Controls.

Local Open Scope Z_scope.

(** The value of a string of decimal digits, read left to right. *)
Definition decimal (s : jsstring) : Z :=
  List.fold_left (fun acc c => acc * 10 + (Z.of_N c - 48)) s 0.

(** [hasActiveFilters] of src/unnamed/part_004. *)
Definition hasActiveFiltersA (s : State) : bool :=
  (negb (str_eqb (employer s) [])
   || negb (str_eqb (province s) (js "ALL"))
   || negb (str_eqb (city s) (js "ALL"))
   || negb (str_eqb (stream s) (js "ALL"))
   || (negb (str_eqb (minLMIAs s) (js "1"))
       && negb (str_eqb (minLMIAs s) [])))%bool.

(** [hasActiveFilters] of src/src/components/LMIAExplorer.tsx. *)
Definition hasActiveFiltersB (s : State) : bool :=
  (negb (str_eqb (employer s) [])
   || negb (str_eqb (province s) (js "ALL"))
   || negb (str_eqb (city s) (js "ALL"))
   || negb (str_eqb (noc s) [])
   || negb (str_eqb (stream s) (js "ALL"))
   || (negb (str_eqb (minLMIAs s) (js "1"))
       && negb (str_eqb (minLMIAs s) [])))%bool.

(** The numbered page buttons, the same in both explorers:
    [Array.from({ length: Math.min(5, totalPages) }, (_, i) => pageNum)]. *)
Definition pageNum (totalPages currentPage i : Z) : Z :=
  if totalPages <=? 5 then i + 1
  else if currentPage <=? 3 then i + 1
  else if totalPages - 2 <=? currentPage then totalPages - 4 + i
  else currentPage - 2 + i.

Definition pageButtons (totalPages currentPage : Z) : list Z :=
  List.map (fun i => pageNum totalPages currentPage (Z.of_nat i))
           (List.seq 0 (Z.to_nat (Z.min 5 totalPages))).

(** The extra "last page" button after the dots:
    [totalPages > 5 && currentPage < totalPages - 2]. *)
Definition lastPageButton (totalPages currentPage : Z) : bool :=
  ((5 <? totalPages) && (currentPage <? totalPages - 2))%bool.


(** Every page-size selection among the events carries a string of
    decimal digits, as the options of the select do. *)
Definition pageSizeEvent (e : Event) : bool :=
  match e with
  | RowsPerPageSelect v => List.forallb isDigit v
  | _ => true
  end.

(** The records with at least one approval. *)
Definition approved (r : LMIARecord) : bool := 1 <=? orZero (PositiveLMIAs r).

End Controls.

(* ================================================================== *)
(** * The current page within the page count *)
(* ================================================================== *)

Module PageRange.

Local Open Scope Z_scope.


(** src/src/components/LMIAExplorer.tsx counts no page for an empty
    list, and the page stays at 1 then. *)
Definition inRangeB (s : State) : Prop :=
  1 <= currentPage s <= Z.max 1 (ExplorerB.totalPages s).

End PageRange.

(* ================================================================== *)
(** * Provinces *)
(* ================================================================== *)

Module Provinces.

Definition PROVINCES : list jsstring :=
  List.map js ["BC"; "AB"; "SK"; "MB"; "ON"; "QC";
               "NB"; "NS"; "PE"; "NL"; "YT"; "NT"; "NU"]%string.

(** [PROVINCES.includes(p)]. *)
Definition isProvince (p : jsstring) : bool :=
  List.existsb (str_eqb p) PROVINCES.

(** The province of every record is one of the thirteen codes (or is
    missing or empty), as the loader leaves the records. *)
Definition provincesKnown (l : list LMIARecord) : bool :=
  List.forallb
    (fun r => match Province r with
              | Some p => (negb (truthy p) || isProvince p)%bool
              | None => true
              end) l.

End Provinces.

(* ================================================================== *)
(** * The summary cards ([insights]) *)
(* ================================================================== *)

Module Insights.

Local Open Scope Z_scope.

(** [filtered.reduce((sum, r) => sum + (r["Positive LMIAs"] ?? 0), 0)]. *)
Definition totalLMIAs (filtered : list LMIARecord) : Z :=
  List.fold_left (fun sum r => sum + orZero (PositiveLMIAs r)) filtered 0.

Definition opt_eqb (a b : option jsstring) : bool :=
  match a, b with
  | Some x, Some y => str_eqb x y
  | None, None => true
  | _, _ => false
  end.

(** [new Set(values)]: the distinct values in the order they first
    occur; [undefined] is a value like any other. *)
Fixpoint setAdd (x : option jsstring) (set : list (option jsstring))
  : list (option jsstring) :=
  match set with
  | [] => [x]
  | y :: set' => if opt_eqb x y then set else y :: setAdd x set'
  end.

Definition newSet (values : list (option jsstring))
  : list (option jsstring) :=
  List.fold_left (fun set x => setAdd x set) values [].

(** [new Set(filtered.map((r) => r["Employer Name"])).size]. *)
Definition totalEmployers (filtered : list LMIARecord) : Z :=
  Z.of_nat (List.length (newSet (List.map EmployerName filtered))).

(** [byProvince[k] = (byProvince[k] || 0) + n] on an object whose keys
    are province codes: the entries in insertion order. *)
Fixpoint bump (entries : list (jsstring * Z)) (k : jsstring) (n : Z)
  : list (jsstring * Z) :=
  match entries with
  | [] => [(k, 0 + n)]
  | (k', v) :: rest =>
      if str_eqb k k' then (k', (if v =? 0 then 0 else v) + n) :: rest
      else (k', v) :: bump rest k n
  end.

(** The [forEach] that fills [byProvince]; a record without a province,
    or with an empty one, is skipped. *)
Definition byProvince (filtered : list LMIARecord) : list (jsstring * Z) :=
  List.fold_left
    (fun entries r =>
       match Province r with
       | Some p => if truthy p then bump entries p (orZero (PositiveLMIAs r))
                   else entries
       | None => entries
       end)
    filtered [].

(** [entries.sort((a, b) => b[1] - a[1])]: descending by total, entries
    with equal totals keeping their order. *)
Fixpoint insertDesc (x : jsstring * Z) (sorted : list (jsstring * Z))
  : list (jsstring * Z) :=
  match sorted with
  | [] => [x]
  | y :: rest =>
      if snd x <? snd y then y :: insertDesc x rest else x :: sorted
  end.

Definition sortDesc (entries : list (jsstring * Z)) : list (jsstring * Z) :=
  List.fold_right insertDesc [] entries.

(** [Object.entries(byProvince).sort(...)[0]?.[0] || dash]. *)
Definition topProvinceWith (dash : jsstring) (filtered : list LMIARecord)
  : jsstring :=
  match sortDesc (byProvince filtered) with
  | (k, _) :: _ => if truthy k then k else dash
  | [] => dash
  end.

(** The dash is U+2014 in src/unnamed/part_004 and its mis-encoded form
    in src/src/components/LMIAExplorer.tsx. *)
Definition topProvinceA : list LMIARecord -> jsstring :=
  topProvinceWith [8212%N].
Definition topProvinceB : list LMIARecord -> jsstring :=
  topProvinceWith [8218%N; 196%N; 238%N].

(** The approvals of the records of province [p]. *)
Definition provinceTotal (p : jsstring) (filtered : list LMIARecord) : Z :=
  totalLMIAs
    (List.filter (fun r => negb (differs (Province r) p)) filtered).

(** The records that carry a province. *)
Definition hasProvince (r : LMIARecord) : bool :=
  match Province r with Some p => truthy p | None => false end.

Definition sumValues (entries : list (jsstring * Z)) : Z :=
  List.fold_right (fun e acc => snd e + acc) 0 entries.

(** One round of the [forEach], and the total stored under a key. *)
Definition stepP (entries : list (jsstring * Z)) (r : LMIARecord)
  : list (jsstring * Z) :=
  match Province r with
  | Some p => if truthy p then bump entries p (orZero (PositiveLMIAs r))
              else entries
  | None => entries
  end.

Definition getZ (m : list (jsstring * Z)) (k : jsstring) : Z :=
  match List.find (fun e => str_eqb k (fst e)) m with
  | Some e => snd e
  | None => 0
  end.

End Insights.

(* ================================================================== *)
(** * Loading and cleaning the data (src/unnamed/part_004) *)
(* ================================================================== *)

Module Loader.

Import Provinces.

(** A row of the JSON file: each text field holds a string or is
    absent, the count holds an integer or is absent. *)
Record RawRow : Type := mkRaw {
  rawEmployer : option jsstring;
  rawCity : option jsstring;
  rawProvince : option jsstring;
  rawStream : option jsstring;
  rawCount : option Z
}.

Definition nameToAbbr : list (jsstring * jsstring) :=
  [ (js "BRITISH COLUMBIA", js "BC");
    (js "ALBERTA", js "AB");
    (js "SASKATCHEWAN", js "SK");
    (js "MANITOBA", js "MB");
    (js "ONTARIO", js "ON");
    (js "QUEBEC", js "QC");
    (js "NEW BRUNSWICK", js "NB");
    (js "NOVA SCOTIA", js "NS");
    (js "PRINCE EDWARD ISLAND", js "PE");
    (js "NEWFOUNDLAND AND LABRADOR", js "NL");
    (js "YUKON", js "YT");
    (js "NORTHWEST TERRITORIES", js "NT");
    (js "NUNAVUT", js "NU") ].

(** [(field as string)?.trim() || ""]. *)
Definition trimmedOrEmpty (field : option jsstring) : jsstring :=
  match field with Some v => trim v | None => [] end.

(** The province of a row: trimmed and upper-cased, a full name replaced
    by its code, anything that is not one of the codes replaced by the
    empty string.  A member inherited from [Object.prototype] is not a
    string, so it is not one of the codes. *)
Definition cleanProvince (field : option jsstring) : jsstring :=
  let prov := match field with
              | Some v => toUpperCase (trim v)
              | None => []
              end in
  match City.lookup nameToAbbr prov with
  | City.Inherited => []
  | City.Own v =>
      let prov := if truthy v then v else prov in
      if negb (isProvince prov) then [] else prov
  | City.Undefined => if negb (isProvince prov) then [] else prov
  end.

(** [row.Province?.trim().toUpperCase() || ""]. *)
Definition upperTrimmed (field : option jsstring) : jsstring :=
  match field with Some v => toUpperCase (trim v) | None => [] end.

(** The same cleaning as src/src/components/LMIAExplorer.tsx writes it:
    a chain of comparisons instead of a table. *)
Definition cleanProvinceB (field : option jsstring) : jsstring :=
  let province := upperTrimmed field in
  let province :=
    if str_eqb province (js "BRITISH COLUMBIA") then js "BC"
    else if str_eqb province (js "ALBERTA") then js "AB"
    else if str_eqb province (js "SASKATCHEWAN") then js "SK"
    else if str_eqb province (js "MANITOBA") then js "MB"
    else if str_eqb province (js "ONTARIO") then js "ON"
    else if str_eqb province (js "QUEBEC") then js "QC"
    else if str_eqb province (js "NEW BRUNSWICK") then js "NB"
    else if str_eqb province (js "NOVA SCOTIA") then js "NS"
    else if str_eqb province (js "PRINCE EDWARD ISLAND") then js "PE"
    else if str_eqb province (js "NEWFOUNDLAND AND LABRADOR") then js "NL"
    else if str_eqb province (js "YUKON") then js "YT"
    else if str_eqb province (js "NORTHWEST TERRITORIES") then js "NT"
    else if str_eqb province (js "NUNAVUT") then js "NU"
    else province in
  if negb (isProvince province) then [] else province.

(** The city of a row; [None] when [normalizeCityName] raises. *)
Definition cleanCity (field : option jsstring) : option jsstring :=
  let cityVal := trimmedOrEmpty field in
  if (truthy cityVal && ExplorerA.isValidCityName cityVal)%bool
  then ExplorerA.normalizeCityName cityVal
  else Some [].

(** [Number(x) || 0] on an integer or an absent value. *)
Definition numberOrZero (field : option Z) : Z :=
  match field with Some n => n | None => 0%Z end.

(** The callback of [data.map]. *)
Definition cleanRow (row : RawRow) : option LMIARecord :=
  let prov := cleanProvince (rawProvince row) in
  match cleanCity (rawCity row) with
  | None => None
  | Some cityVal =>
      Some (mkRecord (Some (trimmedOrEmpty (rawEmployer row)))
                     (Some cityVal)
                     (Some prov)
                     (Some (trimmedOrEmpty (rawStream row)))
                     None None
                     (Some (numberOrZero (rawCount row))))
  end.

(** The callback of [.filter]: a city and a province, both not empty. *)
Definition keepRow (r : LMIARecord) : bool :=
  (truthy (orEmpty (City r)) && Nat.ltb 0 (List.length (orEmpty (City r)))
   && truthy (orEmpty (Province r))
   && Nat.ltb 0 (List.length (orEmpty (Province r))))%bool.

(** [data.map(...)]: the first row that raises ends the load. *)
Fixpoint mapRows (data : list RawRow) : option (list LMIARecord) :=
  match data with
  | [] => Some []
  | row :: data' =>
      match cleanRow row with
      | None => None
      | Some r =>
          match mapRows data' with
          | None => None
          | Some rs => Some (r :: rs)
          end
      end
  end.

(** [cleanedData]; [None] is the error state of the view. *)
Definition cleanedData (data : list RawRow) : option (list LMIARecord) :=
  match mapRows data with
  | None => None
  | Some rs => Some (List.filter keepRow rs)
  end.

(** The city names on which [normalizeCityName] raises although
    [isValidCityName] accepts them. *)
Definition poisonCities : list jsstring :=
  List.map js ["constructor"; "hasOwnProperty"; "isPrototypeOf";
               "propertyIsEnumerable"; "toLocaleString"; "toString";
               "valueOf"]%string.

(** ** The province over any upper-casing

    [String.prototype.toUpperCase] follows the case tables of the
    engine, of which [JsString.toUpperCase] holds the Basic Latin and
    Latin-1 part; the province field is free text.  Here the
    upper-casing is a parameter [upper]. *)

(** [(row["Province"] as string)?.trim().toUpperCase() || ""]. *)
Definition upperTrimmedWith (upper : jsstring -> jsstring)
           (field : option jsstring) : jsstring :=
  match field with Some v => upper (trim v) | None => [] end.

Definition cleanProvinceWith (upper : jsstring -> jsstring)
           (field : option jsstring) : jsstring :=
  let prov := upperTrimmedWith upper field in
  match City.lookup nameToAbbr prov with
  | City.Inherited => []
  | City.Own v =>
      let prov := if truthy v then v else prov in
      if negb (isProvince prov) then [] else prov
  | City.Undefined => if negb (isProvince prov) then [] else prov
  end.

(** ** Rows as the file can hold them

    The cleaning reads [data], the value of [r.json()], as an array of
    rows typed [Record<string, unknown>] and casts each text member
    with [as string], which checks nothing when the code runs. *)

(** A text member of a row: missing or [null], on which [?.] gives
    [undefined]; a string; or a number, a boolean, an array or an
    object, none of which has a callable [trim], so that [.trim()]
    raises. *)
Inductive Field : Type :=
| Absent
| Text (s : jsstring)
| NotText.

(** The count member, by what [Number(row["Positive LMIAs"]) || 0] does
    with it: it gives the integer [n] (0 for a missing member, [null],
    [NaN]), or [Number] raises, as it does on an object that has a member
    [toString] of its own and on an array that holds one.  Counts that
    are not integers are left out, as in [LMIARecord]. *)
Inductive Count : Type :=
| CountIs (n : Z)
| CountRaises.

(** An element of the array: [null], on which [row["Province"]] raises,
    or anything else.  An element that is a number, a boolean, a string
    or an array has none of the five members: it is a [Row] of absent
    fields and of count 0. *)
Inductive JsonRow : Type :=
| NullRow
| Row (employer city province stream : Field) (count : Count).

(** Reading a text member: [None] when [.trim()] raises. *)
Definition readText (f : Field) : option (option jsstring) :=
  match f with
  | Absent => Some None
  | Text s => Some (Some s)
  | NotText => None
  end.

(** The callback of [data.map], in the order in which it reads the
    members; [None] when it raises. *)
Definition cleanJsonRow (row : JsonRow) : option LMIARecord :=
  match row with
  | NullRow => None
  | Row employer city province stream count =>
      match readText province with
      | None => None
      | Some p =>
      match readText city with
      | None => None
      | Some c =>
      match cleanCity c with
      | None => None
      | Some cityVal =>
      match readText employer with
      | None => None
      | Some e =>
      match readText stream with
      | None => None
      | Some st =>
      match count with
      | CountRaises => None
      | CountIs n =>
          Some (mkRecord (Some (trimmedOrEmpty e))
                         (Some cityVal)
                         (Some (cleanProvince p))
                         (Some (trimmedOrEmpty st))
                         None None
                         (Some n))
      end end end end end end
  end.

Fixpoint mapJsonRows (data : list JsonRow) : option (list LMIARecord) :=
  match data with
  | [] => Some []
  | row :: data' =>
      match cleanJsonRow row with
      | None => None
      | Some r =>
          match mapJsonRows data' with
          | None => None
          | Some rs => Some (r :: rs)
          end
      end
  end.

(** [cleanedData] on such an array; [None] is the error state of the
    view. *)
Definition cleanedJson (data : list JsonRow) : option (list LMIARecord) :=
  match mapJsonRows data with
  | None => None
  | Some rs => Some (List.filter keepRow rs)
  end.

(** A [RawRow] among the rows of the file. *)
Definition ofField (field : option jsstring) : Field :=
  match field with Some s => Text s | None => Absent end.

Definition ofRaw (row : RawRow) : JsonRow :=
  Row (ofField (rawEmployer row)) (ofField (rawCity row))
      (ofField (rawProvince row)) (ofField (rawStream row))
      (CountIs (numberOrZero (rawCount row))).

Definition sampleData : list RawRow :=
  [ mkRaw (Some (js " Acme Farms ")) (Some (js "  surrey "))
          (Some (js "british columbia")) (Some (js "Agricultural"))
          (Some 4%Z);
    mkRaw None (Some (js "12 Main Street")) (Some (js "ON")) None (Some 2%Z);
    mkRaw (Some (js "Borealis Inc")) (Some (js "toront")) (Some (js " on "))
          None None;
    mkRaw (Some (js "Nowhere Ltd")) (Some (js "Springfield"))
          (Some (js "Oregon")) None (Some 9%Z) ].

End Loader.

(* ================================================================== *)
(** * The options of the city and stream selects *)
(* ================================================================== *)

Module Options.

Import Provinces.

(** [list.includes(x) ? list : list.push(x)]. *)
Definition pushNew (x : jsstring) (items : list jsstring) : list jsstring :=
  if List.existsb (str_eqb x) items then items else items ++ [x].

(** [map[p]] becomes [f(map[p])]; the keys are the thirteen codes, each
    once. *)
Definition updateAt (map : list (jsstring * list jsstring)) (p : jsstring)
           (f : list jsstring -> list jsstring)
  : list (jsstring * list jsstring) :=
  List.map (fun e => if str_eqb (fst e) p then (fst e, f (snd e)) else e) map.

(** One round of [rows.forEach] in [citiesByProvince]; [None] when
    [normalizeCityName] raises. *)
Definition collectCity (valid : jsstring -> bool)
           (normalize : jsstring -> option jsstring)
           (map : list (jsstring * list jsstring)) (r : LMIARecord)
  : option (list (jsstring * list jsstring)) :=
  if (negb (truthy (orEmpty (Province r)))
      || negb (truthy (orEmpty (City r)))
      || negb (isProvince (orEmpty (Province r))))%bool
  then Some map
  else
    match normalize (orEmpty (City r)) with
    | None => None
    | Some normalized =>
        if negb (valid normalized) then Some map
        else Some (updateAt map (orEmpty (Province r)) (pushNew normalized))
    end.

Fixpoint collectCities (valid : jsstring -> bool)
         (normalize : jsstring -> option jsstring)
         (map : list (jsstring * list jsstring)) (rows : list LMIARecord)
  : option (list (jsstring * list jsstring)) :=
  match rows with
  | [] => Some map
  | r :: rows' =>
      match collectCity valid normalize map r with
      | None => None
      | Some map' => collectCities valid normalize map' rows'
      end
  end.

(** [citiesByProvince]: an empty list per province, the cities of the
    rows collected, then each list sorted with [localeCompare] and cut
    to 200.  The collation of [localeCompare] belongs to the platform:
    the sort is the parameter [localeSort]. *)
Definition citiesByProvinceWith (valid : jsstring -> bool)
           (normalize : jsstring -> option jsstring)
           (localeSort : list jsstring -> list jsstring)
           (rows : list LMIARecord)
  : option (list (jsstring * list jsstring)) :=
  match collectCities valid normalize
          (List.map (fun p => (p, [])) PROVINCES) rows with
  | None => None
  | Some map =>
      Some (List.map (fun e => (fst e, List.firstn 200 (localeSort (snd e))))
                     map)
  end.

Definition citiesByProvinceA :=
  citiesByProvinceWith ExplorerA.isValidCityName ExplorerA.normalizeCityName.
Definition citiesByProvinceB :=
  citiesByProvinceWith ExplorerB.isValidCityName ExplorerB.normalizeCityName.

(** [streamOptions] of src/unnamed/part_004: the distinct non-empty
    streams, sorted. *)
Definition streamOptions (localeSort : list jsstring -> list jsstring)
           (rows : list LMIARecord) : list jsstring :=
  localeSort
    (List.fold_left
       (fun streams r =>
          if (truthy (orEmpty (ProgramStream r))
              && Nat.ltb 0 (List.length (orEmpty (ProgramStream r))))%bool
          then pushNew (orEmpty (ProgramStream r)) streams
          else streams)
       rows []).

(** A row contributes the city [c] to the list of province [p]. *)
Definition contributes (valid : jsstring -> bool)
           (normalize : jsstring -> option jsstring)
           (p c : jsstring) (r : LMIARecord) : Prop :=
  Province r = Some p /\ isProvince p = true
  /\ truthy (orEmpty (City r)) = true
  /\ normalize (orEmpty (City r)) = Some c
  /\ valid c = true.

(** A row of the file that spells its city in capitals, and the two
    spellings of that city with the accent: as src/unnamed/part_004
    holds it and as src/src/components/LMIAExplorer.tsx holds it. *)
Definition montrealRow : Loader.RawRow :=
  Loader.mkRaw (Some (js "Acme Farms")) (Some (js "MONTREAL"))
               (Some (js "QC")) None (Some 3%Z).

Definition montrealAccented : jsstring := js "Montr" ++ [233%N] ++ js "al".

Definition montrealMisencoded : jsstring :=
  js "Montr" ++ [8730%N; 169%N] ++ js "al".

(** The lists collected so far hold, without repetition, the cities
    that the rows seen so far contribute. *)
Definition collected (valid : jsstring -> bool)
           (normalize : jsstring -> option jsstring)
           (m : list (jsstring * list jsstring))
           (seen : list LMIARecord) : Prop :=
  List.map fst m = PROVINCES
  /\ forall q cs, In (q, cs) m ->
       NoDup cs
       /\ forall c, In c cs
                    <-> exists r, In r seen
                                  /\ contributes valid normalize q c r.

End Options.

(* ================================================================== *)
(** * The hosted sign-in: src/src/components/AuthProvider.tsx,
      src/unnamed/part_001 and src/unnamed/part_002 *)
(* ================================================================== *)

Module SupabaseAuth.

(** [session.user], with what the provider reads of it: [email] and
    [user_metadata?.name], either of which may be absent. *)
Record SessionUser : Type := mkSessionUser {
  suEmail : option jsstring;
  suName : option jsstring
}.

Record Session : Type := mkSession {
  sessionUser : option SessionUser
}.

Record User : Type := mkUser {
  userEmail : jsstring;
  userName : jsstring
}.

(** [sessionToUser], AuthProvider.tsx lines 29-35. *)
Definition sessionToUser (session : option Session) : option User :=
  match session with
  | None => None
  | Some s =>
      match sessionUser s with
      | None => None
      | Some u =>
          Some (mkUser (orEmpty (suEmail u))
                       (match suName u with
                        | Some n => n
                        | None => orEmpty (suEmail u)
                        end))
      end
  end.

(** The three cells of the provider. *)
Record AuthState : Type := mkAuth {
  user : option User;
  loading : bool;
  isRecoveryMode : bool
}.

Definition initialAuth : AuthState := mkAuth None true false.

(** [logout], lines 74-78. *)
Definition logout (st : AuthState) : AuthState :=
  mkAuth None (loading st) false.

(** [updatePassword], lines 88-93; [error] is the message of the error
    the service answered with, if it answered with one. *)
Definition updatePassword (error : option jsstring) (st : AuthState)
  : option jsstring * AuthState :=
  match error with
  | Some message => (Some message, st)
  | None => (None, mkAuth (user st) (loading st) false)
  end.

(** What reaches the provider: the answer to [getSession], an
    [onAuthStateChange] notification, and the calls of its own
    functions with the answer of the service. *)
Inductive AuthEvent : Type :=
| GetSession (session : option Session)
| StateChange (event : jsstring) (session : option Session)
| Login (error : option jsstring)
| Logout
| ResetPassword (error : option jsstring)
| UpdatePassword (error : option jsstring).

Definition authStep (st : AuthState) (ev : AuthEvent) : AuthState :=
  match ev with
  | GetSession session => mkAuth (sessionToUser session) false (isRecoveryMode st)
  | StateChange event session =>
      let r1 := if str_eqb event (js "PASSWORD_RECOVERY") then true
                else isRecoveryMode st in
      let r2 := if str_eqb event (js "SIGNED_OUT") then false else r1 in
      mkAuth (sessionToUser session) (loading st) r2
  | Login _ => st
  | Logout => logout st
  | ResetPassword _ => st
  | UpdatePassword error => snd (updatePassword error st)
  end.

Definition authRun (st : AuthState) (evs : list AuthEvent) : AuthState :=
  List.fold_left authStep evs st.

(** [AppContent], part_001 lines 6-23. *)
Inductive Screen : Type := Spinner | AuthPageScreen | Explorer.

Definition screen (st : AuthState) : Screen :=
  if loading st then Spinner
  else if isRecoveryMode st then AuthPageScreen
  else match user st with
       | Some _ => Explorer
       | None => AuthPageScreen
       end.

(** The events that clear [isRecoveryMode]. *)
Definition leavesRecovery (ev : AuthEvent) : bool :=
  match ev with
  | StateChange event _ => str_eqb event (js "SIGNED_OUT")
  | Logout => true
  | UpdatePassword None => true
  | _ => false
  end.

(** An event that delivers a session with a user. *)
Definition deliversUser (ev : AuthEvent) : bool :=
  match ev with
  | GetSession session | StateChange _ session =>
      match sessionToUser session with Some _ => true | None => false end
  | _ => false
  end.

Definition isGetSession (ev : AuthEvent) : bool :=
  match ev with GetSession _ => true | _ => false end.

(** The form of part_002. *)
Inductive Mode : Type := LoginMode | ForgotMode | SetPasswordMode.

Record Page : Type := mkPage {
  mode : Mode;
  email : jsstring;
  password : jsstring;
  confirmPassword : jsstring;
  error : jsstring;
  success : jsstring;
  submitting : bool
}.

Definition setError (e : jsstring) (pg : Page) : Page :=
  mkPage (mode pg) (email pg) (password pg) (confirmPassword pg)
         e (success pg) (submitting pg).
Definition setSubmitting (b : bool) (pg : Page) : Page :=
  mkPage (mode pg) (email pg) (password pg) (confirmPassword pg)
         (error pg) (success pg) b.

(** [if (err) setError(err)]. *)
Definition showError (err : option jsstring) (pg : Page) : Page :=
  match err with
  | Some e => if truthy e then setError e pg else pg
  | None => pg
  end.

(** The requests sent to the service. *)
Inductive Call : Type :=
| SignIn (email password : jsstring)
| ResetEmail (email : jsstring)
| UpdateUser (password : jsstring).

(** [handleSetPassword], part_002 lines 53-69, with [updatePassword] of the
    provider inlined at its call. *)
Definition handleSetPassword (updateUser : jsstring -> option jsstring)
           (pg : Page) (st : AuthState) : Page * AuthState * list Call :=
  let pg1 := setError [] pg in
  if Nat.ltb (List.length (password pg)) 6 then
    (setError (js "Password must be at least 6 characters") pg1, st, [])
  else if negb (str_eqb (password pg) (confirmPassword pg)) then
    (setError (js "Passwords do not match") pg1, st, [])
  else
    let pg2 := setSubmitting true pg1 in
    let '(err, st') := updatePassword (updateUser (password pg)) st in
    (setSubmitting false (showError err pg2), st', [UpdateUser (password pg)]).

(** A signed-in session and a form filled in for a new password. *)
Definition annSession : option Session :=
  Some (mkSession (Some (mkSessionUser (Some (js "ann@x.io")) None))).

Definition newPasswordPage : Page :=
  mkPage SetPasswordMode [] (js "secret1") (js "secret1") [] [] false.

End SupabaseAuth.

(* ================================================================== *)
(** * The filters over any lower-casing *)
(* ================================================================== *)

Module TextSearch.

Local Open Scope Z_scope.

(** The callbacks of [rows.filter] once more, with the lower-casing as
    a parameter [lower]: [String.prototype.toLowerCase] follows the case
    tables of the engine, of which [JsString.toLowerCase] holds the
    Basic Latin and Latin-1 part, and the employer names and the search
    texts are free text. *)
Definition keepsA (lower : jsstring -> jsstring) (s : State)
           (r : LMIARecord) : bool :=
  if (negb (str_eqb (province s) (js "ALL"))
      && differs (Province r) (province s))%bool then false else
  if (negb (str_eqb (city s) (js "ALL"))
      && differs (City r) (city s))%bool then false else
  if (negb (str_eqb (stream s) (js "ALL"))
      && differs (ProgramStream r) (stream s))%bool then false else
  if orZero (PositiveLMIAs r) <? ExplorerA.minLMIAsNum s then false else
  if (truthy (trim (employer s))
      && negb (includes (lower (orEmpty (EmployerName r)))
                        (lower (trim (employer s)))))%bool
  then false else
  true.

Definition filteredA (lower : jsstring -> jsstring) (s : State)
  : list LMIARecord :=
  List.filter (keepsA lower s) (rows s).

Definition keepsB (lower : jsstring -> jsstring) (s : State)
           (r : LMIARecord) : bool :=
  if (negb (str_eqb (province s) (js "ALL"))
      && differs (Province r) (province s))%bool then false else
  if (negb (str_eqb (city s) (js "ALL"))
      && differs (City r) (city s))%bool then false else
  if (negb (str_eqb (stream s) (js "ALL"))
      && differs (ProgramStream r) (stream s))%bool then false else
  if orZero (PositiveLMIAs r) <? ExplorerB.minLMIAsNum s then false else
  if (truthy (trim (employer s))
      && negb (includes (lower (orEmpty (EmployerName r)))
                        (lower (trim (employer s)))))%bool
  then false else
  if truthy (trim (noc s)) then
    let searchTerm := lower (trim (noc s)) in
    let nocCode := lower (orEmpty (NOCCode r)) in
    let nocTitle := lower (orEmpty (NOCTitle r)) in
    if (negb (includes nocCode searchTerm)
        && negb (includes nocTitle searchTerm))%bool
    then false else true
  else
  true.

Definition filteredB (lower : jsstring -> jsstring) (s : State)
  : list LMIARecord :=
  List.filter (keepsB lower s) (rows s).

End TextSearch.

(* ================================================================== *)
(** * Loading the data again (src/src/components/LMIAExplorer.tsx) *)
(* ================================================================== *)

Module Reload.

(** [setRows]. *)
Definition setRows (v : list LMIARecord) (s : State) : State :=
  mkState v (employer s) (province s) (city s) (noc s) (stream s)
          (minLMIAs s) (currentPage s) (rowsPerPage s).

(** The data effect of src/src/components/LMIAExplorer.tsx (lines
    382-439) depends on [language]: after the language select changes,
    the file is fetched and cleaned again and [setRows] replaces the
    rows, whose employer label depends on the language.  No other cell
    changes, and the page-reset effect (lines 629-631), which depends on
    the filter cells only, does not run.  [RowsReloaded rs] is the moment
    [setRows(rs)] runs; a fetch that fails leaves the error view.
    src/unnamed/part_004 fetches once (its effect has no dependency). *)
Inductive EventB : Type :=
| Ui (e : Event)
| RowsReloaded (reloaded : list LMIARecord).

Definition stepB (s : State) (e : EventB) : State :=
  match e with
  | Ui e => ExplorerB.step s e
  | RowsReloaded reloaded => setRows reloaded s
  end.

Definition runB (s : State) (es : list EventB) : State :=
  List.fold_left stepB es s.





(** The cleaned data of a file with 120 rows whose employer is not
    disclosed, labelled [label], and 10 rows of one named employer; and
    what a visitor does who searches for "not", opens the third page and
    then switches to French. *)
Definition employerRow (employer : jsstring) : LMIARecord :=
  mkRecord (Some employer) (Some (js "Surrey")) (Some (js "BC"))
           (Some (js "Agricultural")) None None (Some 4%Z).

Definition cleanedWith (label : jsstring) : list LMIARecord :=
  List.repeat (employerRow label) 120
  ++ List.repeat (employerRow (js "Notary Inc")) 10.

Definition visit : list EventB :=
  [ Ui (RowsPerPageSelect (js "50"));
    Ui (EmployerInput (js "not"));
    Ui (PageClick 3);
    RowsReloaded (cleanedWith (js "Non divulgu" ++ [8730%N; 169%N])) ].

End Reload.

(* ================================================================== *)
(** * Basic facts about strings *)
(* ================================================================== *)

Section StringFacts.

Lemma ch_eqb_eq (a b : char) : ch_eqb a b = true <-> a = b.
Proof. unfold ch_eqb. apply N.eqb_eq. Qed.

Lemma ch_eqb_refl (a : char) : ch_eqb a a = true.
Proof. apply ch_eqb_eq. reflexivity. Qed.

Lemma str_eqb_eq (a b : jsstring) : str_eqb a b = true <-> a = b.
Proof.
revert b. induction a as [|x a IH]; intros [|y b]; simpl;
  try (split; [discriminate | discriminate]); try tauto.
rewrite andb_true_iff, ch_eqb_eq, IH.
split; [intros [-> ->]; reflexivity | intros H; inversion H; auto].
Qed.

Lemma str_eqb_refl (a : jsstring) : str_eqb a a = true.
Proof. apply str_eqb_eq. reflexivity. Qed.

Lemma str_eqb_neq (a b : jsstring) : str_eqb a b = false <-> a <> b.
Proof.
rewrite <- str_eqb_eq. destruct (str_eqb a b); split; congruence.
Qed.

Lemma in_range_spec (lo hi c : char) :
in_range lo hi c = true <-> (lo <= c /\ c <= hi)%N.
Proof.
unfold in_range. rewrite andb_true_iff, !N.leb_le. tauto.
Qed.

End StringFacts.

(* ================================================================== *)
(** * The embedding on sample inputs *)
(* ================================================================== *)

Module Samples.

Example parseInt_samples :
  parseInt (js "0") = Some 0%Z
  /\ parseInt (js "007") = Some 7%Z
  /\ parseInt (js "  -12abc") = Some (-12)%Z
  /\ parseInt (js "0x1F") = Some 31%Z
  /\ parseInt (js "0x") = None
  /\ parseInt (js "abc") = None
  /\ parseInt [] = None.
Proof. repeat split. Qed.

Example valid_cities :
  List.map (fun c => ExplorerA.isValidCityName (js c))
    ["Vancouver"; "North Vancouver"; "  Surrey  "; "Sault Ste Marie";
     "O'Leary"; "Westway"]%string
  = [true; true; true; true; true; true].
Proof. vm_compute. reflexivity. Qed.

Example rejected_cities :
  List.map (fun c => ExplorerA.isValidCityName (js c))
    [""; "ab"; "Toronto1"; "St Albert"; "Fort St John"; "Baie-St-Paul";
     "PO Box"; "P.O. Box"; "north of town"; "E and W"; "A B"; "Way";
     "Unknown town"; "Abc_def"]%string
  = [false; false; false; false; false; false; false; false; false; false;
     false; false; false; false].
Proof. vm_compute. reflexivity. Qed.

Example normalized_cities :
  ExplorerA.normalizeCityName (js "  sault ste marie ")
  = Some (js "Sault Ste Marie")
  /\ ExplorerA.normalizeCityName (js "L'ANGE-GARDIEN")
     = Some (js "L'ange-gardien")
  /\ ExplorerA.normalizeCityName (js "Abbottsford") = Some (js "Abbotsford")
  /\ ExplorerA.normalizeCityName (js "Montreal")
     = Some (js "Montr" ++ [233%N] ++ js "al")
  /\ ExplorerA.normalizeCityName (js "a  b") = Some (js "A  B").
Proof. vm_compute. repeat split. Qed.

(** A city name that is also a member of [Object.prototype] passes the
    validator, and [normalizeCityName] raises on it. *)
Example inherited_member :
  ExplorerA.isValidCityName (js "constructor") = true
  /\ ExplorerA.normalizeCityName (js "constructor") = None.
Proof. vm_compute. split; reflexivity. Qed.

Example filtered_sample :
  ExplorerA.filtered sample = [rec1; rec2; rec1; rec2]
  /\ ExplorerA.totalPages sample = 2%Z
  /\ ExplorerA.paginatedData (setCurrentPage 2 sample) = [rec1; rec2]
  /\ ExplorerB.filtered (setNoc (js "2174") sample) = [].
Proof. vm_compute. repeat split. Qed.

End Samples.

(* ================================================================== *)
(** * Anchored character-class patterns *)
(* ================================================================== *)

Module RegexFacts.

Import Regex.

Section Anchored.

Variable p : char -> bool.

(** The continuation that stands for a final [$]. *)
Let atEnd : cont := fun p' s' => matchAt Eol p' s' (fun _ _ => true).

Lemma starLoop_class (n : nat) :
  forall s prev, (List.length s <= n)%nat ->
    starLoop (matchAt (Chr p)) atEnd n prev s = List.forallb p s.
Proof.
  induction n as [|n IH]; intros s prev Hlen.
  - destruct s; [reflexivity | simpl in Hlen; lia].
  - destruct s as [|c s]; [reflexivity|].
    cbn [starLoop matchAt List.forallb].
    replace (Nat.ltb (List.length s) (List.length (c :: s))) with true
      by (symmetry; apply Nat.ltb_lt; simpl; lia).
    rewrite IH by (simpl in Hlen; lia).
    unfold atEnd. simpl. now rewrite orb_false_r.
Qed.

Lemma anchored_not_later (r : re) (c : char) (s : jsstring) :
  searchFrom (Seq Bol r) (Some c) s = false.
Proof.
  revert c. induction s as [|d s IH]; intros c; simpl; [reflexivity|].
  apply IH.
Qed.

(** [/^[class]+$/.test(s)]: [s] is not empty and every code unit is in
    the class. *)
Lemma test_anchored_plus (s : jsstring) :
  test (City.seqs [Bol; Plus (Chr p); Eol]) s
  = (truthy s && List.forallb p s)%bool.
Proof.
  unfold test. destruct s as [|c s]; [reflexivity|].
  cbn [City.seqs searchFrom].
  rewrite (anchored_not_later _ c s), orb_false_r.
  unfold Plus. cbn [matchAt truthy List.forallb andb].
  fold atEnd. now rewrite starLoop_class.
Qed.

End Anchored.

End RegexFacts.

(* ================================================================== *)
(** * The threshold input and [parseInt] *)
(* ================================================================== *)

Module ThresholdFacts.

Local Open Scope N_scope.

(** Settle every comparison on a code unit whose range is known. *)
Ltac decide_comparisons :=
  unfold isDigit, isWhiteSpace, in_range, ch_eqb;
  repeat match goal with
         | |- context [N.leb ?a ?b] =>
             first [ replace (N.leb a b) with true
                       by (symmetry; apply N.leb_le; lia)
                   | replace (N.leb a b) with false
                       by (symmetry; apply N.leb_gt; lia) ]
         | |- context [N.eqb ?a ?b] =>
             first [ replace (N.eqb a b) with false
                       by (symmetry; apply N.eqb_neq; lia)
                   | replace (N.eqb a b) with true
                       by (symmetry; apply N.eqb_eq; lia) ]
         end;
  reflexivity.

Lemma digit_not_space c : isDigit c = true -> isWhiteSpace c = false.
Proof. intros H. apply in_range_spec in H. decide_comparisons. Qed.

Lemma digit_not_sign c :
  isDigit c = true -> ch_eqb c 45 = false /\ ch_eqb c 43 = false.
Proof. intros H. apply in_range_spec in H. split; decide_comparisons. Qed.

Lemma digit_not_x c :
  isDigit c = true -> (ch_eqb c 120 || ch_eqb c 88)%bool = false.
Proof. intros H. apply in_range_spec in H. decide_comparisons. Qed.

Lemma digit_value c :
  isDigit c = true ->
  exists d, digitValue 10 c = Some d /\ (0 <= d)%Z.
Proof.
  intros H. unfold digitValue. fold (isDigit c). rewrite H.
  exists (Z.of_N c - 48)%Z.
  assert (48 <= c <= 57) by (apply in_range_spec; exact H).
  replace (Z.of_N c - 48 <? 10)%Z with true
    by (symmetry; apply Z.ltb_lt; lia).
  split; [reflexivity | lia].
Qed.

Lemma nondigit_value c : isDigit c = false -> digitValue 10 c = None.
Proof.
  intros H. unfold digitValue. fold (isDigit c). rewrite H.
  destruct (in_range 97 122 c) eqn:E1.
  - apply in_range_spec in E1.
    replace (Z.of_N c - 87 <? 10)%Z with false; [reflexivity|].
    symmetry. apply Z.ltb_ge. lia.
  - destruct (in_range 65 90 c) eqn:E2; [|reflexivity].
    apply in_range_spec in E2.
    replace (Z.of_N c - 55 <? 10)%Z with false; [reflexivity|].
    symmetry. apply Z.ltb_ge. lia.
Qed.

Lemma nondigit_not_zero c : isDigit c = false -> ch_eqb c 48 = false.
Proof.
  intros H. unfold ch_eqb. destruct (N.eqb_spec c 48); [|reflexivity].
  subst c. discriminate H.
Qed.

Lemma readDigits_seen radix s acc :
  (0 < radix)%Z -> (0 <= acc)%Z ->
  exists n, readDigits radix s acc true = Some n /\ (0 <= n)%Z.
Proof.
  intros Hr. revert acc. induction s as [|c s IH]; intros acc Ha; simpl.
  - eauto.
  - destruct (digitValue radix c) as [d|] eqn:E; [|eauto].
    apply IH.
    unfold digitValue in E.
    assert (0 <= d)%Z.
    { destruct (in_range 48 57 c) eqn:E1.
      - apply in_range_spec in E1.
        destruct (Z.of_N c - 48 <? radix)%Z; inversion E; lia.
      - destruct (in_range 97 122 c) eqn:E2.
        + apply in_range_spec in E2.
          destruct (Z.of_N c - 87 <? radix)%Z; inversion E; lia.
        + destruct (in_range 65 90 c) eqn:E3; [|discriminate].
          apply in_range_spec in E3.
          destruct (Z.of_N c - 55 <? radix)%Z; inversion E; lia. }
    nia.
Qed.

(** A non-empty string of decimal digits parses to an integer that is
    not negative. *)
Lemma parseInt_digits (v : jsstring) :
  v <> [] -> List.forallb isDigit v = true ->
  exists n, parseInt v = Some n /\ (0 <= n)%Z.
Proof.
  intros Hne Hall. destruct v as [|c v]; [congruence|].
  simpl in Hall. apply andb_true_iff in Hall. destruct Hall as [Hc Hv].
  unfold parseInt, trimStart. cbn [dropWhile].
  rewrite (digit_not_space c Hc).
  destruct (digit_not_sign c Hc) as [-> ->].
  assert (Hx : match v with
               | b :: _ => (ch_eqb b 120 || ch_eqb b 88)%bool = false
               | [] => True
               end).
  { destruct v as [|b r]; [exact I|].
    simpl in Hv. apply andb_true_iff in Hv. now apply digit_not_x. }
  destruct (digit_value c Hc) as (d & Ed & Hd).
  destruct (readDigits_seen 10 v (0 * 10 + d)%Z ltac:(lia) ltac:(lia))
    as (n & En & Hn).
  exists (1 * n)%Z. split; [|lia].
  destruct v as [|b r].
  - cbn [readDigits]. rewrite Ed. cbn [readDigits] in En |- *.
    injection En as <-. reflexivity.
  - rewrite Hx, andb_false_r. remember (b :: r) as w.
    cbn [readDigits]. rewrite Ed. now rewrite En.
Qed.

Lemma dropWhile_forall (q p : char -> bool) (s : jsstring) :
  List.forallb q s = true -> List.forallb q (dropWhile p s) = true.
Proof.
  induction s as [|c s IH]; simpl; [auto|].
  intros H. destruct (p c); [|exact H].
  apply andb_true_iff in H. tauto.
Qed.

(** A string without any decimal digit parses to NaN. *)
Lemma parseInt_no_digit (v : jsstring) :
  List.forallb (fun c => negb (isDigit c)) v = true -> parseInt v = None.
Proof.
  intros Hall. unfold parseInt, trimStart.
  pose proof (dropWhile_forall _ isWhiteSpace v Hall) as H1.
  set (s1 := dropWhile isWhiteSpace v) in *.
  assert (Hsign : exists sign s2,
    match s1 with
    | c :: r => if ch_eqb c 45 then ((-1)%Z, r)
                else if ch_eqb c 43 then (1%Z, r) else (1%Z, s1)
    | [] => (1%Z, s1)
    end = (sign, s2)
    /\ List.forallb (fun c => negb (isDigit c)) s2 = true).
  { destruct s1 as [|c r]; [eauto|].
    pose proof H1 as H1'. simpl in H1'.
    apply andb_true_iff in H1'. destruct H1' as [_ Hr].
    destruct (ch_eqb c 45); [eauto|]. destruct (ch_eqb c 43); eauto. }
  destruct Hsign as (sign & s2 & -> & H2).
  assert (Hradix :
    match s2 with
    | a :: b :: r =>
        if (ch_eqb a 48 && (ch_eqb b 120 || ch_eqb b 88))%bool
        then (16%Z, r) else (10%Z, s2)
    | _ => (10%Z, s2)
    end = (10%Z, s2)).
  { destruct s2 as [|a [|b r]]; try reflexivity.
    simpl in H2. apply andb_true_iff in H2. destruct H2 as [Ha _].
    apply negb_true_iff in Ha.
    rewrite (nondigit_not_zero a Ha). reflexivity. }
  rewrite Hradix.
  destruct s2 as [|a r]; [reflexivity|].
  simpl in H2. apply andb_true_iff in H2. destruct H2 as [Ha _].
  apply negb_true_iff in Ha.
  cbn [readDigits]. rewrite (nondigit_value a Ha). reflexivity.
Qed.

Local Open Scope Z_scope.

Lemma parseIntOr_digits (v : jsstring) :
  List.forallb isDigit v = true -> 1 <= parseIntOr v 1.
Proof.
  intros Hall. unfold parseIntOr.
  destruct v as [|c v]; [vm_compute; discriminate|].
  destruct (parseInt_digits (c :: v) ltac:(discriminate) Hall)
    as (n & -> & Hn).
  destruct (Z.eqb_spec n 0); lia.
Qed.

Lemma parseIntOr_no_digit (v : jsstring) (dflt : Z) :
  List.forallb (fun c => negb (isDigit c)) v = true ->
  parseIntOr v dflt = dflt.
Proof.
  intros H. unfold parseIntOr. now rewrite parseInt_no_digit.
Qed.

(** The guard of [handleMinLMIAsChange] lets in the empty string and the
    strings of decimal digits, nothing else. *)
Lemma acceptsMinLMIAs_iff (v : jsstring) :
  ExplorerA.acceptsMinLMIAs v = List.forallb isDigit v.
Proof.
  unfold ExplorerA.acceptsMinLMIAs.
  rewrite RegexFacts.test_anchored_plus.
  destruct v as [|c v]; reflexivity.
Qed.

Lemma acceptsMinLMIAs_same (v : jsstring) :
  ExplorerB.acceptsMinLMIAs v = ExplorerA.acceptsMinLMIAs v.
Proof. reflexivity. Qed.

End ThresholdFacts.

(* ================================================================== *)
(** * The webhook: order of the checks *)
(* ================================================================== *)

Module WebhookFacts.

Import Webhook.

(** An invite among the effects means every earlier check passed. *)
Lemma invite_only_after_checks env provider req call result :
  In (InviteUserByEmail call result) (fst (handler env provider req)) ->
  method req = js "POST"
  /\ secretRejected (query_secret req) (KAJABI_WEBHOOK_SECRET env) = false
  /\ optTruthy (emailOf req) = true
  /\ provider call = result.
Proof.
  unfold handler, emailOf.
  destruct (str_eqb (method req) (js "POST")) eqn:Hm; simpl;
    [|intros []].
  destruct (secretRejected _ _) eqn:Hs; simpl; [intros []|].
  destruct (negb (optTruthy (VITE_SUPABASE_URL env))
            || negb (optTruthy (SUPABASE_SERVICE_ROLE_KEY env)))%bool;
    simpl; [intros [H|[]]; discriminate|].
  destruct (optTruthy match body req with
                      | Some b => email b | None => None end) eqn:He;
    simpl; [|intros []].
  apply str_eqb_eq in Hm.
  match goal with
  | |- context [provider ?c] => destruct (provider c) eqn:Hp
  end.
  - simpl. intros [H|[]]. inversion H; subst. auto.
  - destruct (isAlreadyRegistered error); simpl.
    + intros [H|[]]. inversion H; subst. auto.
    + intros [H|[H|[]]]; [|discriminate]. inversion H; subst. auto.
Qed.

(** ** C2 *)

(** C2: for a POST with the correct secret and an email in the body,
    when the invite operation of the identity provider returns an
    error whose message contains "already" or whose status is 422, the
    handler answers 200 with the message "User already exists,
    skipping invite". *)
Theorem C2_already_exists_is_success env provider req call err :
  method req = js "POST" ->
  secretRejected (query_secret req) (KAJABI_WEBHOOK_SECRET env) = false ->
  optTruthy (emailOf req) = true ->
  In (InviteUserByEmail call (Failed err)) (fst (handler env provider req)) ->
  includes (errMessage err) (js "already") = true
  \/ errStatus err = Some 422%Z ->
  snd (handler env provider req)
  = mkResponse 200 (JMessage (js "User already exists, skipping invite")).
Proof.
  intros Hm Hs He Hin Herr.
  assert (Hreg : isAlreadyRegistered err = true).
  { unfold isAlreadyRegistered. destruct Herr as [-> | ->];
      [reflexivity | apply orb_true_r]. }
  revert Hin. unfold handler. fold (emailOf req).
  rewrite Hm, str_eqb_refl, Hs, He. simpl negb. cbv iota.
  destruct (negb (optTruthy (VITE_SUPABASE_URL env))
            || negb (optTruthy (SUPABASE_SERVICE_ROLE_KEY env)))%bool;
    simpl; [intros [H|[]]; discriminate|].
  match goal with
  | |- context [provider ?c] => destruct (provider c) eqn:Hp
  end; simpl.
  - intros [H|[]]; discriminate.
  - destruct (isAlreadyRegistered error) eqn:Hreg'; simpl; [reflexivity|].
    intros [H|[H|[]]]; [|discriminate].
    inversion H; subst. congruence.
Qed.

Lemma C2_witness :
  snd (handler env0 (fun _ => Failed err0) post0)
  = mkResponse 200 (JMessage (js "User already exists, skipping invite")).
Proof.
  apply (@C2_already_exists_is_success env0 (fun _ => Failed err0) post0
           (mkInvite (js "https://db.example") (js "service-key")
                     (js "a@b.com") []
                     (js "https://lmia-search-ui.vercel.app"))
           err0).
  - reflexivity.
  - reflexivity.
  - reflexivity.
  - vm_compute. left. reflexivity.
  - left. reflexivity.
Defined.

(** ** C7 *)

Lemma not_post_405 env provider req :
  method req <> js "POST" ->
  handler env provider req
  = ([], mkResponse 405 (JError (js "Method not allowed"))).
Proof.
  intros Hm. unfold handler.
  apply str_eqb_neq in Hm. rewrite Hm. reflexivity.
Qed.

Lemma bad_secret_401 env provider req :
  method req = js "POST" ->
  secretRejected (query_secret req) (KAJABI_WEBHOOK_SECRET env) = true ->
  handler env provider req
  = ([], mkResponse 401 (JError (js "Unauthorized"))).
Proof.
  intros Hm Hs. unfold handler.
  rewrite Hm, str_eqb_refl, Hs. reflexivity.
Qed.

Lemma misconfigured_500 env provider req :
  method req = js "POST" ->
  secretRejected (query_secret req) (KAJABI_WEBHOOK_SECRET env) = false ->
  optTruthy (VITE_SUPABASE_URL env) = false
  \/ optTruthy (SUPABASE_SERVICE_ROLE_KEY env) = false ->
  handler env provider req
  = ([ConsoleError
        (js "Missing VITE_SUPABASE_URL or SUPABASE_SERVICE_ROLE_KEY")],
     mkResponse 500 (JError (js "Server misconfigured"))).
Proof.
  intros Hm Hs Hc. unfold handler.
  rewrite Hm, str_eqb_refl, Hs. simpl negb. cbv iota.
  destruct Hc as [-> | ->]; simpl; [reflexivity|].
  rewrite orb_true_r. reflexivity.
Qed.

Lemma no_email_400 env provider req :
  method req = js "POST" ->
  secretRejected (query_secret req) (KAJABI_WEBHOOK_SECRET env) = false ->
  optTruthy (VITE_SUPABASE_URL env) = true ->
  optTruthy (SUPABASE_SERVICE_ROLE_KEY env) = true ->
  optTruthy (emailOf req) = false ->
  handler env provider req
  = ([], mkResponse 400 (JError (js "Missing email in webhook payload"))).
Proof.
  intros Hm Hs Hu Hk He. unfold handler. fold (emailOf req).
  rewrite Hm, str_eqb_refl, Hs, Hu, Hk, He. reflexivity.
Qed.

(** C7, as the claim states it, fails: a POST with the correct secret and
    no email is answered 500, not 400, by a server that lacks the
    backing-store URL and the service key, because that check comes
    before the email check. *)
Lemma C7_counterexample :
  ~ (forall env provider req,
        method req = js "POST" ->
        secretRejected (query_secret req) (KAJABI_WEBHOOK_SECRET env) = false ->
        optTruthy (emailOf req) = false ->
        status (snd (handler env provider req)) = 400%Z).
Proof.
  intros H.
  specialize (H envNoStore (fun _ => Invited []) postNoEmail
                eq_refl eq_refl eq_refl).
  vm_compute in H. discriminate.
Qed.

(** C7 (amended): the handler checks in order.  A request whose method is
    not POST gets 405; a POST whose secret is missing or differs from the
    configured one gets 401; a POST with the correct secret and no email
    gets 400 when the backing-store URL and the service key are
    configured; and none of the three calls the identity provider. *)
Theorem C7_checks_in_order env provider req :
  (method req <> js "POST" ->
   status (snd (handler env provider req)) = 405%Z
   /\ noInvite (fst (handler env provider req)) = true)
  /\ (method req = js "POST" ->
      secretRejected (query_secret req) (KAJABI_WEBHOOK_SECRET env) = true ->
      status (snd (handler env provider req)) = 401%Z
      /\ noInvite (fst (handler env provider req)) = true)
  /\ (method req = js "POST" ->
      secretRejected (query_secret req) (KAJABI_WEBHOOK_SECRET env) = false ->
      optTruthy (VITE_SUPABASE_URL env) = true ->
      optTruthy (SUPABASE_SERVICE_ROLE_KEY env) = true ->
      optTruthy (emailOf req) = false ->
      status (snd (handler env provider req)) = 400%Z
      /\ noInvite (fst (handler env provider req)) = true).
Proof.
  split; [|split].
  - intros Hm. rewrite (not_post_405 env provider req Hm). split; reflexivity.
  - intros Hm Hs. rewrite (bad_secret_401 env provider req Hm Hs).
    split; reflexivity.
  - intros Hm Hs Hu Hk He.
    rewrite (no_email_400 env provider req Hm Hs Hu Hk He).
    split; reflexivity.
Qed.

Lemma C7_witness :
  (status (snd (handler env0 (fun _ => Invited []) get0)) = 405%Z
   /\ noInvite (fst (handler env0 (fun _ => Invited []) get0)) = true)
  /\ (status (snd (handler envNoSecret (fun _ => Invited []) post0)) = 401%Z
      /\ noInvite (fst (handler envNoSecret (fun _ => Invited []) post0))
         = true)
  /\ (status (snd (handler env0 (fun _ => Invited []) postNoEmail)) = 400%Z
      /\ noInvite (fst (handler env0 (fun _ => Invited []) postNoEmail))
         = true).
Proof.
  split; [|split].
  - apply (proj1 (C7_checks_in_order env0 (fun _ => Invited []) get0)).
    discriminate.
  - apply (proj1 (proj2 (C7_checks_in_order envNoSecret
                           (fun _ => Invited []) post0)));
      reflexivity.
  - apply (proj2 (proj2 (C7_checks_in_order env0
                           (fun _ => Invited []) postNoEmail)));
      reflexivity.
Defined.

(** ** C8 *)

(** The secret check passes exactly when the configured secret is a
    non-empty string and the query parameter is that same string. *)
Lemma secret_accepted_iff secret configured :
  secretRejected secret configured = false
  <-> exists v, v <> [] /\ configured = Some v /\ secret = QString v.
Proof.
  unfold secretRejected. split.
  - destruct secret as [|v|l]; try discriminate.
    destruct v as [|c v]; [discriminate|]. cbn [truthy negb orb].
    destruct configured as [w|]; [|discriminate].
    destruct (str_eqb (c :: v) w) eqn:E; [|discriminate].
    apply str_eqb_eq in E. subst w. intros _.
    exists (c :: v). repeat split. discriminate.
  - intros (v & Hv & -> & ->).
    destruct v as [|c v]; [congruence|].
    cbn [truthy negb orb]. rewrite str_eqb_refl. reflexivity.
Qed.

(** C8, as the claim states it, fails for requests that are not POST:
    with no shared secret configured a GET is answered 405, not 401. *)
Lemma C8_counterexample :
  ~ (forall env provider req,
        optTruthy (KAJABI_WEBHOOK_SECRET env) = false ->
        status (snd (handler env provider req)) = 401%Z).
Proof.
  intros H.
  specialize (H envNoSecret (fun _ => Invited []) get0 eq_refl).
  vm_compute in H. discriminate.
Qed.

(** C8 (amended): when the shared secret is not configured, or is empty,
    every POST request is answered 401 "Unauthorized", whatever secret it
    carries and whatever else is configured, and the provider is not
    called; a request passes the secret check only when the configured
    secret is a non-empty string and the query parameter equals it. *)
Theorem C8_unset_secret_rejects_posts env provider req :
  (optTruthy (KAJABI_WEBHOOK_SECRET env) = false ->
   method req = js "POST" ->
   handler env provider req
   = ([], mkResponse 401 (JError (js "Unauthorized"))))
  /\ (secretRejected (query_secret req) (KAJABI_WEBHOOK_SECRET env) = false ->
      exists v, v <> [] /\ KAJABI_WEBHOOK_SECRET env = Some v
                /\ query_secret req = QString v).
Proof.
  split.
  - intros Hc Hm. apply bad_secret_401; [assumption|].
    destruct (secretRejected (query_secret req) (KAJABI_WEBHOOK_SECRET env))
      eqn:Hs; [reflexivity|].
    apply secret_accepted_iff in Hs. destruct Hs as (v & Hv & Hcfg & _).
    rewrite Hcfg in Hc. destruct v; [congruence | discriminate].
  - apply secret_accepted_iff.
Qed.

Lemma C8_witness :
  handler envNoSecret (fun _ => Invited []) post0
  = ([], mkResponse 401 (JError (js "Unauthorized")))
  /\ exists v, v <> [] /\ KAJABI_WEBHOOK_SECRET env0 = Some v
               /\ query_secret post0 = QString v.
Proof.
  split.
  - apply (proj1 (C8_unset_secret_rejects_posts envNoSecret
                    (fun _ => Invited []) post0)); reflexivity.
  - apply (proj2 (C8_unset_secret_rejects_posts env0
                    (fun _ => Invited []) post0)); reflexivity.
Defined.

End WebhookFacts.

(* ================================================================== *)
(** * The local auth store: uniqueness of emails *)
(* ================================================================== *)

Module LocalAuthFacts.

Import LocalAuth.

(** A signup whose email matches a stored one, ignoring case, is refused
    and leaves the store as it was. *)
Lemma signup_rejects_match nm em pw st :
  List.existsb (fun u => sameEmail (email u) em) (users st) = true ->
  exists msg, signup nm em pw st = (Some msg, st).
Proof.
  intros H. unfold signup.
  destruct (negb (truthy (trim nm))); [eauto|].
  destruct (negb (truthy (trim em))); [eauto|].
  destruct (Nat.ltb (List.length pw) 6); [eauto|].
  rewrite H. eauto.
Qed.

(** A refused signup never changes the store; an accepted one appends
    one user whose email is the trimmed, lower-cased input. *)
Lemma signup_result nm em pw st :
  (exists msg, signup nm em pw st = (Some msg, st))
  \/ (signup nm em pw st
      = (None,
         mkStore (users st ++ [mkStored (trim nm) (toLowerCase (trim em)) pw])
                 (Some (mkUser (toLowerCase (trim em)) (trim nm))))
      /\ List.existsb (fun u => sameEmail (email u) em) (users st) = false).
Proof.
  unfold signup.
  destruct (negb (truthy (trim nm))); [eauto|].
  destruct (negb (truthy (trim em))); [eauto|].
  destruct (Nat.ltb (List.length pw) 6); [eauto|].
  destruct (List.existsb _ (users st)); [eauto|].
  right. split; reflexivity.
Qed.

Lemma lowerChar_idempotent c : lowerChar (lowerChar c) = lowerChar c.
Proof.
  unfold lowerChar at 2. unfold in_range, ch_eqb.
  destruct (N.leb_spec 65 c); destruct (N.leb_spec c 90);
    destruct (N.leb_spec 192 c); destruct (N.leb_spec c 222);
    destruct (N.eqb_spec c 215); destruct (N.eqb_spec c 928);
    cbn [andb negb]; try lia;
    unfold lowerChar, in_range, ch_eqb;
    repeat match goal with
           | |- context [N.leb ?a ?b] =>
               first [ replace (N.leb a b) with true
                         by (symmetry; apply N.leb_le; lia)
                     | replace (N.leb a b) with false
                         by (symmetry; apply N.leb_gt; lia) ]
           | |- context [N.eqb ?a ?b] =>
               first [ replace (N.eqb a b) with false
                         by (symmetry; apply N.eqb_neq; lia)
                     | replace (N.eqb a b) with true
                         by (symmetry; apply N.eqb_eq; lia) ]
           end; reflexivity.
Qed.

Lemma toLowerCase_idempotent s : toLowerCase (toLowerCase s) = toLowerCase s.
Proof.
  unfold toLowerCase. rewrite List.map_map. apply List.map_ext.
  intros c. apply lowerChar_idempotent.
Qed.

Lemma distinct_snoc l u :
  distinctEmails l = true ->
  List.existsb (fun w => sameEmail (email w) (email u)) l = false ->
  distinctEmails (l ++ [u]) = true.
Proof.
  induction l as [|x l IH]; intros Hd He; [reflexivity|].
  simpl in Hd, He. apply andb_true_iff in Hd. destruct Hd as [Hx Hd].
  apply orb_false_iff in He. destruct He as [Hxu He].
  simpl. rewrite List.existsb_app, (IH Hd He). simpl.
  apply negb_true_iff in Hx. now rewrite Hx, Hxu.
Qed.

(** Where the uniqueness does hold: as long as every email is submitted
    already trimmed, [signup] keeps the stored emails distinct. *)
Lemma signup_keeps_distinct_when_trimmed nm em pw st :
  trim em = em ->
  distinctEmails (users st) = true ->
  distinctEmails (users (snd (signup nm em pw st))) = true.
Proof.
  intros Ht Hd.
  destruct (signup_result nm em pw st) as [(msg & ->) | (-> & He)];
    [exact Hd|].
  cbn [snd users]. apply distinct_snoc; [exact Hd|].
  cbn [email]. rewrite Ht.
  rewrite <- He. clear. induction (users st) as [|u l IH]; [reflexivity|].
  simpl. rewrite IH. unfold sameEmail.
  now rewrite toLowerCase_idempotent.
Qed.

(** C10: the uniqueness the claim states fails on the code.  [signup]
    compares the email as typed with the stored emails, but stores the
    trimmed email: submitting "ann@x.com " (with a trailing space) twice
    to an empty store is accepted both times and leaves two stored users
    with the email "ann@x.com", both of which match a login lookup. *)
Theorem C10_duplicate_after_untrimmed_signup :
  fst (signup (js "Ann") annEmail (js "secret1") emptyStore) = None
  /\ fst (signup (js "Ann") annEmail (js "secret1") afterFirstSignup) = None
  /\ List.map email (users afterSecondSignup)
     = [js "ann@x.com"; js "ann@x.com"]
  /\ distinctEmails (users afterSecondSignup) = false
  /\ List.length (matching (js "ann@x.com") afterSecondSignup) = 2%nat.
Proof. vm_compute. repeat split. Qed.

End LocalAuthFacts.

(* ================================================================== *)
(** * Pagination *)
(* ================================================================== *)

Module PaginationFacts.

Section Slices.

Context {A : Type}.

Lemma firstn_plus (n m : nat) (l : list A) :
  List.firstn (n + m) l = List.firstn n l ++ List.firstn m (List.skipn n l).
Proof.
  revert l. induction n as [|n IH]; intros l; [reflexivity|].
  destruct l as [|x l]; simpl.
  - now rewrite List.firstn_nil.
  - now rewrite IH.
Qed.

(** With indices in order and not negative, [slice] is "skip, then
    take". *)
Lemma slice_skip_take (l : list A) (a b : Z) :
  (0 <= a <= b)%Z ->
  slice l a b = List.firstn (Z.to_nat (b - a)) (List.skipn (Z.to_nat a) l).
Proof.
  intros Hab. unfold slice.
  set (len := Z.of_nat (List.length l)).
  assert (Ha : (a <? 0)%Z = false) by (apply Z.ltb_ge; lia).
  assert (Hb : (b <? 0)%Z = false) by (apply Z.ltb_ge; lia).
  rewrite Ha, Hb.
  destruct (Z_lt_le_dec a len) as [Hlt|Hge].
  - rewrite (Z.min_l a len) by lia.
    destruct (Z_le_gt_dec b len) as [Hbl|Hbg].
    + now rewrite (Z.min_l b len) by lia.
    + rewrite (Z.min_r b len) by lia.
      rewrite !List.firstn_all2; try reflexivity;
        rewrite List.length_skipn; subst len; lia.
  - rewrite (Z.min_r a len), (Z.min_r b len) by lia.
    rewrite Z.sub_diag. simpl.
    rewrite (List.skipn_all2 l) by (subst len; lia).
    now rewrite List.firstn_nil.
Qed.

(** The first [n] windows of width [d] make up the first [n * d]
    elements. *)
Lemma windows_concat (l : list A) (d n : nat) :
  List.concat
    (List.map (fun i => List.firstn d (List.skipn (i * d) l)) (List.seq 0 n))
  = List.firstn (n * d) l.
Proof.
  induction n as [|n IH]; [reflexivity|].
  rewrite List.seq_S, List.map_app, List.concat_app, IH. simpl.
  rewrite List.app_nil_r.
  replace (d + n * d)%nat with (n * d + d)%nat by lia.
  now rewrite firstn_plus.
Qed.

(** Pages 1 to [n] of width [d], sliced as [paginatedData] does. *)
Lemma pages_concat (l : list A) (d : Z) (n : Z) :
  (0 < d)%Z ->
  List.concat
    (List.map (fun p => slice l ((p - 1) * d) ((p - 1) * d + d)) (pages n))
  = List.firstn (Z.to_nat n * Z.to_nat d) l.
Proof.
  intros Hd. unfold pages.
  rewrite <- windows_concat, <- List.seq_shift, !List.map_map.
  f_equal. apply List.map_ext_in. intros i _.
  rewrite slice_skip_take by nia.
  f_equal; [f_equal; lia|].
  f_equal. nia.
Qed.

End Slices.

Lemma ceilDiv_spec (n d : Z) :
  (0 < d)%Z ->
  ((ceilDiv n d - 1) * d < n <= ceilDiv n d * d)%Z.
Proof.
  intros Hd. unfold ceilDiv.
  pose proof (Z.div_mod (- n) d ltac:(lia)) as E.
  pose proof (Z.mod_pos_bound (- n) d Hd) as B.
  nia.
Qed.

Lemma ceilDiv_nonneg (n d : Z) :
  (0 < d)%Z -> (0 <= n)%Z -> (0 <= ceilDiv n d)%Z.
Proof.
  intros Hd Hn. pose proof (ceilDiv_spec n d Hd). nia.
Qed.

Lemma ceilDiv_zero (d : Z) : ceilDiv 0 d = 0%Z.
Proof. unfold ceilDiv. destruct d; reflexivity. Qed.

(** [filtered] does not look at the current page. *)
Lemma filteredA_page p s :
  ExplorerA.filtered (setCurrentPage p s) = ExplorerA.filtered s.
Proof. reflexivity. Qed.

Lemma filteredB_page p s :
  ExplorerB.filtered (setCurrentPage p s) = ExplorerB.filtered s.
Proof. reflexivity. Qed.

(** C4: for a positive page size, the slices of pages 1 to [totalPages],
    concatenated in order, are exactly the filtered list, in both
    explorers. *)
Theorem C4_pages_partition_filtered (s : State) :
  (0 < rowsPerPage s)%Z ->
  List.concat
    (List.map (fun p => ExplorerA.paginatedData (setCurrentPage p s))
              (pages (ExplorerA.totalPages s)))
  = ExplorerA.filtered s
  /\ List.concat
       (List.map (fun p => ExplorerB.paginatedData (setCurrentPage p s))
                 (pages (ExplorerB.totalPages s)))
     = ExplorerB.filtered s.
Proof.
  intros Hd. split.
  - unfold ExplorerA.paginatedData, ExplorerA.startIndex, ExplorerA.endIndex.
    cbn [currentPage rowsPerPage setCurrentPage].
    erewrite List.map_ext
      by (intros p; rewrite filteredA_page; reflexivity).
    rewrite pages_concat by assumption.
    apply List.firstn_all2.
    unfold ExplorerA.totalPages, ExplorerA.filteredLength.
    pose proof (ceilDiv_spec (Z.of_nat (List.length (ExplorerA.filtered s)))
                  (rowsPerPage s) Hd).
    nia.
  - unfold ExplorerB.paginatedData, ExplorerB.startIndex, ExplorerB.endIndex.
    cbn [currentPage rowsPerPage setCurrentPage].
    erewrite List.map_ext
      by (intros p; rewrite filteredB_page; reflexivity).
    rewrite pages_concat by assumption.
    apply List.firstn_all2.
    unfold ExplorerB.totalPages, ExplorerB.filteredLength.
    pose proof (ceilDiv_spec (Z.of_nat (List.length (ExplorerB.filtered s)))
                  (rowsPerPage s) Hd).
    pose proof (ceilDiv_nonneg (Z.of_nat (List.length (ExplorerB.filtered s)))
                  (rowsPerPage s) Hd ltac:(lia)).
    nia.
Qed.

Lemma C4_witness :
  List.concat
    (List.map (fun p => ExplorerA.paginatedData (setCurrentPage p sample))
              (pages (ExplorerA.totalPages sample)))
  = ExplorerA.filtered sample
  /\ List.concat
       (List.map (fun p => ExplorerB.paginatedData (setCurrentPage p sample))
                 (pages (ExplorerB.totalPages sample)))
     = ExplorerB.filtered sample.
Proof. apply (C4_pages_partition_filtered sample). reflexivity. Defined.

(** The page count of src/unnamed/part_004: the ceiling of the quotient,
    raised to 1 when nothing is left after filtering. *)
Lemma totalPagesA_spec (s : State) :
  (0 < rowsPerPage s)%Z ->
  (1 <= ExplorerA.totalPages s)%Z
  /\ (ExplorerA.filtered s = [] -> ExplorerA.totalPages s = 1%Z)
  /\ (ExplorerA.filtered s <> [] ->
      ExplorerA.totalPages s
      = ceilDiv (ExplorerA.filteredLength s) (rowsPerPage s))
  /\ ((ceilDiv (ExplorerA.filteredLength s) (rowsPerPage s) - 1)
        * rowsPerPage s
      < ExplorerA.filteredLength s
      <= ceilDiv (ExplorerA.filteredLength s) (rowsPerPage s)
         * rowsPerPage s)%Z.
Proof.
  intros Hd. unfold ExplorerA.totalPages.
  pose proof (ceilDiv_spec (ExplorerA.filteredLength s) (rowsPerPage s) Hd)
    as Hc.
  repeat split; try lia.
  - intros E. unfold ExplorerA.filteredLength. rewrite E. simpl.
    now rewrite ceilDiv_zero.
  - intros Hne. unfold ExplorerA.filteredLength in *.
    destruct (ExplorerA.filtered s) as [|r l]; [congruence|].
    simpl List.length in *. nia.
Qed.

(** C5: the page count of src/src/components/LMIAExplorer.tsx is the bare
    ceiling, so it is 0, not 1, when nothing is left after filtering;
    src/unnamed/part_004 gives 1 on the same state. *)
Theorem C5_empty_page_count :
  ExplorerB.filtered (initial []) = []
  /\ ExplorerB.totalPages (initial []) = 0%Z
  /\ ExplorerA.totalPages (initial []) = 1%Z
  /\ ExplorerB.filtered (setProvince (js "NU") sample) = []
  /\ ExplorerB.totalPages (setProvince (js "NU") sample) = 0%Z
  /\ ExplorerA.totalPages (setProvince (js "NU") sample) = 1%Z.
Proof. vm_compute. repeat split. Qed.

End PaginationFacts.

(* ================================================================== *)
(** * Filtering *)
(* ================================================================== *)

Module FilterFacts.

Import Criteria ThresholdFacts.

Local Open Scope Z_scope.

Lemma filter_length_le {A : Type} (f g : A -> bool) (l : list A) :
  (forall x, f x = true -> g x = true) ->
  (List.length (List.filter f l) <= List.length (List.filter g l))%nat.
Proof.
  intros Hfg. induction l as [|x l IH]; simpl; [lia|].
  destruct (f x) eqn:Ef.
  - rewrite (Hfg x Ef). simpl. lia.
  - destruct (g x); simpl; lia.
Qed.

(** The callbacks read the threshold cell only through its parsed
    value. *)
Lemma keepsA_threshold v w s r :
  parseIntOr v 1 = parseIntOr w 1 ->
  ExplorerA.keeps (setMinLMIAs v s) r = ExplorerA.keeps (setMinLMIAs w s) r.
Proof.
  intros E. unfold ExplorerA.keeps, ExplorerA.minLMIAsNum.
  cbn [minLMIAs setMinLMIAs province city stream employer]. now rewrite E.
Qed.

Lemma keepsB_threshold v w s r :
  parseIntOr v 1 = parseIntOr w 1 ->
  ExplorerB.keeps (setMinLMIAs v s) r = ExplorerB.keeps (setMinLMIAs w s) r.
Proof.
  intros E. unfold ExplorerB.keeps, ExplorerB.minLMIAsNum.
  cbn [minLMIAs setMinLMIAs province city stream employer noc].
  now rewrite E.
Qed.

(** A record that passes has at least the parsed threshold. *)
Lemma keepsA_count s r :
  ExplorerA.keeps s r = true ->
  ExplorerA.minLMIAsNum s <= orZero (PositiveLMIAs r).
Proof.
  unfold ExplorerA.keeps. intros H.
  repeat match type of H with
         | (if ?c then false else _) = true =>
             destruct c eqn:?; [discriminate|]
         end.
  match goal with E : (_ <? _) = false |- _ => apply Z.ltb_ge in E end.
  assumption.
Qed.

Lemma keepsB_count s r :
  ExplorerB.keeps s r = true ->
  ExplorerB.minLMIAsNum s <= orZero (PositiveLMIAs r).
Proof.
  unfold ExplorerB.keeps. intros H.
  repeat match type of H with
         | (if ?c then false else _) = true =>
             destruct c eqn:?; [discriminate|]
         end.
  match goal with E : (_ <? _) = false |- _ => apply Z.ltb_ge in E end.
  assumption.
Qed.

(** src/unnamed/part_004 filters as LMIAExplorer.tsx does with an empty
    NOC search. *)
Lemma filteredA_is_B_without_noc s :
  ExplorerA.filtered s = ExplorerB.filtered (setNoc [] s).
Proof.
  unfold ExplorerA.filtered, ExplorerB.filtered. cbn [rows setNoc].
  apply List.filter_ext. intros r.
  unfold ExplorerA.keeps, ExplorerB.keeps,
    ExplorerA.minLMIAsNum, ExplorerB.minLMIAsNum.
  cbn [province city stream employer minLMIAs noc setNoc trim trimStart
       trimEnd dropWhile rev truthy].
  repeat match goal with
         | |- (if ?c then false else _) = (if ?c then false else _) =>
             destruct c; [reflexivity|]
         end.
  reflexivity.
Qed.

(** ** C1 *)

(** C1: with the threshold input "0" both explorers keep exactly the
    records they keep with "1"; the parsed threshold of "0", of the empty
    string and of any string without a decimal digit is 1; and a record
    kept under "0" has an approval count of at least 1. *)
Theorem C1_threshold_zero_behaves_as_one (s : State) :
  ExplorerA.filtered (setMinLMIAs (js "0") s)
  = ExplorerA.filtered (setMinLMIAs (js "1") s)
  /\ ExplorerB.filtered (setMinLMIAs (js "0") s)
     = ExplorerB.filtered (setMinLMIAs (js "1") s)
  /\ parseIntOr (js "0") 1 = 1
  /\ parseIntOr [] 1 = 1
  /\ (forall v, List.forallb (fun c => negb (isDigit c)) v = true ->
                parseIntOr v 1 = 1)
  /\ (forall r, In r (ExplorerA.filtered (setMinLMIAs (js "0") s)) ->
                1 <= orZero (PositiveLMIAs r))
  /\ (forall r, In r (ExplorerB.filtered (setMinLMIAs (js "0") s)) ->
                1 <= orZero (PositiveLMIAs r)).
Proof.
  split; [|split; [|split; [|split; [|split; [|split]]]]].
  - unfold ExplorerA.filtered. cbn [rows setMinLMIAs].
    apply List.filter_ext. intros r. now apply keepsA_threshold.
  - unfold ExplorerB.filtered. cbn [rows setMinLMIAs].
    apply List.filter_ext. intros r. now apply keepsB_threshold.
  - reflexivity.
  - reflexivity.
  - intros v Hv. now apply parseIntOr_no_digit.
  - intros r Hin. apply List.filter_In in Hin. destruct Hin as [_ Hk].
    apply keepsA_count in Hk. exact Hk.
  - intros r Hin. apply List.filter_In in Hin. destruct Hin as [_ Hk].
    apply keepsB_count in Hk. exact Hk.
Qed.

Lemma C1_witness :
  parseIntOr (js "abc") 1 = 1
  /\ 1 <= orZero (PositiveLMIAs rec1)
  /\ 1 <= orZero (PositiveLMIAs rec2).
Proof.
  pose proof (C1_threshold_zero_behaves_as_one sample)
    as (_ & _ & _ & _ & Hnan & HA & HB).
  split; [|split].
  - apply Hnan. reflexivity.
  - apply HA. vm_compute. left. reflexivity.
  - apply HB. vm_compute. right. left. reflexivity.
Defined.

(** ** C6 *)

Lemma setMinLMIAs_same s : setMinLMIAs (minLMIAs s) s = s.
Proof. destruct s; reflexivity. Qed.

(** Peel the tests of a passing record off the hypothesis, then replay
    them in the goal. *)
Ltac replay_tests Hk :=
  repeat match type of Hk with
         | (if ?c then false else _) = true =>
             let E := fresh "E" in destruct c eqn:E; [discriminate|]
         end;
  repeat match goal with
         | E : ?c = false |- context [if ?c then _ else _] => rewrite E
         end;
  try reflexivity; try assumption.

Lemma keepsA_threshold_mono v w s r :
  parseIntOr w 1 <= parseIntOr v 1 ->
  ExplorerA.keeps (setMinLMIAs v s) r = true ->
  ExplorerA.keeps (setMinLMIAs w s) r = true.
Proof.
  unfold ExplorerA.keeps, ExplorerA.minLMIAsNum.
  cbn [minLMIAs setMinLMIAs province city stream employer].
  intros Hle Hk.
  destruct (orZero (PositiveLMIAs r) <? parseIntOr v 1) eqn:Ev.
  - exfalso.
    repeat match type of Hk with
           | (if ?c then _ else _) = true => destruct c
           end; discriminate.
  - assert (Ew : (orZero (PositiveLMIAs r) <? parseIntOr w 1) = false)
      by (apply Z.ltb_ge; apply Z.ltb_ge in Ev; lia).
    rewrite Ew. exact Hk.
Qed.

Lemma keepsB_threshold_mono v w s r :
  parseIntOr w 1 <= parseIntOr v 1 ->
  ExplorerB.keeps (setMinLMIAs v s) r = true ->
  ExplorerB.keeps (setMinLMIAs w s) r = true.
Proof.
  unfold ExplorerB.keeps, ExplorerB.minLMIAsNum.
  cbn [minLMIAs setMinLMIAs province city stream employer noc].
  intros Hle Hk.
  destruct (orZero (PositiveLMIAs r) <? parseIntOr v 1) eqn:Ev.
  - exfalso.
    repeat match type of Hk with
           | (if ?c then _ else _) = true => destruct c
           end; discriminate.
  - assert (Ew : (orZero (PositiveLMIAs r) <? parseIntOr w 1) = false)
      by (apply Z.ltb_ge; apply Z.ltb_ge in Ev; lia).
    rewrite Ew. exact Hk.
Qed.

Lemma inactive_threshold s :
  minLMIAs s = js "1" \/ minLMIAs s = [] -> parseIntOr (minLMIAs s) 1 = 1.
Proof. intros [-> | ->]; reflexivity. Qed.

(** A record that passes after a criterion was switched on passed
    before. *)
Lemma activates_keepsA s s' r :
  activates s s' ->
  ExplorerA.keeps s' r = true -> ExplorerA.keeps s r = true.
Proof.
  intros Hact. destruct Hact as [s v H|s v H|s v H|s v H|s v H|s v H Hv];
    try solve [unfold ExplorerA.keeps, ExplorerA.minLMIAsNum;
               cbn [minLMIAs province city stream employer noc
                    setEmployer setProvince setCity setNoc setStream];
               rewrite ?H;
               cbn [trim trimStart trimEnd dropWhile rev truthy];
               rewrite ?str_eqb_refl; cbn [negb andb];
               intros Hk; replay_tests Hk].
  intros Hk. rewrite <- (setMinLMIAs_same s).
  apply (keepsA_threshold_mono v); [|exact Hk].
  rewrite (inactive_threshold s H).
  apply parseIntOr_digits. now rewrite <- acceptsMinLMIAs_iff.
Qed.

Lemma activates_keepsB s s' r :
  activates s s' ->
  ExplorerB.keeps s' r = true -> ExplorerB.keeps s r = true.
Proof.
  intros Hact. destruct Hact as [s v H|s v H|s v H|s v H|s v H|s v H Hv];
    try solve [unfold ExplorerB.keeps, ExplorerB.minLMIAsNum;
               cbn [minLMIAs province city stream employer noc
                    setEmployer setProvince setCity setNoc setStream];
               rewrite ?H;
               cbn [trim trimStart trimEnd dropWhile rev truthy];
               rewrite ?str_eqb_refl; cbn [negb andb];
               intros Hk; replay_tests Hk].
  intros Hk. rewrite <- (setMinLMIAs_same s).
  apply (keepsB_threshold_mono v); [|exact Hk].
  rewrite (inactive_threshold s H).
  apply parseIntOr_digits. now rewrite <- acceptsMinLMIAs_iff.
Qed.

Lemma activates_rows s s' : activates s s' -> rows s' = rows s.
Proof. intros H; destruct H; reflexivity. Qed.

(** C6: switching on one inactive criterion, the others unchanged, never
    lets more records through, in either explorer. *)
Theorem C6_filtering_monotone (s s' : State) :
  activates s s' ->
  (List.length (ExplorerA.filtered s') <= List.length (ExplorerA.filtered s)
   /\ List.length (ExplorerB.filtered s')
      <= List.length (ExplorerB.filtered s))%nat.
Proof.
  intros Hact. unfold ExplorerA.filtered, ExplorerB.filtered.
  rewrite (activates_rows s s' Hact). split.
  - apply filter_length_le. intros r. now apply (activates_keepsA s s').
  - apply filter_length_le. intros r. now apply (activates_keepsB s s').
Qed.

Lemma C6_witness :
  (List.length (ExplorerA.filtered (setMinLMIAs (js "3") sample))
   <= List.length (ExplorerA.filtered sample)
   /\ List.length (ExplorerB.filtered (setMinLMIAs (js "3") sample))
      <= List.length (ExplorerB.filtered sample))%nat.
Proof.
  apply (C6_filtering_monotone sample (setMinLMIAs (js "3") sample)).
  apply act_minLMIAs; [left|]; reflexivity.
Defined.

End FilterFacts.

(* ================================================================== *)
(** * The threshold cell across events *)
(* ================================================================== *)

Module StateFacts.

Import ThresholdFacts.

Lemma handleA_keeps_threshold e s :
  thresholdOk s -> thresholdOk (ExplorerA.handle e s).
Proof.
  unfold thresholdOk. intros H. destruct e; try exact H; try reflexivity.
  cbn [ExplorerA.handle]. unfold ExplorerA.handleMinLMIAsChange.
  destruct (ExplorerA.acceptsMinLMIAs v) eqn:E; [|exact H].
  cbn [minLMIAs setMinLMIAs setCurrentPage].
  now rewrite <- acceptsMinLMIAs_iff.
Qed.

Lemma handleB_keeps_threshold e s :
  thresholdOk s -> thresholdOk (ExplorerB.handle e s).
Proof.
  unfold thresholdOk. intros H. destruct e; try exact H; try reflexivity.
  cbn [ExplorerB.handle]. unfold ExplorerB.handleMinLMIAsChange.
  destruct (ExplorerB.acceptsMinLMIAs v) eqn:E; [|exact H].
  cbn [minLMIAs setMinLMIAs setCurrentPage].
  now rewrite <- acceptsMinLMIAs_iff, <- acceptsMinLMIAs_same.
Qed.

Lemma stepA_keeps_threshold e s :
  thresholdOk s -> thresholdOk (ExplorerA.step s e).
Proof.
  intros H. unfold ExplorerA.step.
  pose proof (handleA_keeps_threshold e s H) as H'.
  destruct (filtersChanged false s (ExplorerA.handle e s)); exact H'.
Qed.

Lemma stepB_keeps_threshold e s :
  thresholdOk s -> thresholdOk (ExplorerB.step s e).
Proof.
  intros H. unfold ExplorerB.step.
  pose proof (handleB_keeps_threshold e s H) as H'.
  destruct (filtersChanged true s (ExplorerB.handle e s)); exact H'.
Qed.

Lemma runA_keeps_threshold es :
  forall s, thresholdOk s -> thresholdOk (ExplorerA.run s es).
Proof.
  induction es as [|e es IH]; intros s H; [exact H|].
  apply IH. now apply stepA_keeps_threshold.
Qed.

Lemma runB_keeps_threshold es :
  forall s, thresholdOk s -> thresholdOk (ExplorerB.run s es).
Proof.
  induction es as [|e es IH]; intros s H; [exact H|].
  apply IH. now apply stepB_keeps_threshold.
Qed.

(** An event leaves the page at 1 whenever its handler did. *)
Lemma stepA_page_one e s :
  currentPage (ExplorerA.handle e s) = 1%Z ->
  currentPage (ExplorerA.step s e) = 1%Z.
Proof.
  intros H. unfold ExplorerA.step.
  destruct (filtersChanged false s (ExplorerA.handle e s)); [reflexivity|].
  exact H.
Qed.

Lemma stepB_page_one e s :
  currentPage (ExplorerB.handle e s) = 1%Z ->
  currentPage (ExplorerB.step s e) = 1%Z.
Proof.
  intros H. unfold ExplorerB.step.
  destruct (filtersChanged true s (ExplorerB.handle e s)); [reflexivity|].
  exact H.
Qed.

(** C9: from the initial state, after any sequence of events, the
    threshold cell of either explorer is empty or made of decimal digits
    only.  The change handler accepts a value exactly when it is empty or
    made of decimal digits only; an accepted value is stored and the page
    is set to 1, and is still 1 after the render that follows; a refused
    value changes nothing. *)
Theorem C9_threshold_invariant (loaded : list LMIARecord) (es : list Event)
        (v : jsstring) (s : State) :
  List.forallb isDigit (minLMIAs (ExplorerA.run (initial loaded) es)) = true
  /\ List.forallb isDigit (minLMIAs (ExplorerB.run (initial loaded) es)) = true
  /\ ExplorerA.acceptsMinLMIAs v = List.forallb isDigit v
  /\ ExplorerB.acceptsMinLMIAs v = List.forallb isDigit v
  /\ (List.forallb isDigit v = true ->
      ExplorerA.handleMinLMIAsChange v s
      = setCurrentPage 1 (setMinLMIAs v s)
      /\ currentPage (ExplorerA.step s (MinLMIAsInput v)) = 1%Z
      /\ ExplorerB.handleMinLMIAsChange v s
         = setCurrentPage 1 (setMinLMIAs v s)
      /\ currentPage (ExplorerB.step s (MinLMIAsInput v)) = 1%Z)
  /\ (List.forallb isDigit v = false ->
      ExplorerA.handleMinLMIAsChange v s = s
      /\ ExplorerB.handleMinLMIAsChange v s = s).
Proof.
  split; [|split; [|split; [|split; [|split]]]].
  - apply runA_keeps_threshold. reflexivity.
  - apply runB_keeps_threshold. reflexivity.
  - apply acceptsMinLMIAs_iff.
  - rewrite acceptsMinLMIAs_same. apply acceptsMinLMIAs_iff.
  - intros Hv.
    assert (EA : ExplorerA.handleMinLMIAsChange v s
                 = setCurrentPage 1 (setMinLMIAs v s)).
    { unfold ExplorerA.handleMinLMIAsChange.
      now rewrite acceptsMinLMIAs_iff, Hv. }
    assert (EB : ExplorerB.handleMinLMIAsChange v s
                 = setCurrentPage 1 (setMinLMIAs v s)).
    { unfold ExplorerB.handleMinLMIAsChange.
      now rewrite acceptsMinLMIAs_same, acceptsMinLMIAs_iff, Hv. }
    repeat split; try assumption.
    + apply stepA_page_one. cbn [ExplorerA.handle]. now rewrite EA.
    + apply stepB_page_one. cbn [ExplorerB.handle]. now rewrite EB.
  - intros Hv. split.
    + unfold ExplorerA.handleMinLMIAsChange.
      now rewrite acceptsMinLMIAs_iff, Hv.
    + unfold ExplorerB.handleMinLMIAsChange.
      now rewrite acceptsMinLMIAs_same, acceptsMinLMIAs_iff, Hv.
Qed.

Lemma C9_witness :
  (ExplorerA.handleMinLMIAsChange (js "25") sample
   = setCurrentPage 1 (setMinLMIAs (js "25") sample)
   /\ currentPage (ExplorerA.step sample (MinLMIAsInput (js "25"))) = 1%Z
   /\ ExplorerB.handleMinLMIAsChange (js "25") sample
      = setCurrentPage 1 (setMinLMIAs (js "25") sample)
   /\ currentPage (ExplorerB.step sample (MinLMIAsInput (js "25"))) = 1%Z)
  /\ (ExplorerA.handleMinLMIAsChange (js "-5") sample = sample
      /\ ExplorerB.handleMinLMIAsChange (js "-5") sample = sample).
Proof.
  split.
  - apply (proj1 (proj2 (proj2 (proj2 (proj2
             (C9_threshold_invariant [] [] (js "25") sample)))))).
    reflexivity.
  - apply (proj2 (proj2 (proj2 (proj2 (proj2
             (C9_threshold_invariant [] [] (js "-5") sample)))))).
    reflexivity.
Defined.

End StateFacts.

(* ================================================================== *)
(** * City-name normalisation *)
(* ================================================================== *)

Module NormalizeFacts.

Import City.

Local Open Scope N_scope.

(** ** Splitting and joining *)

Lemma split_not_nil sep s : split sep s <> [].
Proof.
  destruct s as [|c s]; simpl; [discriminate|].
  destruct (ch_eqb c sep); [discriminate|].
  destruct (split sep s); discriminate.
Qed.

Lemma join_cons sep w ws :
  ws <> [] -> join sep (w :: ws) = w ++ sep :: join sep ws.
Proof. destruct ws; [congruence | reflexivity]. Qed.

Lemma join_app_head sep x w ws :
  join sep ((x ++ w) :: ws) = x ++ join sep (w :: ws).
Proof.
  destruct ws as [|w' ws]; simpl; [reflexivity|].
  now rewrite <- List.app_assoc.
Qed.

Lemma join_split sep s : join sep (split sep s) = s.
Proof.
  induction s as [|c s IH]; [reflexivity|].
  simpl. destruct (ch_eqb c sep) eqn:E.
  - apply ch_eqb_eq in E. subst c.
    rewrite join_cons by apply split_not_nil.
    now rewrite IH.
  - destruct (split sep s) as [|w ws] eqn:Es.
    + exfalso. now apply (split_not_nil sep s).
    + change (c :: w) with ([c] ++ w). rewrite join_app_head.
      now rewrite IH.
Qed.

Lemma map_not_nil {A B : Type} (f : A -> B) (l : list A) :
  l <> [] -> List.map f l <> [].
Proof. destruct l; [congruence | discriminate]. Qed.

(** ** The word callback only upper-cases the first code unit *)

Lemma capitalize_cons c r : capitalize (c :: r) = upperChar c ++ r.
Proof.
  unfold capitalize, toUpperCase. simpl. now rewrite List.app_nil_r.
Qed.

Lemma mapi_from_later {A : Type} (g : A -> A) (i : nat) (l : list A) :
  mapi_from (S i) (fun x j => match j with O => g x | S _ => x end) l = l.
Proof.
  revert i. induction l as [|x l IH]; intros i; simpl; [reflexivity|].
  now rewrite IH.
Qed.

Lemma apostrophe_branch word :
  (let parts := split 39 word in
   if Nat.ltb 1 (List.length parts) then
     join 39
       (mapi_from 0
          (fun part i => match i with O => capitalize part | S _ => part end)
          parts)
   else capitalize word)
  = capitalize word.
Proof.
  cbv zeta. destruct word as [|c r]; [reflexivity|].
  cbn [split]. destruct (ch_eqb c 39) eqn:E.
  - apply ch_eqb_eq in E. subst c.
    destruct (split 39 r) as [|p ps] eqn:Es;
      [exfalso; now apply (split_not_nil 39 r)|].
    cbn [List.length Nat.ltb Nat.leb mapi_from].
    rewrite mapi_from_later, <- Es.
    rewrite join_cons by apply split_not_nil.
    rewrite join_split. reflexivity.
  - destruct (split 39 r) as [|p ps] eqn:Es;
      [exfalso; now apply (split_not_nil 39 r)|].
    destruct ps as [|p' ps].
    + reflexivity.
    + cbn [List.length Nat.ltb Nat.leb mapi_from].
      rewrite mapi_from_later, !capitalize_cons, join_app_head.
      rewrite <- Es, join_split. reflexivity.
Qed.

Lemma titleWord_capitalize word : titleWord word = capitalize word.
Proof.
  unfold titleWord.
  destruct (str_eqb word (js "st")) eqn:E1;
    [apply str_eqb_eq in E1; now subst|].
  destruct (str_eqb word (js "ste")) eqn:E2;
    [apply str_eqb_eq in E2; now subst|].
  destruct (str_eqb word (js "mt")) eqn:E3;
    [apply str_eqb_eq in E3; now subst|].
  destruct (str_eqb word (js "ft")) eqn:E4;
    [apply str_eqb_eq in E4; now subst|].
  apply apostrophe_branch.
Qed.

(** Splitting at spaces, capitalising and joining again is one pass of
    [titleFrom]. *)
Lemma title_pass b s :
  titleFrom b s
  = join 32 match split 32 s with
            | w :: ws =>
                (if b then capitalize w else w) :: List.map capitalize ws
            | [] => []
            end.
Proof.
  revert b. induction s as [|c r IH]; intros b.
  - destruct b; reflexivity.
  - cbn [titleFrom split]. destruct (ch_eqb c 32) eqn:E.
    + apply ch_eqb_eq in E. subst c.
      rewrite join_cons by (apply map_not_nil, split_not_nil).
      rewrite (IH true).
      destruct (split 32 r) as [|w ws] eqn:Es;
        [exfalso; now apply (split_not_nil 32 r)|].
      destruct b; reflexivity.
    + rewrite (IH false).
      destruct (split 32 r) as [|w ws] eqn:Es;
        [exfalso; now apply (split_not_nil 32 r)|].
      destruct b.
      * now rewrite capitalize_cons, join_app_head.
      * change (c :: w) with ([c] ++ w). now rewrite join_app_head.
Qed.

Lemma title_words s :
  join 32 (List.map titleWord (split 32 s)) = titleFrom true s.
Proof.
  rewrite title_pass.
  rewrite (List.map_ext titleWord capitalize titleWord_capitalize).
  destruct (split 32 s); reflexivity.
Qed.

(** ** Trimming *)

Lemma headOk_fixed s : headOk s = true -> dropWhile isWhiteSpace s = s.
Proof.
  destruct s as [|c s]; [reflexivity|]. simpl. intros H.
  apply negb_true_iff in H. now rewrite H.
Qed.

Lemma dropWhile_headOk s : headOk (dropWhile isWhiteSpace s) = true.
Proof.
  induction s as [|c s IH]; [reflexivity|]. simpl.
  destruct (isWhiteSpace c) eqn:E; [exact IH|]. simpl. now rewrite E.
Qed.

Lemma headOk_app a b : a <> [] -> headOk (a ++ b) = headOk a.
Proof. destruct a; [congruence | reflexivity]. Qed.

Lemma headOk_rev s : headOk (rev s) = lastOk s.
Proof.
  induction s as [|x s IH]; [reflexivity|].
  destruct s as [|y s']; [reflexivity|].
  change (lastOk (x :: y :: s')) with (lastOk (y :: s')).
  rewrite <- IH. change (rev (x :: y :: s')) with (rev (y :: s') ++ [x]).
  apply headOk_app. simpl. destruct (rev s'); discriminate.
Qed.

Lemma dropWhile_keeps_last a x :
  isWhiteSpace x = false ->
  dropWhile isWhiteSpace (a ++ [x]) = dropWhile isWhiteSpace a ++ [x].
Proof.
  intros Hx. induction a as [|c a IH]; simpl.
  - now rewrite Hx.
  - destruct (isWhiteSpace c); [exact IH | reflexivity].
Qed.

Lemma trimEnd_headOk s : headOk s = true -> headOk (trimEnd s) = true.
Proof.
  destruct s as [|x s]; [reflexivity|]. simpl. intros Hx.
  apply negb_true_iff in Hx. unfold trimEnd. simpl rev.
  rewrite dropWhile_keeps_last by exact Hx.
  rewrite List.rev_app_distr. simpl. now rewrite Hx.
Qed.

Lemma trim_headOk s : headOk (trim s) = true.
Proof. unfold trim, trimStart. apply trimEnd_headOk, dropWhile_headOk. Qed.

Lemma trim_lastOk s : lastOk (trim s) = true.
Proof.
  rewrite <- headOk_rev. unfold trim, trimEnd.
  rewrite List.rev_involutive. apply dropWhile_headOk.
Qed.

Lemma trim_fixed s : headOk s = true -> lastOk s = true -> trim s = s.
Proof.
  intros Hh Hl. unfold trim, trimStart, trimEnd.
  rewrite (headOk_fixed s Hh).
  rewrite headOk_fixed by now rewrite headOk_rev.
  apply List.rev_involutive.
Qed.

(** ** Code units of the class *)

Lemma enumRange_complete lo hi x :
  in_range lo hi x = true -> In x (enumRange lo hi).
Proof.
  intros H. apply in_range_spec in H. unfold enumRange.
  apply List.in_map_iff. exists (N.to_nat x). split; [apply N2Nat.id|].
  apply List.in_seq. lia.
Qed.

(** Find a literal in a literal list. *)
Ltac in_literals := vm_compute; repeat (first [left; reflexivity | right]).

Lemma whiteSpaceEnum_complete x :
  isWhiteSpace x = true -> In x whiteSpaceEnum.
Proof.
  unfold isWhiteSpace. intros H.
  repeat (apply orb_true_iff in H; destruct H as [H|H]);
    try (apply ch_eqb_eq in H; subst x; in_literals).
  - apply enumRange_complete in H. unfold whiteSpaceEnum.
    apply List.in_or_app. left. exact H.
  - apply enumRange_complete in H. unfold whiteSpaceEnum.
    do 2 (apply List.in_or_app; right). apply List.in_or_app. left. exact H.
Qed.

Lemma cityClassEnum_complete accented x :
  cityClass accented x = true -> In x (cityClassEnum accented).
Proof.
  unfold cityClass, cityClassEnum. intros H.
  remember (isWhiteSpace x) as w eqn:Ew.
  repeat (apply orb_true_iff in H; destruct H as [H|H]).
  - apply enumRange_complete in H. apply List.in_or_app. left. exact H.
  - apply enumRange_complete in H.
    apply List.in_or_app. right. apply List.in_or_app. left. exact H.
  - subst w. apply whiteSpaceEnum_complete in H.
    do 2 (apply List.in_or_app; right). apply List.in_or_app. left. exact H.
  - apply ch_eqb_eq in H. subst x.
    do 3 (apply List.in_or_app; right). simpl. tauto.
  - apply ch_eqb_eq in H. subst x.
    do 3 (apply List.in_or_app; right). simpl. tauto.
  - unfold oneOf in H. apply List.existsb_exists in H.
    destruct H as (y & Hy & E). apply ch_eqb_eq in E. subst y.
    do 3 (apply List.in_or_app; right). simpl. tauto.
Qed.

(** What [caseRegular] says, spelled out. *)
Lemma caseRegular_spec x :
  caseRegular x = true ->
  exists u,
    upperChar (lowerChar x) = [u]
    /\ lowerChar u = lowerChar x
    /\ lowerChar (lowerChar x) = lowerChar x
    /\ isWhiteSpace u = isWhiteSpace x
    /\ isWhiteSpace (lowerChar x) = isWhiteSpace x
    /\ in_range 97 122 u = false
    /\ ch_eqb u 95 = false.
Proof.
  unfold caseRegular.
  destruct (upperChar (lowerChar x)) as [|u [|v r]]; try discriminate.
  intros H. repeat (apply andb_true_iff in H; destruct H as [H ?]).
  exists u. apply ch_eqb_eq in H.
  repeat match goal with
         | E : ch_eqb _ _ = true |- _ => apply ch_eqb_eq in E
         | E : Bool.eqb _ _ = true |- _ => apply Bool.eqb_prop in E
         | E : negb _ = true |- _ =>
             apply negb_true_iff, orb_false_iff in E; destruct E
         end.
  repeat split; assumption.
Qed.

(** ** Normalising a normalised name *)

Lemma assoc_in table k v : assoc table k = Some v -> In (k, v) table.
Proof.
  induction table as [|[k' v'] t IH]; simpl; [discriminate|].
  destruct (str_eqb k k') eqn:E.
  - apply str_eqb_eq in E. subst k'. intros H. injection H as ->. now left.
  - intros H. right. now apply IH.
Qed.

Section Idempotence.

Variable cls : char -> bool.
Variable table : list (jsstring * jsstring).

Hypothesis cls_regular : forall x, cls x = true -> caseRegular x = true.
Hypothesis table_ok : tableOk cls table = true.

Lemma normalize_unfold city :
  normalizeCityNameWith table city
  = match lookup table (trim city) with
    | Own v =>
        Some (titleFrom true
                (toLowerCase (if truthy v then v else trim city)))
    | Inherited => None
    | Undefined => Some (titleFrom true (toLowerCase (trim city)))
    end.
Proof.
  unfold normalizeCityNameWith.
  destruct (lookup table (trim city)) as [v| |];
    [destruct (truthy v)| |]; now rewrite ?title_words.
Qed.

Lemma lower_title b s :
  List.forallb cls s = true ->
  toLowerCase (titleFrom b (toLowerCase s)) = toLowerCase s.
Proof.
  revert b. induction s as [|x s IH]; intros b H; [reflexivity|].
  simpl in H. apply andb_true_iff in H. destruct H as [Hx Hs].
  destruct (caseRegular_spec x (cls_regular x Hx))
    as (u & Eu & Elu & Ell & _).
  cbn [toLowerCase List.map titleFrom]. fold (toLowerCase s).
  destruct b.
  - rewrite Eu. cbn [List.app]. unfold toLowerCase at 1.
    cbn [List.map]. fold (toLowerCase (titleFrom (ch_eqb (lowerChar x) 32)
                                               (toLowerCase s))).
    now rewrite Elu, IH.
  - cbn [List.app]. unfold toLowerCase at 1.
    cbn [List.map]. fold (toLowerCase (titleFrom (ch_eqb (lowerChar x) 32)
                                               (toLowerCase s))).
    now rewrite Ell, IH.
Qed.

Lemma title_headOk s :
  List.forallb cls s = true -> headOk s = true ->
  headOk (titleFrom true (toLowerCase s)) = true.
Proof.
  destruct s as [|x s]; [reflexivity|]. simpl List.forallb.
  intros H Hh. apply andb_true_iff in H. destruct H as [Hx _].
  destruct (caseRegular_spec x (cls_regular x Hx))
    as (u & Eu & _ & _ & Ews & _).
  cbn [toLowerCase List.map titleFrom]. rewrite Eu. simpl.
  simpl in Hh. now rewrite Ews.
Qed.

Lemma title_not_nil b s : s <> [] -> titleFrom b (toLowerCase s) <> [].
Proof.
  destruct s as [|x s]; [congruence|]. intros _.
  cbn [toLowerCase List.map titleFrom]. intros E.
  apply List.app_eq_nil in E. destruct E as [E _].
  destruct b; [|discriminate].
  unfold upperChar in E.
  repeat match type of E with
         | (if ?c then _ else _) = [] => destruct c
         end; discriminate.
Qed.

Lemma title_lastOk b s :
  List.forallb cls s = true -> lastOk s = true ->
  lastOk (titleFrom b (toLowerCase s)) = true.
Proof.
  revert b. induction s as [|x s IH]; intros b H Hl; [reflexivity|].
  simpl in H. apply andb_true_iff in H. destruct H as [Hx Hs].
  destruct (caseRegular_spec x (cls_regular x Hx))
    as (u & Eu & _ & _ & Ews & Ewl & _).
  cbn [toLowerCase List.map titleFrom]. fold (toLowerCase s).
  assert (E : exists y,
             (if b then upperChar (lowerChar x) else [lowerChar x]) = [y]
             /\ isWhiteSpace y = isWhiteSpace x).
  { destruct b; [exists u | exists (lowerChar x)]; now rewrite ?Eu. }
  destruct E as (y & -> & Ey). cbn [List.app].
  destruct s as [|x' s'].
  - simpl. simpl in Hl. now rewrite Ey.
  - pose proof (title_not_nil (ch_eqb (lowerChar x) 32) (x' :: s')
                  ltac:(discriminate)) as Hne.
    destruct (titleFrom (ch_eqb (lowerChar x) 32) (toLowerCase (x' :: s')))
      as [|z t] eqn:Et; [congruence|].
    change (lastOk (y :: z :: t)) with (lastOk (z :: t)).
    rewrite <- Et. apply IH; assumption.
Qed.

(** The first code unit of a title-cased name is not a lower-case
    ASCII letter or an underscore, so the name is none of the members
    inherited from [Object.prototype]. *)
Lemma title_not_inherited s :
  List.forallb cls s = true -> s <> [] ->
  List.existsb (str_eqb (titleFrom true (toLowerCase s)))
               objectPrototypeKeys = false.
Proof.
  destruct s as [|x s]; [congruence|]. intros H _.
  simpl in H. apply andb_true_iff in H. destruct H as [Hx _].
  destruct (caseRegular_spec x (cls_regular x Hx))
    as (u & Eu & _ & _ & _ & _ & Hlow & Hund).
  cbn [toLowerCase List.map titleFrom]. rewrite Eu. cbn [List.app].
  destruct (List.existsb _ objectPrototypeKeys) eqn:E; [|reflexivity].
  exfalso. apply List.existsb_exists in E. destruct E as (k & Hk & Ek).
  apply str_eqb_eq in Ek. subst k.
  assert (Hkeys :
    List.forallb (fun k => match k with
                           | k0 :: _ => in_range 97 122 k0 || ch_eqb k0 95
                           | [] => false
                           end)%bool objectPrototypeKeys = true)
    by (vm_compute; reflexivity).
  rewrite List.forallb_forall in Hkeys. specialize (Hkeys _ Hk).
  simpl in Hkeys. rewrite Hlow, Hund in Hkeys. discriminate.
Qed.

(** The string that is lower-cased and title-cased: the trimmed input
    or its correction.  It is trimmed, not empty and within the
    class. *)
Lemma corrected_ok city v :
  List.forallb cls (trim city) = true -> trim city <> [] ->
  lookup table (trim city) = Own v ->
  let c1 := if truthy v then v else trim city in
  List.forallb cls c1 = true /\ c1 <> []
  /\ headOk c1 = true /\ lastOk c1 = true.
Proof.
  intros Hc Hne Hl. unfold lookup in Hl.
  destruct (assoc table (trim city)) as [w|] eqn:Ea.
  - inversion Hl; subst w. apply assoc_in in Ea.
    pose proof table_ok as Ht. unfold tableOk in Ht.
    rewrite List.forallb_forall in Ht. specialize (Ht _ Ea).
    cbn [snd] in Ht.
    repeat (apply andb_true_iff in Ht; destruct Ht as [Ht ?]).
    cbv zeta. rewrite Ht. repeat split; try assumption.
    destruct v; [discriminate Ht | discriminate].
  - destruct (List.existsb _ objectPrototypeKeys); discriminate.
Qed.

Lemma renormalize c1 :
  List.forallb cls c1 = true -> c1 <> [] ->
  headOk c1 = true -> lastOk c1 = true ->
  assoc table (titleFrom true (toLowerCase c1)) = None ->
  normalizeCityNameWith table (titleFrom true (toLowerCase c1))
  = Some (titleFrom true (toLowerCase c1)).
Proof.
  intros Hc Hne Hh Hl Ha.
  rewrite normalize_unfold.
  rewrite (trim_fixed _ (title_headOk c1 Hc Hh) (title_lastOk true c1 Hc Hl)).
  unfold lookup. rewrite Ha, (title_not_inherited c1 Hc Hne).
  now rewrite lower_title.
Qed.

(** Off the keys of the correction table, normalising twice is
    normalising once. *)
Lemma normalize_idempotent_off_keys city n :
  List.forallb cls (trim city) = true -> trim city <> [] ->
  normalizeCityNameWith table city = Some n ->
  assoc table n = None ->
  normalizeCityNameWith table n = Some n.
Proof.
  intros Hc Hne Hn Ha. rewrite normalize_unfold in Hn.
  destruct (lookup table (trim city)) as [v| |] eqn:El.
  - destruct (corrected_ok city v Hc Hne El) as (H1 & H2 & H3 & H4).
    inversion Hn; subst n. now apply renormalize.
  - discriminate.
  - inversion Hn; subst n.
    apply renormalize; auto using trim_headOk, trim_lastOk.
Qed.

End Idempotence.

(** ** The validator admits only the class *)

Lemma valid_in_class accented city :
  isValidCityNameWith accented city = true ->
  List.forallb (cityClass accented) (trim city) = true /\ trim city <> [].
Proof.
  unfold isValidCityNameWith. cbv zeta. intros H.
  repeat match type of H with
         | (if ?c then false else _) = true =>
             let E := fresh "E" in destruct c eqn:E; [discriminate|]
         end.
  match goal with
  | E : negb (Regex.test _ _) = false |- _ =>
      apply negb_false_iff in E;
      rewrite RegexFacts.test_anchored_plus in E;
      apply andb_true_iff in E; destruct E as [Et Ec]
  end.
  split; [exact Ec|]. destruct (trim city); discriminate.
Qed.

Lemma classA_regular x :
  cityClass ExplorerA.accented x = true -> caseRegular x = true.
Proof.
  intros H. apply cityClassEnum_complete in H.
  assert (Hall : List.forallb caseRegular
                   (cityClassEnum ExplorerA.accented) = true)
    by (vm_compute; reflexivity).
  rewrite List.forallb_forall in Hall. now apply Hall.
Qed.

Lemma tableA_ok :
  tableOk (cityClass ExplorerA.accented) ExplorerA.CITY_CORRECTIONS = true.
Proof. vm_compute. reflexivity. Qed.

(** ** Normalising twice *)

(** Normalising is not idempotent in either explorer: "toront" is a
    valid city, normalising it gives "Toront", and normalising "Toront"
    gives "Toronto", because the correction table is consulted before the
    name is lower-cased and holds the key "Toront". *)
Lemma toront_normalized_twice :
  ~ (forall c n, ExplorerA.isValidCityName c = true ->
                 ExplorerA.normalizeCityName c = Some n ->
                 ExplorerA.normalizeCityName n = Some n)
  /\ ~ (forall c n, ExplorerB.isValidCityName c = true ->
                    ExplorerB.normalizeCityName c = Some n ->
                    ExplorerB.normalizeCityName n = Some n).
Proof.
  split; intros H;
    specialize (H (js "toront") (js "Toront") eq_refl eq_refl);
    vm_compute in H; discriminate.
Qed.

(** In src/src/components/LMIAExplorer.tsx the mis-encoded class admits
    U+00DF, whose upper case is two letters; away from it the class is as
    regular as the other one. *)
Lemma classB_regular x :
  (cityClass ExplorerB.accented x && negb (ch_eqb x 223))%bool = true ->
  caseRegular x = true.
Proof.
  intros H. apply andb_true_iff in H. destruct H as [H Hx].
  apply cityClassEnum_complete in H.
  assert (Hall : List.forallb (fun y => ch_eqb y 223 || caseRegular y)%bool
                   (cityClassEnum ExplorerB.accented) = true)
    by (vm_compute; reflexivity).
  rewrite List.forallb_forall in Hall. specialize (Hall x H).
  apply negb_true_iff in Hx. now rewrite Hx in Hall.
Qed.

Lemma tableB_ok :
  tableOk (fun x => cityClass ExplorerB.accented x && negb (ch_eqb x 223))%bool
          ExplorerB.CITY_CORRECTIONS = true.
Proof. vm_compute. reflexivity. Qed.

Lemma forallb_rev (q : char -> bool) (s : jsstring) :
  List.forallb q s = true -> List.forallb q (rev s) = true.
Proof.
  rewrite !List.forallb_forall. intros H x Hx. apply H.
  now apply List.in_rev.
Qed.

Lemma trim_forall (q : char -> bool) (s : jsstring) :
  List.forallb q s = true -> List.forallb q (trim s) = true.
Proof.
  intros H. unfold trim, trimEnd, trimStart.
  apply forallb_rev, ThresholdFacts.dropWhile_forall, forallb_rev.
  now apply ThresholdFacts.dropWhile_forall.
Qed.

Lemma forallb_and (q1 q2 : char -> bool) (s : jsstring) :
  List.forallb q1 s = true -> List.forallb q2 s = true ->
  List.forallb (fun x => q1 x && q2 x)%bool s = true.
Proof.
  rewrite !List.forallb_forall. intros H1 H2 x Hx.
  now rewrite H1, H2.
Qed.

(** With U+00DF the second explorer breaks idempotence also away from
    the correction table. *)
Lemma eszett_not_idempotent_B :
  ExplorerB.isValidCityName [223; 97; 98] = true
  /\ ExplorerB.normalizeCityName [223; 97; 98] = Some (js "SSab")
  /\ ExplorerB.normalizeCityName (js "SSab") = Some (js "Ssab").
Proof. vm_compute. repeat split. Qed.

(** Where normalising twice is normalising once: for every city that
    [isValidCityName] accepts, if its normalised form is not a key of
    [CITY_CORRECTIONS] then normalising that form returns it unchanged;
    in src/src/components/LMIAExplorer.tsx this is for cities without
    U+00DF, which only its mis-encoded character class admits. *)
Theorem normalize_idempotent_off_corrections (c n : jsstring) :
  (ExplorerA.isValidCityName c = true ->
   ExplorerA.normalizeCityName c = Some n ->
   assoc ExplorerA.CITY_CORRECTIONS n = None ->
   ExplorerA.normalizeCityName n = Some n)
  /\ (ExplorerB.isValidCityName c = true ->
      List.forallb (fun x => negb (ch_eqb x 223)) c = true ->
      ExplorerB.normalizeCityName c = Some n ->
      assoc ExplorerB.CITY_CORRECTIONS n = None ->
      ExplorerB.normalizeCityName n = Some n).
Proof.
  split.
  - intros Hv Hn Hk. apply valid_in_class in Hv. destruct Hv as [Hc Hne].
    exact (normalize_idempotent_off_keys (cityClass ExplorerA.accented)
             ExplorerA.CITY_CORRECTIONS classA_regular tableA_ok c n
             Hc Hne Hn Hk).
  - intros Hv Hs Hn Hk. apply valid_in_class in Hv. destruct Hv as [Hc Hne].
    apply (normalize_idempotent_off_keys
             (fun x => cityClass ExplorerB.accented x
                       && negb (ch_eqb x 223))%bool
             ExplorerB.CITY_CORRECTIONS classB_regular tableB_ok c n);
      try assumption.
    apply forallb_and; [exact Hc|]. now apply trim_forall.
Qed.

Lemma normalize_idempotent_off_corrections_witness :
  ExplorerA.normalizeCityName (js "Sault Ste Marie")
  = Some (js "Sault Ste Marie")
  /\ ExplorerB.normalizeCityName (js "L'ange-gardien")
     = Some (js "L'ange-gardien").
Proof.
  split.
  - apply (proj1 (normalize_idempotent_off_corrections
                    (js "  sault STE marie ") (js "Sault Ste Marie")));
      reflexivity.
  - apply (proj2 (normalize_idempotent_off_corrections
                    (js "L'ANGE-GARDIEN") (js "L'ange-gardien")));
      reflexivity.
Defined.

(** C3: the code relies on normalising being idempotent and misses it.
    The loader stores [normalizeCityName] of the city of the file;
    [citiesByProvince] normalises the stored city once more and offers
    the result; the filter compares the stored city with the chosen one
    exactly.  The correction table is case-sensitive and is consulted
    before the name is lower-cased, so the valid city "MONTREAL" is
    stored as "Montreal", which is a key of the table: normalising it
    again gives the accented spelling (the mis-encoded one in
    src/src/components/LMIAExplorer.tsx).  The city select then offers a
    city that no record carries, and choosing it lists nothing, although
    the record is listed while no city is chosen. *)
Theorem C3_normalized_city_changes_again :
  ExplorerA.isValidCityName (js "MONTREAL") = true
  /\ ExplorerA.normalizeCityName (js "MONTREAL") = Some (js "Montreal")
  /\ ExplorerA.isValidCityName (js "Montreal") = true
  /\ ExplorerA.normalizeCityName (js "Montreal")
     = Some Options.montrealAccented
  /\ ExplorerB.isValidCityName (js "MONTREAL") = true
  /\ ExplorerB.normalizeCityName (js "MONTREAL") = Some (js "Montreal")
  /\ ExplorerB.isValidCityName (js "Montreal") = true
  /\ ExplorerB.normalizeCityName (js "Montreal")
     = Some Options.montrealMisencoded
  /\ exists r,
       Loader.cleanedData [Options.montrealRow] = Some [r]
       /\ Data.City r = Some (js "Montreal")
       /\ (exists m,
              Options.citiesByProvinceA (fun l => l) [r] = Some m
              /\ In (js "QC", [Options.montrealAccented]) m)
       /\ ExplorerA.filtered (initial [r]) = [r]
       /\ ExplorerA.filtered (setCity Options.montrealAccented (initial [r]))
          = [].
Proof.
  repeat (split; [vm_compute; reflexivity|]).
  eexists. split; [vm_compute; reflexivity|].
  split; [reflexivity|]. split; [|split; vm_compute; reflexivity].
  eexists. split; [vm_compute; reflexivity|].
  vm_compute. do 5 right. left. reflexivity.
Qed.

End NormalizeFacts.

(* ================================================================== *)
(** * The webhook: what is called, answered and logged *)
(* ================================================================== *)

Module WebhookMore.

Import Webhook WebhookTrace.

Lemma valueOf_name (o : option jsstring) :
  (if optTruthy o then valueOf o else []) = valueOf o.
Proof. destruct o as [[|c v]|]; reflexivity. Qed.

(** The handler, case by case. *)
Lemma handler_cases env provider req :
  handler env provider req
  = if negb (str_eqb (method req) (js "POST")) then
      ([], mkResponse 405 (JError (js "Method not allowed")))
    else if secretRejected (query_secret req) (KAJABI_WEBHOOK_SECRET env) then
      ([], mkResponse 401 (JError (js "Unauthorized")))
    else if (negb (optTruthy (VITE_SUPABASE_URL env))
             || negb (optTruthy (SUPABASE_SERVICE_ROLE_KEY env)))%bool then
      ([ConsoleError
          (js "Missing VITE_SUPABASE_URL or SUPABASE_SERVICE_ROLE_KEY")],
       mkResponse 500 (JError (js "Server misconfigured")))
    else if negb (optTruthy (emailOf req)) then
      ([], mkResponse 400 (JError (js "Missing email in webhook payload")))
    else
      match provider (inviteOf env req) with
      | Failed error =>
          if isAlreadyRegistered error then
            ([InviteUserByEmail (inviteOf env req) (Failed error)],
             mkResponse 200
               (JMessage (js "User already exists, skipping invite")))
          else
            ([InviteUserByEmail (inviteOf env req) (Failed error);
              ConsoleError (js "Supabase invite error:")],
             mkResponse 500 (JError (js "Failed to invite user")))
      | Invited userId =>
          ([InviteUserByEmail (inviteOf env req) (Invited userId)],
           mkResponse 200 (JInvited (js "User invited successfully") userId))
      end.
Proof.
  unfold handler, inviteOf, emailOf. now rewrite valueOf_name.
Qed.

(** X1: the identity provider is called at most once per request, and
    exactly when the request is a POST with the right secret, the store
    URL and service key are configured and the body has an email; the
    one call carries the body's email, its name or the empty string, and
    [SITE_URL] or the fallback URL. *)
Theorem invite_exactly_when_checks_pass env provider req :
  List.filter isInvite (fst (handler env provider req))
  = if checksPass env req
    then [InviteUserByEmail (inviteOf env req) (provider (inviteOf env req))]
    else [].
Proof.
  rewrite handler_cases. unfold checksPass.
  destruct (str_eqb (method req) (js "POST")); [|reflexivity].
  destruct (secretRejected _ _); [reflexivity|].
  destruct (optTruthy (VITE_SUPABASE_URL env)); [|reflexivity].
  destruct (optTruthy (SUPABASE_SERVICE_ROLE_KEY env)); [|reflexivity].
  destruct (optTruthy (emailOf req)); [|reflexivity].
  cbn [negb orb andb].
  destruct (provider (inviteOf env req)) as [uid|err]; [reflexivity|].
  destruct (isAlreadyRegistered err); reflexivity.
Qed.

(** X2: the answer is one of 200, 400, 401, 405 and 500; it is 200
    exactly when the provider was called and either invited the user or
    failed with an already-registered error; and a line is written to
    the server's error console exactly when the answer is 500. *)
Theorem status_classification env provider req :
  let '(effects, response) := handler env provider req in
  In (status response) [200; 400; 401; 405; 500]%Z
  /\ (status response = 200%Z <->
      checksPass env req = true
      /\ match provider (inviteOf env req) with
         | Invited _ => True
         | Failed e => isAlreadyRegistered e = true
         end)
  /\ (List.existsb isConsoleError effects = true <->
      status response = 500%Z).
Proof.
  rewrite handler_cases. unfold checksPass.
  destruct (str_eqb (method req) (js "POST"));
    [|cbn; repeat split; intros; try tauto; try discriminate;
      destruct H; discriminate].
  destruct (secretRejected _ _);
    [cbn; repeat split; intros; try tauto; try discriminate;
     destruct H; discriminate|].
  destruct (optTruthy (VITE_SUPABASE_URL env));
    [|cbn; repeat split; intros; try tauto; try discriminate;
      destruct H; discriminate].
  destruct (optTruthy (SUPABASE_SERVICE_ROLE_KEY env));
    [|cbn; repeat split; intros; try tauto; try discriminate;
      destruct H; discriminate].
  destruct (optTruthy (emailOf req));
    [|cbn; repeat split; intros; try tauto; try discriminate;
      destruct H; discriminate].
  cbn [negb orb andb].
  destruct (provider (inviteOf env req)) as [uid|err].
  - cbn. repeat split; intros; try tauto; discriminate.
  - destruct (isAlreadyRegistered err); cbn;
      repeat split; intros; try tauto; try discriminate;
      destruct H; discriminate.
Qed.

End WebhookMore.

(* ================================================================== *)
(** * The local auth store across operations *)
(* ================================================================== *)

Module LocalAuthMore.

Import LocalAuth LocalAuthOps.

Local Open Scope N_scope.

(** The code units that lower-casing changes are finitely many. *)
Lemma lowerChar_moves c :
  lowerChar c = c
  \/ In c (City.enumRange 65 90 ++ City.enumRange 192 222 ++ [928]).
Proof.
  unfold lowerChar.
  destruct (in_range 65 90 c) eqn:E1.
  - right. apply List.in_or_app. left.
    now apply NormalizeFacts.enumRange_complete.
  - destruct (in_range 192 222 c) eqn:E2.
    + right. apply List.in_or_app. right. apply List.in_or_app. left.
      now apply NormalizeFacts.enumRange_complete.
    + cbn [andb]. destruct (ch_eqb c 928) eqn:E3; [|now left].
      apply ch_eqb_eq in E3. subst c. right.
      do 2 (apply List.in_or_app; right). now left.
Qed.

Lemma lowerChar_space c : isWhiteSpace (lowerChar c) = isWhiteSpace c.
Proof.
  destruct (lowerChar_moves c) as [-> | Hin]; [reflexivity|].
  assert (Hall :
    List.forallb
      (fun x => Bool.eqb (isWhiteSpace (lowerChar x)) (isWhiteSpace x))
      (City.enumRange 65 90 ++ City.enumRange 192 222 ++ [928]) = true)
    by (vm_compute; reflexivity).
  rewrite List.forallb_forall in Hall.
  apply Bool.eqb_prop. now apply Hall.
Qed.

Lemma headOk_lower s : City.headOk (toLowerCase s) = City.headOk s.
Proof. destruct s; [reflexivity|]. simpl. now rewrite lowerChar_space. Qed.

Lemma lastOk_lower s : City.lastOk (toLowerCase s) = City.lastOk s.
Proof.
  induction s as [|x s IH]; [reflexivity|].
  destruct s as [|y s']; [simpl; now rewrite lowerChar_space|].
  exact IH.
Qed.

Lemma trim_idempotent s : trim (trim s) = trim s.
Proof.
  apply NormalizeFacts.trim_fixed;
    [apply NormalizeFacts.trim_headOk | apply NormalizeFacts.trim_lastOk].
Qed.

Lemma trim_lower_trim s : trim (toLowerCase (trim s)) = toLowerCase (trim s).
Proof.
  apply NormalizeFacts.trim_fixed.
  - rewrite headOk_lower. apply NormalizeFacts.trim_headOk.
  - rewrite lastOk_lower. apply NormalizeFacts.trim_lastOk.
Qed.

Lemma truthy_lower s : truthy (toLowerCase s) = truthy s.
Proof. destruct s; reflexivity. Qed.

(** What an accepted signup means. *)
Lemma signup_accepted nm em pw st st' :
  signup nm em pw st = (None, st') ->
  truthy (trim nm) = true /\ truthy (trim em) = true
  /\ Nat.ltb (List.length pw) 6 = false
  /\ st' = mkStore (users st ++ [mkStored (trim nm) (toLowerCase (trim em))
                                          pw])
                   (Some (mkUser (toLowerCase (trim em)) (trim nm))).
Proof.
  unfold signup.
  destruct (truthy (trim nm)); [|discriminate].
  destruct (truthy (trim em)); [|discriminate].
  destruct (Nat.ltb (List.length pw) 6); [discriminate|].
  destruct (List.existsb _ (users st)); [discriminate|].
  cbn [negb]. intros H. injection H as <-. auto.
Qed.

Lemma signup_cases nm em pw st :
  (exists msg, signup nm em pw st = (Some msg, st))
  \/ (exists st', signup nm em pw st = (None, st')).
Proof.
  destruct (LocalAuthFacts.signup_result nm em pw st) as [H|[H _]]; eauto.
Qed.

Lemma login_cases e pw st :
  login e pw st = (Some (js "Invalid email or password"), st)
  \/ (exists found,
         In found (users st)
         /\ sameEmail (email found) e = true
         /\ password found = pw
         /\ login e pw st
            = (None, mkStore (users st)
                             (Some (mkUser (email found) (name found))))).
Proof.
  unfold login.
  destruct (List.find _ (users st)) as [found|] eqn:E; [right | now left].
  apply List.find_some in E. destruct E as [Hin Hp].
  apply andb_true_iff in Hp. destruct Hp as [He Hpw].
  apply str_eqb_eq in Hpw. exists found. auto.
Qed.

Lemma apply_sessionStored st op :
  sessionStored st -> sessionStored (apply st op).
Proof.
  intros H. destruct op as [nm em pw|e pw|]; cbn [apply].
  - destruct (signup_cases nm em pw st) as [(msg & ->)|(st' & E)];
      [exact H|].
    rewrite E. cbn [snd].
    destruct (signup_accepted nm em pw st st' E) as (_ & _ & _ & ->).
    unfold sessionStored. cbn [user users].
    exists (mkStored (trim nm) (toLowerCase (trim em)) pw).
    split; [|split; reflexivity].
    apply List.in_or_app. right. now left.
  - destruct (login_cases e pw st) as [-> | (f & Hin & _ & _ & ->)];
      [exact H|].
    unfold sessionStored. cbn [snd user users]. exists f. auto.
  - exact I.
Qed.

(** X4: after any sequence of signups, logins and logouts from an empty
    store, the signed-in user, if there is one, carries the email and
    the name of a stored account. *)
Theorem session_is_stored (ops : list Op) :
  sessionStored (runOps emptyStore ops).
Proof.
  unfold runOps.
  assert (G : forall st, sessionStored st ->
                sessionStored (List.fold_left apply ops st)).
  { induction ops as [|op ops IH]; intros st H; [exact H|].
    apply IH. now apply apply_sessionStored. }
  apply G. exact I.
Qed.

(** ** Over any lower-casing *)

(** With the lower-casing of [JsString] the general functions are the
    ones above. *)
Lemma with_toLowerCase nm em pw st ops :
  signupWith toLowerCase nm em pw st = signup nm em pw st
  /\ loginWith toLowerCase em pw st = login em pw st
  /\ runOpsWith toLowerCase st ops = runOps st ops.
Proof. repeat split. Qed.

Section AnyLowerCasing.

Variable lower : jsstring -> jsstring.

(** What an accepted signup means. *)
Lemma signupWith_accepted nm em pw st st' :
  signupWith lower nm em pw st = (None, st') ->
  truthy (trim nm) = true /\ truthy (trim em) = true
  /\ Nat.ltb (List.length pw) 6 = false
  /\ st' = mkStore (users st ++ [mkStored (trim nm) (lower (trim em)) pw])
                   (Some (mkUser (lower (trim em)) (trim nm))).
Proof.
  unfold signupWith.
  destruct (truthy (trim nm)); [|discriminate].
  destruct (truthy (trim em)); [|discriminate].
  destruct (Nat.ltb (List.length pw) 6); [discriminate|].
  destruct (List.existsb _ (users st)); [discriminate|].
  cbn [negb]. intros H. injection H as <-. auto.
Qed.

Lemma signupWith_cases nm em pw st :
  (exists msg, signupWith lower nm em pw st = (Some msg, st))
  \/ (exists st', signupWith lower nm em pw st = (None, st')).
Proof.
  unfold signupWith.
  destruct (truthy (trim nm)); cbn [negb]; [|eauto].
  destruct (truthy (trim em)); cbn [negb]; [|eauto].
  destruct (Nat.ltb (List.length pw) 6); [eauto|].
  destruct (List.existsb _ (users st)); eauto.
Qed.

Lemma loginWith_cases e pw st :
  loginWith lower e pw st = (Some (js "Invalid email or password"), st)
  \/ (exists found,
         In found (users st)
         /\ sameEmailWith lower (email found) e = true
         /\ password found = pw
         /\ loginWith lower e pw st
            = (None, mkStore (users st)
                             (Some (mkUser (email found) (name found))))).
Proof.
  unfold loginWith.
  destruct (List.find _ (users st)) as [found|] eqn:E; [right | now left].
  apply List.find_some in E. destruct E as [Hin Hp].
  apply andb_true_iff in Hp. destruct Hp as [He Hpw].
  apply str_eqb_eq in Hpw. exists found. auto.
Qed.

Lemma applyWith_users_kept st op :
  (forall u, In u (users st) -> wellStoredWith lower u = true) ->
  (forall nm em pw, op = Signup nm em pw ->
     truthy (trim nm) = true -> truthy (trim em) = true ->
     Nat.ltb (List.length pw) 6 = false ->
     wellStoredWith lower (mkStored (trim nm) (lower (trim em)) pw) = true) ->
  forall u, In u (users (applyWith lower st op)) ->
            wellStoredWith lower u = true.
Proof.
  intros H Hnew u. destruct op as [nm em pw|e pw|]; cbn [applyWith].
  - destruct (signupWith_cases nm em pw st) as [(msg & ->)|(st' & E)];
      [apply H|].
    rewrite E. cbn [snd].
    destruct (signupWith_accepted nm em pw st st' E) as (Hn & He & Hp & ->).
    cbn [users]. intros Hin. apply List.in_app_or in Hin.
    destruct Hin as [Hin | [<- | []]]; [now apply H|].
    now apply (Hnew nm em pw).
  - destruct (loginWith_cases e pw st) as [-> | (f & _ & _ & _ & ->)];
      apply H.
  - apply H.
Qed.

(** X3: after any sequence of signups, logins and logouts from an empty
    store, every stored account has a trimmed, lower-case, non-empty
    email, a trimmed non-empty name and a password of at least six code
    units.  This holds for every lower-casing that leaves a lower-cased
    string as it is, keeps a trimmed string trimmed and makes no
    non-empty string empty, as the mapping of the engine does. *)
Theorem accounts_well_formed (ops : list Op) :
  (forall s, lower (lower s) = lower s) ->
  (forall s, trim (lower (trim s)) = lower (trim s)) ->
  (forall s, truthy (lower s) = truthy s) ->
  List.forallb (wellStoredWith lower)
               (users (runOpsWith lower emptyStore ops)) = true.
Proof.
  intros Hidem Htrim Htruthy.
  apply List.forallb_forall. unfold runOpsWith.
  assert (G : forall st,
             (forall u, In u (users st) -> wellStoredWith lower u = true) ->
             forall u, In u (users (List.fold_left (applyWith lower) ops st)) ->
                       wellStoredWith lower u = true).
  { induction ops as [|op ops IH]; intros st H; [exact H|].
    cbn [List.fold_left]. apply IH.
    apply applyWith_users_kept; [exact H|].
    intros nm em pw _ Hn He Hp. unfold wellStoredWith.
    cbn [email name password].
    rewrite Htrim, Hidem, trim_idempotent, !str_eqb_refl,
      Htruthy, Hn, He.
    cbn [andb]. apply Nat.leb_le. apply Nat.ltb_ge in Hp. exact Hp. }
  apply G. intros u [].
Qed.

(** X5: an accepted signup can be followed by a login.  Logging in with
    the same password and any spelling [e] of the email whose lower-case
    form is that of the trimmed email succeeds, leaves the stored
    accounts as they are and signs in an account with that email.  The
    lower-casing is any function that leaves the lower-cased email as it
    is, as the mapping of the engine does. *)
Theorem signup_then_login nm em pw st st' e :
  signupWith lower nm em pw st = (None, st') ->
  lower e = lower (trim em) ->
  lower (lower (trim em)) = lower (trim em) ->
  exists u,
    loginWith lower e pw st' = (None, mkStore (users st') (Some u))
    /\ sameEmailWith lower (userEmail u) (trim em) = true.
Proof.
  intros Hs He Hidem.
  destruct (signupWith_accepted nm em pw st st' Hs) as (_ & _ & _ & E).
  destruct (loginWith_cases e pw st') as [Hfail | (f & _ & Hf & _ & Hl)].
  - exfalso. unfold loginWith in Hfail.
    destruct (List.find _ (users st')) as [x|] eqn:Ef; [discriminate|].
    pose proof (List.find_none _ _ Ef
                  (mkStored (trim nm) (lower (trim em)) pw)) as Hn.
    rewrite E in Hn. cbn [users] in Hn.
    specialize (Hn ltac:(apply List.in_or_app; right; now left)).
    cbn [email password] in Hn. unfold sameEmailWith in Hn.
    rewrite Hidem, He, !str_eqb_refl in Hn.
    discriminate.
  - exists (mkUser (email f) (name f)). split; [exact Hl|].
    cbn [userEmail]. unfold sameEmailWith in *. now rewrite <- He.
Qed.

End AnyLowerCasing.

Lemma accounts_well_formed_witness :
  List.forallb (wellStoredWith toLowerCase)
    (users (runOpsWith toLowerCase emptyStore
              [Signup (js " Ann ") (js " Ann@X.com ") (js "secret1");
               Logout;
               Login (js "ANN@x.com") (js "secret1")])) = true.
Proof.
  apply (accounts_well_formed toLowerCase).
  - exact LocalAuthFacts.toLowerCase_idempotent.
  - exact trim_lower_trim.
  - exact truthy_lower.
Defined.

Lemma signup_then_login_witness :
  exists u,
    loginWith toLowerCase (js "Ann@X.com") (js "secret1") afterFirstSignup
    = (None, mkStore (users afterFirstSignup) (Some u))
    /\ sameEmailWith toLowerCase (userEmail u) (trim annEmail) = true.
Proof.
  apply (signup_then_login toLowerCase (js "Ann") annEmail (js "secret1")
           emptyStore afterFirstSignup (js "Ann@X.com")); reflexivity.
Defined.

End LocalAuthMore.

(* ================================================================== *)
(** * Filters seen from the controls *)
(* ================================================================== *)

Module FilterMore.

Import Controls ThresholdFacts.

Local Open Scope Z_scope.

(** ** The threshold that a typed value applies *)

Lemma readDigits_decimal v :
  List.forallb isDigit v = true ->
  forall acc seen, seen = true \/ v <> [] ->
    readDigits 10 v acc seen
    = Some (List.fold_left (fun a c => a * 10 + (Z.of_N c - 48)) v acc).
Proof.
  induction v as [|c v IH]; intros Hall acc seen Hs.
  - destruct Hs as [-> | Hne]; [reflexivity | congruence].
  - simpl in Hall. apply andb_true_iff in Hall. destruct Hall as [Hc Hv].
    cbn [readDigits List.fold_left].
    assert (Ed : digitValue 10 c = Some (Z.of_N c - 48)).
    { unfold digitValue. fold (isDigit c). rewrite Hc.
      assert (48 <= c <= 57)%N by (apply in_range_spec; exact Hc).
      replace (Z.of_N c - 48 <? 10) with true
        by (symmetry; apply Z.ltb_lt; lia).
      reflexivity. }
    rewrite Ed. apply IH; [exact Hv | now left].
Qed.

Lemma decimal_from_nonneg v :
  forall acc, List.forallb isDigit v = true -> 0 <= acc ->
    0 <= List.fold_left (fun a c => a * 10 + (Z.of_N c - 48)) v acc.
Proof.
  induction v as [|c v IH]; intros acc Hall Ha; [exact Ha|].
  simpl in Hall. apply andb_true_iff in Hall. destruct Hall as [Hc Hv].
  cbn [List.fold_left]. apply IH; [exact Hv|].
  assert (48 <= c <= 57)%N by (apply in_range_spec; exact Hc). lia.
Qed.

Lemma decimal_nonneg v :
  List.forallb isDigit v = true -> 0 <= decimal v.
Proof.
  intros Hall. unfold decimal. apply decimal_from_nonneg; [exact Hall | lia].
Qed.

Lemma parseInt_decimal v :
  v <> [] -> List.forallb isDigit v = true ->
  parseInt v = Some (decimal v).
Proof.
  intros Hne Hall. destruct v as [|c v]; [congruence|].
  pose proof (readDigits_decimal (c :: v) Hall 0 false
                ltac:(right; discriminate)) as Hr.
  simpl in Hall. apply andb_true_iff in Hall. destruct Hall as [Hc Hv].
  unfold parseInt, trimStart. cbn [dropWhile].
  rewrite (digit_not_space c Hc).
  destruct (digit_not_sign c Hc) as [-> ->].
  assert (Hx : match v with
               | b :: _ => (ch_eqb b 120 || ch_eqb b 88)%bool = false
               | [] => True
               end).
  { destruct v as [|b r]; [exact I|].
    simpl in Hv. apply andb_true_iff in Hv. now apply digit_not_x. }
  unfold decimal.
  destruct v as [|b r].
  - rewrite Hr. f_equal. lia.
  - rewrite Hx, andb_false_r. remember (b :: r) as w.
    rewrite Hr. f_equal. lia.
Qed.

(** X6: a threshold that the input accepts, and whose value is at most
    2^53 so that [parseInt] returns it exactly, applies the larger of 1
    and its decimal value: typing nothing, "0" or "000" filters from 1,
    and typing any other such number filters from that number, in both
    explorers. *)
Theorem accepted_threshold_value (v : jsstring) (s : State) :
  ExplorerA.acceptsMinLMIAs v = true ->
  decimal v <= 2 ^ 53 ->
  ExplorerA.minLMIAsNum (setMinLMIAs v s) = Z.max 1 (decimal v)
  /\ ExplorerB.minLMIAsNum (setMinLMIAs v s) = Z.max 1 (decimal v).
Proof.
  rewrite acceptsMinLMIAs_iff. intros Hall _.
  unfold ExplorerA.minLMIAsNum, ExplorerB.minLMIAsNum.
  cbn [minLMIAs setMinLMIAs].
  assert (E : parseIntOr v 1 = Z.max 1 (decimal v)).
  { destruct v as [|c v]; [reflexivity|].
    unfold parseIntOr.
    rewrite (parseInt_decimal (c :: v) ltac:(discriminate) Hall).
    pose proof (decimal_nonneg (c :: v) Hall).
    destruct (Z.eqb_spec (decimal (c :: v)) 0); lia. }
  now rewrite E.
Qed.

Lemma accepted_threshold_value_witness :
  ExplorerA.minLMIAsNum (setMinLMIAs (js "025") sample) = Z.max 1 (decimal (js "025"))
  /\ ExplorerB.minLMIAsNum (setMinLMIAs (js "025") sample)
     = Z.max 1 (decimal (js "025")).
Proof.
  apply (accepted_threshold_value (js "025") sample);
    [reflexivity | vm_compute; discriminate].
Defined.

(** ** Records without approvals stay hidden *)

(** X7: in every state reached from the initial one, whatever the user
    typed or selected, each record that either explorer lists has at
    least one approval. *)
Theorem listed_records_are_approved (loaded : list LMIARecord)
        (es : list Event) (r : LMIARecord) :
  (In r (ExplorerA.filtered (ExplorerA.run (initial loaded) es)) ->
   1 <= orZero (PositiveLMIAs r))
  /\ (In r (ExplorerB.filtered (ExplorerB.run (initial loaded) es)) ->
      1 <= orZero (PositiveLMIAs r)).
Proof.
  split; intros Hin; apply List.filter_In in Hin; destruct Hin as [_ Hk].
  - apply FilterFacts.keepsA_count in Hk.
    pose proof (StateFacts.runA_keeps_threshold es (initial loaded) eq_refl)
      as Ht.
    pose proof (parseIntOr_digits _ Ht). unfold ExplorerA.minLMIAsNum in Hk.
    lia.
  - apply FilterFacts.keepsB_count in Hk.
    pose proof (StateFacts.runB_keeps_threshold es (initial loaded) eq_refl)
      as Ht.
    pose proof (parseIntOr_digits _ Ht). unfold ExplorerB.minLMIAsNum in Hk.
    lia.
Qed.

Lemma listed_records_are_approved_witness :
  1 <= orZero (PositiveLMIAs rec1).
Proof.
  apply (proj1 (listed_records_are_approved
                  [rec3; rec1] [MinLMIAsInput (js "0"); EmployerInput (js "acme")]
                  rec1)).
  vm_compute. left. reflexivity.
Defined.

(** ** The text searches *)

Lemma truthy_toLowerCase s : truthy (toLowerCase s) = truthy s.
Proof. destruct s; reflexivity. Qed.

(** With the lower-casing of [JsString] the general filters are the
    filters of the explorers. *)
Lemma filtered_with_toLowerCase (s : State) :
  TextSearch.filteredA toLowerCase s = ExplorerA.filtered s
  /\ TextSearch.filteredB toLowerCase s = ExplorerB.filtered s.
Proof. split; reflexivity. Qed.

(** X8: the employer search, and the NOC search of LMIAExplorer.tsx,
    ignore letter case and surrounding white space: two search texts
    with the same trimmed lower-case form select the same records.  The
    lower-casing is any function that makes no non-empty string empty
    and leaves the empty string empty, as the mapping of the engine
    does. *)
Theorem text_search_ignores_case_and_padding
        (lower : jsstring -> jsstring) (e e' : jsstring) (s : State) :
  (forall x, truthy (lower x) = truthy x) ->
  lower (trim e) = lower (trim e') ->
  TextSearch.filteredA lower (setEmployer e s)
  = TextSearch.filteredA lower (setEmployer e' s)
  /\ TextSearch.filteredB lower (setEmployer e s)
     = TextSearch.filteredB lower (setEmployer e' s)
  /\ TextSearch.filteredB lower (setNoc e s)
     = TextSearch.filteredB lower (setNoc e' s).
Proof.
  intros Hl H.
  assert (Ht : truthy (trim e) = truthy (trim e'))
    by (rewrite <- (Hl (trim e)), H; apply Hl).
  unfold TextSearch.filteredA, TextSearch.filteredB.
  cbn [rows setEmployer setNoc].
  repeat split; apply List.filter_ext; intros r;
    unfold TextSearch.keepsA, TextSearch.keepsB,
      ExplorerA.minLMIAsNum, ExplorerB.minLMIAsNum;
    cbn [province city stream employer noc minLMIAs setEmployer setNoc];
    now rewrite H, Ht.
Qed.

Lemma text_search_witness :
  TextSearch.filteredA toLowerCase (setEmployer (js "  ACME ") sample)
  = TextSearch.filteredA toLowerCase (setEmployer (js "acme") sample)
  /\ TextSearch.filteredB toLowerCase (setEmployer (js "  ACME ") sample)
     = TextSearch.filteredB toLowerCase (setEmployer (js "acme") sample)
  /\ TextSearch.filteredB toLowerCase (setNoc (js "  ACME ") sample)
     = TextSearch.filteredB toLowerCase (setNoc (js "acme") sample).
Proof.
  apply (text_search_ignores_case_and_padding toLowerCase
           (js "  ACME ") (js "acme") sample).
  - exact truthy_toLowerCase.
  - reflexivity.
Defined.

(** ** The two explorers side by side *)

(** X9: while the NOC search box is empty or holds only white space,
    src/src/components/LMIAExplorer.tsx lists exactly the records that
    src/unnamed/part_004 lists in the same state. *)
Theorem explorers_agree_without_noc (s : State) :
  trim (noc s) = [] ->
  ExplorerB.filtered s = ExplorerA.filtered s.
Proof.
  intros H. unfold ExplorerA.filtered, ExplorerB.filtered.
  apply List.filter_ext. intros r.
  unfold ExplorerA.keeps, ExplorerB.keeps,
    ExplorerA.minLMIAsNum, ExplorerB.minLMIAsNum.
  rewrite H. cbn [truthy].
  repeat match goal with
         | |- (if ?c then false else _) = (if ?c then false else _) =>
             destruct c; [reflexivity|]
         end.
  reflexivity.
Qed.

Lemma explorers_agree_witness :
  ExplorerB.filtered (setNoc (js "   ") sample)
  = ExplorerA.filtered (setNoc (js "   ") sample).
Proof.
  apply (explorers_agree_without_noc (setNoc (js "   ") sample)).
  reflexivity.
Defined.

(** ** No active filter *)

Lemma inactive_min m :
  (negb (str_eqb m (js "1")) && negb (str_eqb m []))%bool = false ->
  parseIntOr m 1 = 1.
Proof.
  intros H. apply andb_false_iff in H.
  destruct H as [H|H]; apply negb_false_iff, str_eqb_eq in H; now subst.
Qed.

(** X10: when [hasActiveFilters] is false the explorers list the records
    with at least one approval, in the order of the data, and nothing
    else; and "Clear All" always leads to such a state. *)
Theorem no_active_filter_lists_approved (s : State) :
  (hasActiveFiltersA s = false ->
   ExplorerA.filtered s = List.filter approved (rows s))
  /\ (hasActiveFiltersB s = false ->
      ExplorerB.filtered s = List.filter approved (rows s))
  /\ hasActiveFiltersA (ExplorerA.handleClearFilters s) = false
  /\ hasActiveFiltersB (ExplorerB.handleClearFilters s) = false.
Proof.
  split; [|split; [|split; reflexivity]].
  - unfold hasActiveFiltersA. intros H.
    repeat (apply orb_false_iff in H; destruct H as [H ?]).
    repeat match goal with
           | E : negb (str_eqb _ _) = false |- _ =>
               apply negb_false_iff, str_eqb_eq in E
           end.
    match goal with E : (_ && _)%bool = false |- _ =>
      apply inactive_min in E; rename E into Em end.
    unfold ExplorerA.filtered. apply List.filter_ext. intros r.
    unfold ExplorerA.keeps, ExplorerA.minLMIAsNum, approved.
    repeat match goal with E : _ s = _ |- _ => rewrite E; clear E end.
    rewrite Em. cbn. rewrite Z.leb_antisym.
    now destruct (orZero (PositiveLMIAs r) <? 1).
  - unfold hasActiveFiltersB. intros H.
    repeat (apply orb_false_iff in H; destruct H as [H ?]).
    repeat match goal with
           | E : negb (str_eqb _ _) = false |- _ =>
               apply negb_false_iff, str_eqb_eq in E
           end.
    match goal with E : (_ && _)%bool = false |- _ =>
      apply inactive_min in E; rename E into Em end.
    unfold ExplorerB.filtered. apply List.filter_ext. intros r.
    unfold ExplorerB.keeps, ExplorerB.minLMIAsNum, approved.
    repeat match goal with E : _ s = _ |- _ => rewrite E; clear E end.
    rewrite Em. cbn. rewrite Z.leb_antisym.
    now destruct (orZero (PositiveLMIAs r) <? 1).
Qed.

Lemma no_active_filter_witness :
  ExplorerA.filtered sample = List.filter approved (rows sample)
  /\ ExplorerB.filtered sample = List.filter approved (rows sample).
Proof.
  split.
  - apply (proj1 (no_active_filter_lists_approved sample)). reflexivity.
  - apply (proj1 (proj2 (no_active_filter_lists_approved sample))).
    reflexivity.
Defined.

End FilterMore.

(* ================================================================== *)
(** * Pages across events *)
(* ================================================================== *)

Module PagerFacts.

Import Controls PageRange ThresholdFacts.

Local Open Scope Z_scope.

Lemma parseIntOr_digits_default (v : jsstring) (dflt : Z) :
  List.forallb isDigit v = true -> 1 <= dflt -> 1 <= parseIntOr v dflt.
Proof.
  intros Hall Hd. unfold parseIntOr.
  destruct v as [|c v]; [vm_compute parseInt; exact Hd|].
  destruct (parseInt_digits (c :: v) ltac:(discriminate) Hall)
    as (n & -> & Hn).
  destruct (Z.eqb_spec n 0); lia.
Qed.

Lemma handleA_rows e s : rows (ExplorerA.handle e s) = rows s.
Proof.
  destruct e; try reflexivity.
  cbn [ExplorerA.handle]. unfold ExplorerA.handleMinLMIAsChange.
  now destruct (ExplorerA.acceptsMinLMIAs v).
Qed.






Lemma handleA_page_size e s :
  pageSizeEvent e = true -> 0 < rowsPerPage s ->
  0 < rowsPerPage (ExplorerA.handle e s).
Proof.
  intros He Hs. destruct e; try exact Hs.
  - cbn [ExplorerA.handle]. unfold ExplorerA.handleMinLMIAsChange.
    now destruct (ExplorerA.acceptsMinLMIAs v).
  - cbn [ExplorerA.handle pageSizeEvent] in *.
    unfold ExplorerA.handleRowsPerPageChange.
    cbn [rowsPerPage setCurrentPage setRowsPerPage].
    pose proof (parseIntOr_digits_default v 100 He ltac:(lia)). lia.
Qed.

Lemma runA_page_size es :
  forall s, List.forallb pageSizeEvent es = true -> 0 < rowsPerPage s ->
            0 < rowsPerPage (ExplorerA.run s es).
Proof.
  induction es as [|e es IH]; intros s He Hs; [exact Hs|].
  simpl in He. apply andb_true_iff in He. destruct He as [He Hes].
  apply IH; [exact Hes|]. unfold ExplorerA.step.
  destruct (filtersChanged false s (ExplorerA.handle e s));
    cbn [rowsPerPage setCurrentPage]; now apply handleA_page_size.
Qed.


Lemma handleB_rows e s : rows (ExplorerB.handle e s) = rows s.
Proof.
  destruct e; try reflexivity.
  cbn [ExplorerB.handle]. unfold ExplorerB.handleMinLMIAsChange.
  now destruct (ExplorerB.acceptsMinLMIAs v).
Qed.

Lemma unchangedB_keeps s s' r :
  filtersChanged true s s' = false ->
  ExplorerB.keeps s' r = ExplorerB.keeps s r.
Proof.
  unfold filtersChanged. intros H. apply negb_false_iff in H.
  rewrite !andb_true_iff in H.
  destruct H as (((((He & Hp) & Hc) & Hn) & Hs) & Hm).
  apply str_eqb_eq in He, Hp, Hc, Hs, Hm.
  unfold ExplorerB.keeps, ExplorerB.minLMIAsNum.
  rewrite <- He, <- Hp, <- Hc, <- Hs, <- Hm.
  cbn [negb orb] in Hn. apply str_eqb_eq in Hn. rewrite <- Hn.
  reflexivity.
Qed.

Lemma unchangedB_filtered e s :
  filtersChanged true s (ExplorerB.handle e s) = false ->
  ExplorerB.filtered (ExplorerB.handle e s) = ExplorerB.filtered s.
Proof.
  intros H. unfold ExplorerB.filtered. rewrite handleB_rows.
  apply List.filter_ext. intros r. now apply unchangedB_keeps.
Qed.

(** What a handler does to the page and to the page size. *)
Lemma handleB_page e s :
  currentPage (ExplorerB.handle e s) = 1
  \/ (currentPage (ExplorerB.handle e s) = currentPage s
      /\ rowsPerPage (ExplorerB.handle e s) = rowsPerPage s)
  \/ (rowsPerPage (ExplorerB.handle e s) = rowsPerPage s
      /\ exists n,
           currentPage (ExplorerB.handle e s)
           = Z.max 1 (Z.min n (ExplorerB.totalPages s))).
Proof.
  destruct e; try (right; left; split; reflexivity);
    try (left; reflexivity).
  - cbn [ExplorerB.handle]. unfold ExplorerB.handleMinLMIAsChange.
    destruct (ExplorerB.acceptsMinLMIAs v);
      [left; reflexivity | right; left; split; reflexivity].
  - right. right. split; [reflexivity|]. exists newPage. reflexivity.
Qed.

Lemma stepB_in_range e s :
  inRangeB s -> inRangeB (ExplorerB.step s e).
Proof.
  unfold inRangeB. intros H. unfold ExplorerB.step.
  destruct (filtersChanged true s (ExplorerB.handle e s)) eqn:Ec.
  - cbn [currentPage setCurrentPage]. unfold ExplorerB.totalPages in *; lia.
  - pose proof (unchangedB_filtered e s Ec) as Ef.
    destruct (handleB_page e s) as [E1 | [[E1 E2] | [E2 (n & E1)]]].
    + rewrite E1. unfold ExplorerB.totalPages in *; lia.
    + rewrite E1.
      replace (ExplorerB.totalPages (ExplorerB.handle e s))
        with (ExplorerB.totalPages s); [exact H|].
      unfold ExplorerB.totalPages, ExplorerB.filteredLength.
      now rewrite Ef, E2.
    + rewrite E1.
      replace (ExplorerB.totalPages (ExplorerB.handle e s))
        with (ExplorerB.totalPages s).
      * unfold ExplorerB.totalPages in *; lia.
      * unfold ExplorerB.totalPages, ExplorerB.filteredLength.
        now rewrite Ef, E2.
Qed.

Lemma runB_in_range es :
  forall s, inRangeB s -> inRangeB (ExplorerB.run s es).
Proof.
  induction es as [|e es IH]; intros s H; [exact H|].
  apply IH. now apply stepB_in_range.
Qed.

Lemma handleB_page_size e s :
  pageSizeEvent e = true -> 0 < rowsPerPage s ->
  0 < rowsPerPage (ExplorerB.handle e s).
Proof.
  intros He Hs. destruct e; try exact Hs.
  - cbn [ExplorerB.handle]. unfold ExplorerB.handleMinLMIAsChange.
    now destruct (ExplorerB.acceptsMinLMIAs v).
  - cbn [ExplorerB.handle pageSizeEvent] in *.
    unfold ExplorerB.handleRowsPerPageChange.
    cbn [rowsPerPage setCurrentPage setRowsPerPage].
    pose proof (parseIntOr_digits_default v 100 He ltac:(lia)). lia.
Qed.

Lemma runB_page_size es :
  forall s, List.forallb pageSizeEvent es = true -> 0 < rowsPerPage s ->
            0 < rowsPerPage (ExplorerB.run s es).
Proof.
  induction es as [|e es IH]; intros s He Hs; [exact Hs|].
  simpl in He. apply andb_true_iff in He. destruct He as [He Hes].
  apply IH; [exact Hes|]. unfold ExplorerB.step.
  destruct (filtersChanged true s (ExplorerB.handle e s));
    cbn [rowsPerPage setCurrentPage]; now apply handleB_page_size.
Qed.


(** ** Loading the data again *)

Lemma setRows_page rs s :
  currentPage (Reload.setRows rs s) = currentPage s
  /\ rowsPerPage (Reload.setRows rs s) = rowsPerPage s.
Proof. split; reflexivity. Qed.





(** What [Reload.visit] shows: after the language switch the third page
    is still the current one, the list has one page, and the table is
    empty although ten records are listed. *)
Lemma language_switch_leaves_page_behind :
  let s := Reload.runB (initial (Reload.cleanedWith (js "Not Disclosed")))
                       Reload.visit in
  currentPage s = 3
  /\ ExplorerB.totalPages s = 1
  /\ List.length (ExplorerB.filtered s) = 10%nat
  /\ ExplorerB.paginatedData s = [].
Proof. vm_compute. repeat split. Qed.



(** X12: as long as every page-size selection carries a string of
    decimal digits, as the options "50", "100", "250" and "500" do, the
    page size stays positive in both explorers: a selection of "0" falls
    back to 100. *)
Theorem page_size_stays_positive (loaded : list LMIARecord)
        (es : list Event) :
  List.forallb pageSizeEvent es = true ->
  0 < rowsPerPage (ExplorerA.run (initial loaded) es)
  /\ 0 < rowsPerPage (ExplorerB.run (initial loaded) es).
Proof.
  intros He. split;
    [apply runA_page_size | apply runB_page_size];
    try exact He; cbn [rowsPerPage initial]; lia.
Qed.

Lemma page_size_witness :
  0 < rowsPerPage (ExplorerA.run (initial [rec1])
                     [RowsPerPageSelect (js "0"); PageClick 3;
                      RowsPerPageSelect (js "250")])
  /\ 0 < rowsPerPage (ExplorerB.run (initial [rec1])
                        [RowsPerPageSelect (js "0"); PageClick 3;
                         RowsPerPageSelect (js "250")]).
Proof.
  apply (page_size_stays_positive [rec1]
           [RowsPerPageSelect (js "0"); PageClick 3;
            RowsPerPageSelect (js "250")]).
  reflexivity.
Defined.







(** ** The numbered page buttons *)

Lemma in_pageButtons tp cp p :
  In p (pageButtons tp cp)
  <-> exists i, 0 <= i < Z.min 5 tp /\ p = pageNum tp cp i.
Proof.
  unfold pageButtons. rewrite List.in_map_iff. split.
  - intros (i & <- & Hi). apply List.in_seq in Hi.
    exists (Z.of_nat i). split; [lia | reflexivity].
  - intros (i & Hi & ->). exists (Z.to_nat i). split.
    + f_equal. lia.
    + apply List.in_seq. lia.
Qed.

Lemma pageNum_first tp cp i :
  pageNum tp cp i = pageNum tp cp 0 + i.
Proof.
  unfold pageNum.
  destruct (tp <=? 5); [lia|]. destruct (cp <=? 3); [lia|].
  destruct (tp - 2 <=? cp); lia.
Qed.

(** X14: for a current page between 1 and the page count, the numbered
    buttons are at most five consecutive pages, all of them existing
    pages, and the current page is one of them; the last page is among
    them exactly when the separate "last page" button is not shown. *)
Theorem page_buttons_window (tp cp : Z) :
  1 <= cp <= tp ->
  List.length (pageButtons tp cp) = Z.to_nat (Z.min 5 tp)
  /\ pageButtons tp cp
     = List.map (fun i => pageNum tp cp 0 + Z.of_nat i)
                (List.seq 0 (Z.to_nat (Z.min 5 tp)))
  /\ (forall p, In p (pageButtons tp cp) -> 1 <= p <= tp)
  /\ In cp (pageButtons tp cp)
  /\ (In tp (pageButtons tp cp) <-> lastPageButton tp cp = false).
Proof.
  intros Hc. split; [|split; [|split; [|split]]].
  - unfold pageButtons. now rewrite List.length_map, List.length_seq.
  - unfold pageButtons. apply List.map_ext. intros i. apply pageNum_first.
  - intros p Hp. apply in_pageButtons in Hp. destruct Hp as (i & Hi & ->).
    unfold pageNum.
    destruct (Z.leb_spec tp 5); [lia|].
    destruct (Z.leb_spec cp 3); [lia|].
    destruct (Z.leb_spec (tp - 2) cp); lia.
  - apply in_pageButtons. unfold pageNum.
    destruct (Z.leb_spec tp 5); [exists (cp - 1); lia|].
    destruct (Z.leb_spec cp 3); [exists (cp - 1); lia|].
    destruct (Z.leb_spec (tp - 2) cp);
      [exists (cp - tp + 4); lia | exists 2; lia].
  - rewrite in_pageButtons. unfold lastPageButton, pageNum.
    destruct (Z.ltb_spec 5 tp) as [H5|H5];
      destruct (Z.ltb_spec cp (tp - 2)) as [H2|H2];
      cbn [andb]; split; intros Hin; try reflexivity; try discriminate.
    + destruct Hin as (i & Hi & E).
      destruct (Z.leb_spec tp 5); [lia|].
      destruct (Z.leb_spec cp 3); [lia|].
      destruct (Z.leb_spec (tp - 2) cp); lia.
    + exists 4. destruct (Z.leb_spec tp 5); [lia|].
      destruct (Z.leb_spec cp 3); [lia|].
      destruct (Z.leb_spec (tp - 2) cp); lia.
    + exists (tp - 1). destruct (Z.leb_spec tp 5); lia.
    + exists (tp - 1). destruct (Z.leb_spec tp 5); lia.
Qed.

Lemma page_buttons_witness :
  pageButtons 9 6 = [4; 5; 6; 7; 8] /\ lastPageButton 9 6 = true.
Proof.
  destruct (page_buttons_window 9 6 ltac:(lia)) as (_ & E & _).
  split; [rewrite E|]; reflexivity.
Defined.

End PagerFacts.

(* ================================================================== *)
(** * The summary cards *)
(* ================================================================== *)

Module InsightsFacts.

Import Provinces Insights.

Local Open Scope Z_scope.

(** ** Sums *)

Lemma total_from l :
  forall a,
    List.fold_left (fun sum r => sum + orZero (PositiveLMIAs r)) l a
    = a + totalLMIAs l.
Proof.
  unfold totalLMIAs. induction l as [|r l IH]; intros a;
    cbn [List.fold_left]; [lia|].
  rewrite (IH (a + _)), (IH (0 + _)). lia.
Qed.

Lemma total_cons r l :
  totalLMIAs (r :: l) = orZero (PositiveLMIAs r) + totalLMIAs l.
Proof. unfold totalLMIAs at 1. simpl. now rewrite total_from. Qed.

(** ** The entries of [byProvince] *)

Lemma or_zero v : (if v =? 0 then 0 else v) = v.
Proof. destruct (Z.eqb_spec v 0); congruence. Qed.

Lemma bump_keys m k n :
  List.map fst (bump m k n)
  = if List.existsb (str_eqb k) (List.map fst m) then List.map fst m
    else List.map fst m ++ [k].
Proof.
  induction m as [|[k' v] m IH]; [reflexivity|].
  cbn [bump List.map fst List.existsb].
  destruct (str_eqb k k') eqn:E; [reflexivity|].
  cbn [List.map fst orb]. rewrite IH.
  now destruct (List.existsb (str_eqb k) (List.map fst m)).
Qed.

Lemma existsb_in k ks :
  List.existsb (str_eqb k) ks = true <-> In k ks.
Proof.
  rewrite List.existsb_exists. split.
  - intros (x & Hx & E). apply str_eqb_eq in E. now subst.
  - intros H. exists k. split; [exact H | apply str_eqb_refl].
Qed.

Lemma bump_NoDup m k n :
  NoDup (List.map fst m) -> NoDup (List.map fst (bump m k n)).
Proof.
  intros H. rewrite bump_keys.
  destruct (List.existsb (str_eqb k) (List.map fst m)) eqn:E; [exact H|].
  apply List.NoDup_app; [exact H | repeat constructor; intros [] |].
  intros x Hx [<- | []].
  apply existsb_in in Hx. congruence.
Qed.

Lemma bump_get m k n k' :
  getZ (bump m k n) k' = if str_eqb k' k then getZ m k + n else getZ m k'.
Proof.
  unfold getZ. induction m as [|[k0 v] m IH].
  - cbn [bump List.find fst snd]. destruct (str_eqb k' k); reflexivity.
  - cbn [bump]. destruct (str_eqb k k0) eqn:E.
    + apply str_eqb_eq in E. subst k0.
      cbn [List.find fst snd]. rewrite str_eqb_refl, or_zero.
      destruct (str_eqb k' k); reflexivity.
    + cbn [List.find fst snd]. rewrite E.
      destruct (str_eqb k' k0) eqn:E'.
      * destruct (str_eqb k' k) eqn:E''; [|reflexivity].
        apply str_eqb_eq in E', E''. subst. now rewrite str_eqb_refl in E.
      * exact IH.
Qed.

Lemma bump_sum m k n : sumValues (bump m k n) = sumValues m + n.
Proof.
  induction m as [|[k' v] m IH]; cbn [bump sumValues List.fold_right snd];
    [lia|].
  destruct (str_eqb k k'); cbn [sumValues List.fold_right snd].
  - rewrite or_zero. fold (sumValues m). lia.
  - fold (sumValues (bump m k n)) (sumValues m). lia.
Qed.

Lemma in_get m k v :
  NoDup (List.map fst m) -> In (k, v) m -> getZ m k = v.
Proof.
  unfold getZ. induction m as [|[k0 v0] m IH]; intros Hn Hin; [destruct Hin|].
  cbn [List.find fst]. inversion Hn as [|? ? Hk Hn']; subst.
  destruct Hin as [E | Hin].
  - inversion E; subst. now rewrite str_eqb_refl.
  - destruct (str_eqb k k0) eqn:E.
    + apply str_eqb_eq in E. subst k0. exfalso. apply Hk.
      change k with (fst (k, v)). now apply List.in_map.
    + now apply IH.
Qed.

Lemma province_filter_cons p r l :
  provinceTotal p (r :: l)
  = (if negb (differs (Province r) p) then orZero (PositiveLMIAs r) else 0)
    + provinceTotal p l.
Proof.
  unfold provinceTotal. cbn [List.filter].
  destruct (negb (differs (Province r) p)); [apply total_cons | lia].
Qed.

Lemma same_province r p :
  negb (differs (Province r) p) = true <-> Province r = Some p.
Proof.
  unfold differs. destruct (Province r) as [x|]; simpl.
  - rewrite negb_involutive, str_eqb_eq. split; congruence.
  - split; discriminate.
Qed.

Lemma fold_get l :
  forall m p, truthy p = true ->
    getZ (List.fold_left stepP l m) p = getZ m p + provinceTotal p l.
Proof.
  induction l as [|r l IH]; intros m p Hp.
  - unfold provinceTotal, totalLMIAs. simpl. lia.
  - cbn [List.fold_left]. rewrite IH by exact Hp.
    rewrite province_filter_cons. unfold stepP, differs.
    destruct (Province r) as [q|]; [|simpl; lia].
    destruct (truthy q) eqn:Hq.
    + rewrite bump_get. destruct (str_eqb p q) eqn:E.
      * apply str_eqb_eq in E. subst q. rewrite str_eqb_refl. simpl. lia.
      * assert (E' : str_eqb q p = false).
        { apply str_eqb_neq. apply str_eqb_neq in E. congruence. }
        rewrite E'. simpl. lia.
    + destruct (str_eqb q p) eqn:E; [|simpl; lia].
      apply str_eqb_eq in E. subst q. congruence.
Qed.

Lemma fold_keys l :
  forall m p,
    In p (List.map fst (List.fold_left stepP l m))
    <-> In p (List.map fst m)
        \/ exists r, In r l /\ Province r = Some p /\ truthy p = true.
Proof.
  induction l as [|r l IH]; intros m p.
  - simpl. split; [tauto | intros [H | (r & [] & _)]; exact H].
  - cbn [List.fold_left]. rewrite IH. unfold stepP.
    destruct (Province r) as [q|] eqn:Eq.
    + destruct (truthy q) eqn:Hq.
      * rewrite bump_keys.
        destruct (List.existsb (str_eqb q) (List.map fst m)) eqn:Ex.
        -- apply existsb_in in Ex. split.
           ++ intros [H | (r' & Hr & Hp)]; [now left|].
              right. exists r'. split; [now right | exact Hp].
           ++ intros [H | (r' & [<- | Hr] & Hp & Ht)]; [now left| |].
              ** left. congruence.
              ** right. exists r'. auto.
        -- split.
           ++ intros [H | (r' & Hr & Hp)].
              ** apply List.in_app_or in H. destruct H as [H | [<- | []]];
                   [now left|].
                 right. exists r. split; [now left | auto].
              ** right. exists r'. split; [now right | exact Hp].
           ++ intros [H | (r' & [<- | Hr] & Hp & Ht)].
              ** left. apply List.in_or_app. now left.
              ** left. apply List.in_or_app. right. left. congruence.
              ** right. exists r'. auto.
      * split.
        -- intros [H | (r' & Hr & Hp)]; [now left|].
           right. exists r'. split; [now right | exact Hp].
        -- intros [H | (r' & [<- | Hr] & Hp & Ht)]; [now left| |].
           ++ congruence.
           ++ right. exists r'. auto.
    + split.
      * intros [H | (r' & Hr & Hp)]; [now left|].
        right. exists r'. split; [now right | exact Hp].
      * intros [H | (r' & [<- | Hr] & Hp & Ht)]; [now left| |].
        -- congruence.
        -- right. exists r'. auto.
Qed.

Lemma fold_NoDup l :
  forall m, NoDup (List.map fst m) ->
            NoDup (List.map fst (List.fold_left stepP l m)).
Proof.
  induction l as [|r l IH]; intros m H; [exact H|].
  cbn [List.fold_left]. apply IH. unfold stepP.
  destruct (Province r) as [q|]; [|exact H].
  destruct (truthy q); [now apply bump_NoDup | exact H].
Qed.

Lemma fold_sum l :
  forall m,
    sumValues (List.fold_left stepP l m)
    = sumValues m + totalLMIAs (List.filter hasProvince l).
Proof.
  induction l as [|r l IH]; intros m.
  - unfold totalLMIAs. simpl. lia.
  - cbn [List.fold_left List.filter]. rewrite IH.
    unfold stepP, hasProvince.
    destruct (Province r) as [q|]; [|lia].
    destruct (truthy q); [|lia].
    rewrite bump_sum, total_cons. lia.
Qed.

Lemma byProvince_fold l : byProvince l = List.fold_left stepP l [].
Proof. reflexivity. Qed.

Lemma filter_all {A : Type} (f : A -> bool) (l : list A) :
  List.forallb f l = true -> List.filter f l = l.
Proof.
  induction l as [|x l IH]; simpl; [reflexivity|].
  intros H. apply andb_true_iff in H. destruct H as [-> H].
  now rewrite IH.
Qed.

Lemma province_totals_lemma (l : list LMIARecord) :
  NoDup (List.map fst (byProvince l))
  /\ (forall p, In p (List.map fst (byProvince l))
                <-> exists r, In r l /\ Province r = Some p
                              /\ truthy p = true)
  /\ (forall p v, In (p, v) (byProvince l) -> v = provinceTotal p l).
Proof.
  rewrite byProvince_fold.
  assert (Hn : NoDup (List.map fst (List.fold_left stepP l [])))
    by (apply fold_NoDup; constructor).
  assert (Hk : forall p, In p (List.map fst (List.fold_left stepP l []))
                <-> exists r, In r l /\ Province r = Some p
                              /\ truthy p = true).
  { intros p. rewrite fold_keys. simpl. tauto. }
  split; [exact Hn|]. split; [exact Hk|].
  intros p v Hin.
  assert (Hp : truthy p = true).
  { assert (Hin' : In p (List.map fst (List.fold_left stepP l []))).
    { change p with (fst (p, v)). now apply List.in_map. }
    apply Hk in Hin'. destruct Hin' as (r & _ & _ & Ht). exact Ht. }
  rewrite <- (in_get _ p v Hn Hin), fold_get by exact Hp.
  reflexivity.
Qed.

(** X15: [byProvince] has one entry per province that occurs among the
    listed records, holding the approvals of that province's records;
    the entries add up to the approvals of the records that carry a
    province, hence to [totalLMIAs] when every record carries one. *)
Theorem province_totals (l : list LMIARecord) :
  provincesKnown l = true ->
  NoDup (List.map fst (byProvince l))
  /\ (forall p, In p (List.map fst (byProvince l))
                <-> exists r, In r l /\ Province r = Some p
                              /\ truthy p = true)
  /\ (forall p v, In (p, v) (byProvince l) -> v = provinceTotal p l)
  /\ sumValues (byProvince l) = totalLMIAs (List.filter hasProvince l)
  /\ (List.forallb hasProvince l = true ->
      sumValues (byProvince l) = totalLMIAs l).
Proof.
  intros _. destruct (province_totals_lemma l) as (Hn & Hk & Hv).
  split; [exact Hn|]. split; [exact Hk|]. split; [exact Hv|].
  rewrite byProvince_fold, fold_sum. split; [reflexivity|].
  intros Hall. now rewrite (filter_all _ _ Hall).
Qed.

Lemma province_totals_witness :
  byProvince (rows sample)
  = [(js "BC", 8); (js "ON", 2); (js "AB", 0)]
  /\ sumValues (byProvince (rows sample)) = totalLMIAs (rows sample).
Proof.
  destruct (province_totals (rows sample) eq_refl) as (_ & _ & _ & _ & H).
  split; [reflexivity | apply H; reflexivity].
Defined.

(** ** The top province *)

(** The first entry after sorting is the first of the entries with the
    largest total. *)
Lemma sortDesc_head m :
  m <> [] ->
  exists pre k v post rest,
    m = pre ++ (k, v) :: post
    /\ sortDesc m = (k, v) :: rest
    /\ List.Forall (fun e => snd e < v) pre
    /\ List.Forall (fun e => snd e <= v) post.
Proof.
  induction m as [|[kx vx] m IH]; [congruence|]. intros _.
  destruct m as [|y m'].
  - exists [], kx, vx, [], []. repeat split; constructor.
  - destruct (IH ltac:(discriminate))
      as (pre & k & v & post & rest & Em & Es & Hpre & Hpost).
    change (sortDesc ((kx, vx) :: y :: m'))
      with (insertDesc (kx, vx) (sortDesc (y :: m'))).
    rewrite Es. cbn [insertDesc snd].
    destruct (Z.ltb_spec vx v) as [Hlt|Hge].
    + exists ((kx, vx) :: pre), k, v, post, (insertDesc (kx, vx) rest).
      rewrite Em. repeat split; [|exact Hpost].
      constructor; [exact Hlt | exact Hpre].
    + exists [], kx, vx, (y :: m'), ((k, v) :: rest).
      repeat split; [constructor|].
      rewrite Em. apply List.Forall_app. split.
      * eapply List.Forall_impl; [|exact Hpre]. cbn. intros e He. lia.
      * constructor; [cbn; lia|].
        eapply List.Forall_impl; [|exact Hpost]. cbn. intros e He. lia.
Qed.

Lemma byProvince_nil l :
  byProvince l = [] <-> List.existsb hasProvince l = false.
Proof.
  pose proof (fold_keys l [] ) as Hk. rewrite <- byProvince_fold in Hk.
  split.
  - intros E. destruct (List.existsb hasProvince l) eqn:Ex; [|reflexivity].
    apply List.existsb_exists in Ex. destruct Ex as (r & Hr & Hp).
    unfold hasProvince in Hp. destruct (Province r) as [p|] eqn:Ep;
      [|discriminate].
    assert (Hin : In p (List.map fst (byProvince l)))
      by (apply Hk; right; exists r; auto).
    rewrite E in Hin. destruct Hin.
  - intros Ex. destruct (byProvince l) as [|[k v] m] eqn:E; [reflexivity|].
    exfalso. assert (Hin : In k (List.map fst ((k, v) :: m))) by now left.
    apply Hk in Hin. destruct Hin as [[] | (r & Hr & Hp & Ht)].
    assert (List.existsb hasProvince l = true).
    { apply List.existsb_exists. exists r. split; [exact Hr|].
      unfold hasProvince. now rewrite Hp. }
    congruence.
Qed.

Lemma known_key l r p :
  provincesKnown l = true -> In r l -> Province r = Some p ->
  truthy p = true -> isProvince p = true.
Proof.
  unfold provincesKnown. rewrite List.forallb_forall. intros H Hr Hp Ht.
  specialize (H r Hr). rewrite Hp, Ht in H. exact H.
Qed.

(** X16: the "top province" card.  It shows the dash exactly when no
    listed record carries a province.  Otherwise it shows a province of
    a listed record whose approvals are at least those of every other
    province and, among provinces with as many, the one met first in the
    list.  (The two explorers differ only in how the dash is written.) *)
Theorem top_province_is_largest (dash : jsstring) (l : list LMIARecord) :
  provincesKnown l = true ->
  isProvince dash = false ->
  (topProvinceWith dash l = dash <-> List.existsb hasProvince l = false)
  /\ (List.existsb hasProvince l = true ->
      let top := topProvinceWith dash l in
      (exists r, In r l /\ Province r = Some top)
      /\ (forall r p, In r l -> Province r = Some p -> truthy p = true ->
                      provinceTotal p l <= provinceTotal top l)
      /\ exists pre post,
           byProvince l = pre ++ (top, provinceTotal top l) :: post
           /\ List.Forall (fun e => snd e < provinceTotal top l) pre).
Proof.
  intros Hknown Hdash.
  destruct (province_totals_lemma l) as (Hn & Hk & Hv).
  destruct (List.existsb hasProvince l) eqn:Ex.
  - assert (Hne : byProvince l <> []).
    { intros E. apply byProvince_nil in E. congruence. }
    destruct (sortDesc_head (byProvince l) Hne)
      as (pre & k & v & post & rest & Em & Es & Hpre & Hpost).
    assert (Hin : In (k, v) (byProvince l))
      by (rewrite Em; apply List.in_or_app; right; now left).
    pose proof (Hv k v Hin) as Ev.
    assert (Hkin : In k (List.map fst (byProvince l))).
    { change k with (fst (k, v)). now apply List.in_map. }
    apply Hk in Hkin. destruct Hkin as (r0 & Hr0 & Hp0 & Ht0).
    assert (Etop : topProvinceWith dash l = k).
    { unfold topProvinceWith. now rewrite Es, Ht0. }
    split.
    + rewrite Etop. split; [|discriminate].
      intros ->. rewrite (known_key l r0 dash Hknown Hr0 Hp0 Ht0) in Hdash.
      discriminate.
    + intros _. cbv zeta. rewrite Etop. subst v. split; [|split].
      * exists r0. auto.
      * intros r p Hr Hp Ht.
        assert (Hpin : In p (List.map fst (byProvince l)))
          by (apply Hk; exists r; auto).
        apply List.in_map_iff in Hpin. destruct Hpin as ([p' w] & Ep & Hw).
        cbn in Ep. subst p'. rewrite <- (Hv p w Hw).
        rewrite Em in Hw. apply List.in_app_or in Hw.
        destruct Hw as [Hw | [Hw | Hw]].
        -- rewrite List.Forall_forall in Hpre. specialize (Hpre _ Hw).
           cbn in Hpre. lia.
        -- inversion Hw; subst. lia.
        -- rewrite List.Forall_forall in Hpost. specialize (Hpost _ Hw).
           cbn in Hpost. exact Hpost.
      * exists pre, post. split; [exact Em | exact Hpre].
  - split; [|discriminate].
    split; [reflexivity|]. intros _.
    unfold topProvinceWith.
    assert (E : byProvince l = []) by now apply byProvince_nil.
    now rewrite E.
Qed.

Lemma top_province_witness :
  (exists r, In r (rows sample)
             /\ Province r = Some (topProvinceA (rows sample)))
  /\ (exists r, In r (rows sample)
                /\ Province r = Some (topProvinceB (rows sample))).
Proof.
  split.
  - exact (proj1 (proj2 (top_province_is_largest [8212%N] (rows sample)
                           eq_refl eq_refl) eq_refl)).
  - exact (proj1 (proj2 (top_province_is_largest [8218%N; 196%N; 238%N]
                           (rows sample) eq_refl eq_refl) eq_refl)).
Defined.

(** ** The employers *)

Lemma opt_eqb_eq a b : opt_eqb a b = true <-> a = b.
Proof.
  destruct a as [x|], b as [y|]; simpl; try (split; congruence).
  rewrite str_eqb_eq. split; congruence.
Qed.

Lemma setAdd_in x set y : In y (setAdd x set) <-> y = x \/ In y set.
Proof.
  induction set as [|z set IH]; simpl; [intuition congruence|].
  destruct (opt_eqb x z) eqn:E.
  - apply opt_eqb_eq in E. subst z. simpl. intuition congruence.
  - simpl. rewrite IH. intuition congruence.
Qed.

Lemma setAdd_NoDup x set : NoDup set -> NoDup (setAdd x set).
Proof.
  induction set as [|z set IH]; intros H; simpl.
  - repeat constructor. intros [].
  - destruct (opt_eqb x z) eqn:E; [exact H|].
    inversion H as [|? ? Hz Hs]; subst. constructor; [|now apply IH].
    rewrite setAdd_in. intros [-> | Hin]; [|contradiction].
    assert (opt_eqb x x = true) by now apply opt_eqb_eq. congruence.
Qed.

Lemma setAdd_length x set :
  (List.length set <= List.length (setAdd x set) <= S (List.length set)
   /\ 1 <= List.length (setAdd x set))%nat.
Proof.
  induction set as [|z set IH]; simpl; [lia|].
  destruct (opt_eqb x z); simpl; lia.
Qed.

Lemma newSet_from values :
  forall set,
    NoDup set ->
    let s := List.fold_left (fun set x => setAdd x set) values set in
    NoDup s
    /\ (forall y, In y s <-> In y set \/ In y values)
    /\ (List.length set <= List.length s
        <= List.length set + List.length values)%nat
    /\ (values <> [] -> 1 <= List.length s)%nat.
Proof.
  induction values as [|x values IH]; intros set Hn; cbv zeta.
  - simpl. repeat split; try tauto; try lia; try congruence.
  - cbn [List.fold_left].
    destruct (IH (setAdd x set) (setAdd_NoDup x set Hn))
      as (H1 & H2 & H3 & H4).
    pose proof (setAdd_length x set) as Hl.
    split; [exact H1|]. split; [|split].
    + intros y. rewrite H2, setAdd_in. simpl. intuition congruence.
    + simpl. lia.
    + intros _. lia.
Qed.

(** X17: the "employers" card counts each employer name once, a missing
    name counting as one more name; the count is at most the number of
    listed records and is zero exactly when nothing is listed, so the
    average per employer is computed whenever something is listed. *)
Theorem employers_counted_once (l : list LMIARecord) :
  NoDup (newSet (List.map EmployerName l))
  /\ (forall e, In e (newSet (List.map EmployerName l))
                <-> exists r, In r l /\ EmployerName r = e)
  /\ 0 <= totalEmployers l <= Z.of_nat (List.length l)
  /\ (totalEmployers l = 0 <-> l = []).
Proof.
  unfold totalEmployers, newSet.
  destruct (newSet_from (List.map EmployerName l) [] ltac:(constructor))
    as (H1 & H2 & H3 & H4).
  split; [exact H1|]. split; [|split].
  - intros e. rewrite H2, List.in_map_iff. simpl. split.
    + intros [[] | (r & E & Hr)]. exists r. auto.
    + intros (r & Hr & E). right. exists r. auto.
  - rewrite List.length_map in H3. simpl in H3. lia.
  - split.
    + intros E. destruct l as [|r l]; [reflexivity|].
      specialize (H4 ltac:(discriminate)). lia.
    + intros ->. reflexivity.
Qed.

End InsightsFacts.

(* ================================================================== *)
(** * Loading and cleaning *)
(* ================================================================== *)

Module LoaderFacts.

Import Provinces Loader Insights.

(** ** Provinces *)

Lemma isProvince_in p : isProvince p = true <-> In p PROVINCES.
Proof. unfold isProvince. apply InsightsFacts.existsb_in. Qed.

Lemma province_facts p :
  isProvince p = true ->
  City.assoc nameToAbbr p = None
  /\ List.existsb (str_eqb p) City.objectPrototypeKeys = false
  /\ truthy p = true.
Proof.
  intros H. apply isProvince_in in H.
  assert (Hall :
    List.forallb
      (fun q => match City.assoc nameToAbbr q with
                | None => negb (List.existsb (str_eqb q)
                                             City.objectPrototypeKeys)
                          && truthy q
                | Some _ => false
                end)%bool PROVINCES = true) by (vm_compute; reflexivity).
  rewrite List.forallb_forall in Hall. specialize (Hall p H).
  destruct (City.assoc nameToAbbr p); [discriminate|].
  apply andb_true_iff in Hall. destruct Hall as [H1 H2].
  apply negb_true_iff in H1. auto.
Qed.

Lemma abbreviation_facts k v :
  City.assoc nameToAbbr k = Some v -> truthy v = true /\ isProvince v = true.
Proof.
  intros H. apply NormalizeFacts.assoc_in in H.
  assert (Hall :
    List.forallb (fun kv => truthy (snd kv) && isProvince (snd kv))%bool
                 nameToAbbr = true) by (vm_compute; reflexivity).
  rewrite List.forallb_forall in Hall. specialize (Hall _ H).
  cbn [snd] in Hall. now apply andb_true_iff in Hall.
Qed.

Lemma cleanProvince_range (field : option jsstring) :
  cleanProvince field = [] \/ isProvince (cleanProvince field) = true.
Proof.
  unfold cleanProvince. fold (upperTrimmed field).
  set (u := upperTrimmed field). unfold City.lookup.
  destruct (City.assoc nameToAbbr u) as [v|] eqn:Ea.
  - destruct (abbreviation_facts u v Ea) as [Hv Hp]. cbv zeta.
    rewrite Hv, Hp. now right.
  - destruct (List.existsb (str_eqb u) City.objectPrototypeKeys) eqn:Ek;
      [now left|].
    destruct (isProvince u) eqn:Hu; cbn [negb]; [now right | now left].
Qed.

Lemma cleanProvince_with_toUpperCase (field : option jsstring) :
  cleanProvinceWith toUpperCase field = cleanProvince field.
Proof. reflexivity. Qed.

(** X18: the province cleaning, whatever the upper-casing.  The result
    is the empty string or one of the thirteen codes; it is the code [p]
    exactly when the field, trimmed and upper-cased, is [p] itself or
    the full name of [p]. *)
Theorem province_recognition (upper : jsstring -> jsstring)
        (field : option jsstring) (p : jsstring) :
  (cleanProvinceWith upper field = []
   \/ isProvince (cleanProvinceWith upper field) = true)
  /\ (p <> [] ->
      (cleanProvinceWith upper field = p
       <-> isProvince p = true
           /\ (upperTrimmedWith upper field = p
               \/ City.assoc nameToAbbr (upperTrimmedWith upper field)
                  = Some p))).
Proof.
  unfold cleanProvinceWith.
  set (u := upperTrimmedWith upper field). unfold City.lookup.
  destruct (City.assoc nameToAbbr u) as [v|] eqn:Ea.
  - destruct (abbreviation_facts u v Ea) as [Hv Hp]. cbv zeta.
    rewrite Hv, Hp. cbn [negb]. split; [now right|].
    intros Hne. split.
    + intros <-. split; [exact Hp | now right].
    + intros [Hp' [Eu | E]]; [|congruence].
      destruct (province_facts p Hp') as (Hnone & _). congruence.
  - destruct (List.existsb (str_eqb u) City.objectPrototypeKeys) eqn:Ek.
    + split; [now left|]. intros Hne. split; [congruence|].
      intros [Hp [Eu | E]]; [|discriminate].
      destruct (province_facts p Hp) as (_ & Hk & _). congruence.
    + destruct (isProvince u) eqn:Hu; cbn [negb].
      * split; [now right|]. intros Hne. split.
        -- intros <-. auto.
        -- intros [_ [Eu | E]]; [exact Eu | discriminate].
      * split; [now left|]. intros Hne. split; [congruence|].
        intros [Hp [Eu | E]]; [congruence | discriminate].
Qed.

Lemma province_recognition_witness :
  cleanProvinceWith toUpperCase (Some (js "  Nova Scotia ")) = js "NS"
  /\ cleanProvinceWith toUpperCase (Some (js "qc")) = js "QC".
Proof.
  split.
  - apply (proj2 (province_recognition toUpperCase
                    (Some (js "  Nova Scotia ")) (js "NS")));
      [discriminate|].
    split; [reflexivity | right; reflexivity].
  - apply (proj2 (province_recognition toUpperCase (Some (js "qc"))
                    (js "QC")));
      [discriminate|].
    split; [reflexivity | left; reflexivity].
Defined.

(** ** Rows *)

Lemma mapRows_some data :
  forall rs, mapRows data = Some rs ->
    (List.length rs = List.length data)
    /\ forall r, In r rs -> exists row, In row data /\ cleanRow row = Some r.
Proof.
  induction data as [|row data IH]; intros rs H.
  - injection H as <-. split; [reflexivity | intros r []].
  - cbn [mapRows] in H. destruct (cleanRow row) as [r0|] eqn:E0;
      [|discriminate].
    destruct (mapRows data) as [rs0|]; [|discriminate].
    injection H as <-. destruct (IH rs0 eq_refl) as [Hl Hin].
    split; [simpl; now rewrite Hl|].
    intros r [<- | Hr].
    + exists row. split; [now left | exact E0].
    + destruct (Hin r Hr) as (row' & H1 & H2). exists row'.
      split; [now right | exact H2].
Qed.

(** X19: what the loader keeps.  Every kept record comes from a row of
    the file whose province field cleans to one of the thirteen codes
    and whose trimmed city passes [isValidCityName]; it carries that
    code, the normalised city, which is not empty, and the trimmed
    employer and stream; and no more records are kept than there are
    rows. *)
Theorem loader_keeps_clean_rows (data : list RawRow)
        (kept : list LMIARecord) :
  cleanedData data = Some kept ->
  (List.length kept <= List.length data)%nat
  /\ forall r, In r kept ->
       exists row,
         In row data
         /\ Province r = Some (cleanProvince (rawProvince row))
         /\ isProvince (cleanProvince (rawProvince row)) = true
         /\ ExplorerA.isValidCityName (trimmedOrEmpty (rawCity row)) = true
         /\ ExplorerA.normalizeCityName (trimmedOrEmpty (rawCity row))
            = City r
         /\ City r <> Some [] /\ City r <> None
         /\ EmployerName r = Some (trimmedOrEmpty (rawEmployer row))
         /\ ProgramStream r = Some (trimmedOrEmpty (rawStream row))
         /\ PositiveLMIAs r = Some (numberOrZero (rawCount row)).
Proof.
  unfold cleanedData. destruct (mapRows data) as [rs|] eqn:Em;
    [|discriminate].
  intros H. injection H as <-.
  destruct (mapRows_some data rs Em) as [Hl Hin]. split.
  - rewrite <- Hl. apply List.filter_length_le.
  - intros r Hr. apply List.filter_In in Hr. destruct Hr as [Hr Hk].
    destruct (Hin r Hr) as (row & Hrow & Ec). exists row.
    split; [exact Hrow|]. unfold cleanRow in Ec.
    destruct (cleanCity (rawCity row)) as [c|] eqn:Ecity; [|discriminate].
    injection Ec as <-. unfold keepRow in Hk.
    cbn [Data.City Province orEmpty EmployerName ProgramStream
         PositiveLMIAs] in *.
    repeat (apply andb_true_iff in Hk; destruct Hk as [Hk ?]).
    split; [reflexivity|]. split.
    { destruct (cleanProvince_range (rawProvince row))
        as [E | E]; [|exact E].
      rewrite E in *. discriminate. }
    unfold cleanCity in Ecity.
    destruct (truthy (trimmedOrEmpty (rawCity row))
              && ExplorerA.isValidCityName (trimmedOrEmpty (rawCity row)))%bool
      eqn:Ev.
    + apply andb_true_iff in Ev. destruct Ev as [_ Ev].
      repeat split; try assumption; try discriminate.
      intros E. injection E as ->. discriminate.
    + injection Ecity as <-. discriminate.
Qed.

Lemma loader_witness :
  cleanedData sampleData
  = Some [ mkRecord (Some (js "Acme Farms")) (Some (js "Surrey"))
                    (Some (js "BC")) (Some (js "Agricultural"))
                    None None (Some 4%Z);
           mkRecord (Some (js "Borealis Inc")) (Some (js "Toront"))
                    (Some (js "ON")) (Some []) None None (Some 0%Z) ]
  /\ (2 <= List.length sampleData)%nat.
Proof.
  split; [vm_compute; reflexivity|].
  pose proof (loader_keeps_clean_rows sampleData _
                ltac:(vm_compute; reflexivity)) as [H _].
  exact H.
Defined.

(** ** When the load fails *)

Lemma cleanCity_none field :
  cleanCity field = None
  <-> exists c, field = Some c /\ In (trim c) poisonCities.
Proof.
  unfold cleanCity. split.
  - destruct field as [c|]; cbn [trimmedOrEmpty];
      [|cbn; discriminate].
    destruct (truthy (trim c) && ExplorerA.isValidCityName (trim c))%bool
      eqn:Ev; [|discriminate].
    apply andb_true_iff in Ev. destruct Ev as [_ Ev].
    unfold ExplorerA.normalizeCityName, City.normalizeCityNameWith.
    rewrite LocalAuthMore.trim_idempotent. unfold City.lookup.
    destruct (City.assoc ExplorerA.CITY_CORRECTIONS (trim c)) as [v|];
      [destruct (truthy v); discriminate|].
    destruct (List.existsb (str_eqb (trim c)) City.objectPrototypeKeys)
      eqn:Ek; [|discriminate].
    intros _. exists c. split; [reflexivity|].
    apply InsightsFacts.existsb_in in Ek.
    assert (Hall :
      List.forallb
        (fun k => negb (ExplorerA.isValidCityName k)
                  || List.existsb (str_eqb k) poisonCities)%bool
        City.objectPrototypeKeys = true) by (vm_compute; reflexivity).
    rewrite List.forallb_forall in Hall. specialize (Hall _ Ek).
    rewrite Ev in Hall. cbn [negb orb] in Hall.
    now apply InsightsFacts.existsb_in.
  - intros (c & -> & Hin). cbn [trimmedOrEmpty].
    assert (Hall :
      List.forallb
        (fun k => truthy k && ExplorerA.isValidCityName k
                  && match ExplorerA.normalizeCityName k with
                     | None => true
                     | Some _ => false
                     end)%bool poisonCities = true)
      by (vm_compute; reflexivity).
    rewrite List.forallb_forall in Hall. specialize (Hall _ Hin).
    repeat (apply andb_true_iff in Hall; destruct Hall as [Hall ?]).
    rewrite Hall. cbn [andb].
    match goal with E : ExplorerA.isValidCityName _ = true |- _ =>
      rewrite E end.
    destruct (ExplorerA.normalizeCityName (trim c)); [discriminate|].
    reflexivity.
Qed.

Lemma mapJsonRows_none data :
  mapJsonRows data = None
  <-> exists row, In row data /\ cleanJsonRow row = None.
Proof.
  induction data as [|row data IH]; cbn [mapJsonRows].
  - split; [discriminate | intros (r & [] & _)].
  - destruct (cleanJsonRow row) as [r0|] eqn:E0.
    + destruct (mapJsonRows data) as [rs0|].
      * split; [discriminate|]. intros (r & [<- | Hr] & E); [congruence|].
        destruct IH as [_ IH]. discriminate IH. exists r. auto.
      * split; [|reflexivity]. intros _.
        destruct IH as [IH _]. destruct (IH eq_refl) as (r & Hr & E).
        exists r. split; [now right | exact E].
    + split; [|reflexivity]. intros _. exists row. split; [now left|exact E0].
Qed.

(** The rows on which the callback raises. *)
Lemma cleanJsonRow_none employer city province stream count :
  cleanJsonRow (Row employer city province stream count) = None
  <-> In NotText [employer; city; province; stream]
      \/ count = CountRaises
      \/ exists c, city = Text c /\ In (trim c) poisonCities.
Proof.
  cbn [cleanJsonRow]. split.
  - intros H.
    destruct province as [|p|]; [| |left; right; right; left; reflexivity];
      (destruct city as [|c|]; [| |left; right; left; reflexivity]);
      (destruct employer as [|e|]; [| |left; left; reflexivity]);
      (destruct stream as [|st|];
       [| |left; do 3 right; left; reflexivity]);
      (destruct count as [n|]; [|right; left; reflexivity]);
      cbn [readText] in H;
      match type of H with context [cleanCity ?f] =>
        destruct (cleanCity f) eqn:Ec end;
      try discriminate;
      apply cleanCity_none in Ec; destruct Ec as (c0 & E1 & E2);
      try discriminate;
      injection E1 as <-; right; right; eexists;
      (split; [reflexivity | exact E2]).
  - intros [Hin | [-> | (c & -> & Hp)]].
    + cbn [In] in Hin.
      destruct Hin as [-> | [-> | [-> | [-> | []]]]].
      * destruct (readText province) as [p|]; [|reflexivity].
        destruct (readText city) as [c|]; [|reflexivity].
        destruct (cleanCity c); reflexivity.
      * destruct (readText province); reflexivity.
      * reflexivity.
      * destruct (readText province) as [p|]; [|reflexivity].
        destruct (readText city) as [c|]; [|reflexivity].
        destruct (cleanCity c); [|reflexivity].
        destruct (readText employer); reflexivity.
    + destruct (readText province) as [p|]; [|reflexivity].
      destruct (readText city) as [c|]; [|reflexivity].
      destruct (cleanCity c); [|reflexivity].
      destruct (readText employer); [|reflexivity].
      destruct (readText stream); reflexivity.
    + destruct (readText province) as [p|]; [|reflexivity].
      cbn [readText].
      assert (Ec : cleanCity (Some c) = None)
        by (apply cleanCity_none; exists c; auto).
      now rewrite Ec.
Qed.

(** On rows whose members are strings or missing the cleaning is the
    one above. *)
Lemma cleanedJson_ofRaw (data : list RawRow) :
  cleanedJson (List.map ofRaw data) = cleanedData data.
Proof.
  unfold cleanedJson, cleanedData.
  assert (E : mapJsonRows (List.map ofRaw data) = mapRows data).
  { induction data as [|row data IH]; [reflexivity|].
    cbn [List.map mapJsonRows mapRows]. rewrite IH.
    assert (Er : cleanJsonRow (ofRaw row) = cleanRow row).
    { unfold ofRaw, cleanRow. cbn [cleanJsonRow].
      destruct (rawProvince row), (rawCity row), (rawEmployer row),
        (rawStream row); cbn [ofField readText];
        match goal with |- context [cleanCity ?f] =>
          destruct (cleanCity f) end; reflexivity. }
    now rewrite Er. }
  now rewrite E.
Qed.

(** X20: when the load fails.  For a file that holds an array, the
    cleaning of src/unnamed/part_004 raises, and the view ends in its
    error state, exactly when some element of the array is [null], or
    one of the four text members of a row is neither a string nor
    missing nor [null], or [Number] raises on the count, or the trimmed
    city of a row is one of seven names that are also members of
    [Object.prototype]: "constructor", "hasOwnProperty",
    "isPrototypeOf", "propertyIsEnumerable", "toLocaleString",
    "toString" and "valueOf", for which the table lookup of
    [normalizeCityName] returns a function and [c.toLowerCase()]
    raises. *)
Theorem load_fails_exactly_when_a_row_raises (data : list JsonRow) :
  cleanedJson data = None
  <-> exists row,
        In row data
        /\ (row = NullRow
            \/ exists employer city province stream count,
                 row = Row employer city province stream count
                 /\ (In NotText [employer; city; province; stream]
                     \/ count = CountRaises
                     \/ exists c, city = Text c
                                  /\ In (trim c) poisonCities)).
Proof.
  unfold cleanedJson.
  assert (E : mapJsonRows data = None
              <-> exists row,
                    In row data
                    /\ (row = NullRow
                        \/ exists employer city province stream count,
                             row = Row employer city province stream count
                             /\ (In NotText [employer; city; province; stream]
                                 \/ count = CountRaises
                                 \/ exists c, city = Text c
                                              /\ In (trim c) poisonCities))).
  { rewrite mapJsonRows_none. split.
    - intros (row & Hrow & Ec). exists row. split; [exact Hrow|].
      destruct row as [|e c p st n]; [now left|]. right.
      exists e, c, p, st, n. split; [reflexivity|].
      now apply cleanJsonRow_none.
    - intros (row & Hrow & [-> | (e & c & p & st & n & -> & H)]);
        eexists; (split; [exact Hrow|]); [reflexivity|].
      now apply cleanJsonRow_none. }
  destruct (mapJsonRows data) as [rs|].
  - split; [discriminate|]. intros H. apply E in H. discriminate.
  - split; [intros _; now apply E | reflexivity].
Qed.

(** ** The two loaders on provinces *)

(** X21: the table lookup of src/unnamed/part_004 and the chain of
    comparisons of src/src/components/LMIAExplorer.tsx clean every
    province field to the same result. *)
Theorem province_cleaning_agrees (field : option jsstring) :
  cleanProvinceB field = cleanProvince field.
Proof.
  unfold cleanProvinceB, cleanProvince. fold (upperTrimmed field).
  set (u := upperTrimmed field). unfold City.lookup, nameToAbbr.
  cbn [City.assoc].
  repeat match goal with
         | |- context [str_eqb u ?k] =>
             destruct (str_eqb u k); [reflexivity|]
         end.
  cbv zeta.
  destruct (List.existsb (str_eqb u) City.objectPrototypeKeys) eqn:Ek;
    [|reflexivity].
  destruct (isProvince u) eqn:Hu; [|reflexivity].
  destruct (province_facts u Hu) as (_ & Hk & _). congruence.
Qed.

(** ** From the file to the cards *)

Lemma kept_have_province data kept :
  cleanedData data = Some kept ->
  provincesKnown kept = true /\ List.forallb hasProvince kept = true.
Proof.
  unfold cleanedData. destruct (mapRows data) as [rs|] eqn:Em;
    [|discriminate].
  intros H. injection H as <-.
  destruct (mapRows_some data rs Em) as [_ Hin].
  unfold provincesKnown. rewrite !List.forallb_forall.
  assert (G : forall r, In r (List.filter keepRow rs) ->
                exists p, Province r = Some p /\ truthy p = true
                          /\ isProvince p = true).
  { intros r Hr. apply List.filter_In in Hr. destruct Hr as [Hr Hk].
    destruct (Hin r Hr) as (row & _ & Ec). unfold cleanRow in Ec.
    destruct (cleanCity (rawCity row)); [|discriminate].
    injection Ec as <-. unfold keepRow in Hk. cbn [Province orEmpty] in *.
    repeat (apply andb_true_iff in Hk; destruct Hk as [Hk ?]).
    exists (cleanProvince (rawProvince row)).
    split; [reflexivity|]. split; [assumption|].
    destruct (cleanProvince_range (rawProvince row))
      as [E | E]; [|exact E].
    rewrite E in *. discriminate. }
  split; intros r Hr; destruct (G r Hr) as (p & Ep & Ht & Hp).
  - rewrite Ep, Hp. apply orb_true_r.
  - unfold hasProvince. now rewrite Ep.
Qed.

Lemma runA_rows es : forall s, rows (ExplorerA.run s es) = rows s.
Proof.
  induction es as [|e es IH]; intros s; [reflexivity|].
  cbn [ExplorerA.run List.fold_left]. fold (ExplorerA.run (ExplorerA.step s e) es).
  rewrite IH. unfold ExplorerA.step.
  destruct (filtersChanged false s (ExplorerA.handle e s));
    cbn [rows setCurrentPage]; apply PagerFacts.handleA_rows.
Qed.

Lemma forallb_filter {A : Type} (p f : A -> bool) (l : list A) :
  List.forallb p l = true -> List.forallb p (List.filter f l) = true.
Proof.
  rewrite !List.forallb_forall. intros H x Hx.
  apply List.filter_In in Hx. now apply H.
Qed.

(** X22: from the file to the cards.  When the file loads, then in every
    state that the user can reach, every listed record carries one of
    the thirteen province codes, the per-province totals have at most
    thirteen entries and they add up to the "total LMIAs" card. *)
Theorem province_totals_add_up (data : list RawRow) (kept : list LMIARecord)
        (es : list Event) :
  cleanedData data = Some kept ->
  let listed := ExplorerA.filtered (ExplorerA.run (initial kept) es) in
  provincesKnown listed = true
  /\ List.forallb hasProvince listed = true
  /\ sumValues (byProvince listed) = totalLMIAs listed
  /\ (forall p, In p (List.map fst (byProvince listed)) ->
                isProvince p = true)
  /\ (List.length (byProvince listed) <= 13)%nat.
Proof.
  intros Hload. cbv zeta.
  destruct (kept_have_province data kept Hload) as [Hk Hp].
  set (s := ExplorerA.run (initial kept) es).
  assert (Er : rows s = kept) by (unfold s; now rewrite runA_rows).
  unfold ExplorerA.filtered. rewrite Er.
  set (listed := List.filter (ExplorerA.keeps s) kept).
  assert (Hk' : provincesKnown listed = true)
    by (apply forallb_filter; exact Hk).
  assert (Hp' : List.forallb hasProvince listed = true)
    by (apply forallb_filter; exact Hp).
  destruct (InsightsFacts.province_totals_lemma listed) as (Hn & Hkeys & _).
  assert (Hprov : forall p, In p (List.map fst (byProvince listed)) ->
                            isProvince p = true).
  { intros p Hin. apply Hkeys in Hin. destruct Hin as (r & Hr & Ep & Ht).
    exact (InsightsFacts.known_key listed r p Hk' Hr Ep Ht). }
  split; [exact Hk'|]. split; [exact Hp'|]. split; [|split].
  - rewrite InsightsFacts.byProvince_fold, InsightsFacts.fold_sum.
    now rewrite (InsightsFacts.filter_all _ _ Hp').
  - exact Hprov.
  - rewrite <- (List.length_map fst).
    change 13%nat with (List.length PROVINCES).
    apply List.NoDup_incl_length; [exact Hn|].
    intros p Hin. apply isProvince_in. now apply Hprov.
Qed.

Lemma province_totals_add_up_witness :
  let listed := ExplorerA.filtered
                  (ExplorerA.run
                     (initial [ mkRecord (Some (js "Acme Farms"))
                                  (Some (js "Surrey")) (Some (js "BC"))
                                  (Some (js "Agricultural")) None None
                                  (Some 4%Z);
                                mkRecord (Some (js "Borealis Inc"))
                                  (Some (js "Toront")) (Some (js "ON"))
                                  (Some []) None None (Some 0%Z) ])
                     [MinLMIAsInput (js "2")]) in
  sumValues (byProvince listed) = totalLMIAs listed.
Proof.
  exact (proj1 (proj2 (proj2
           (province_totals_add_up sampleData _ [MinLMIAsInput (js "2")]
              ltac:(vm_compute; reflexivity))))).
Defined.

End LoaderFacts.

(* ================================================================== *)
(** * The city validator and the normaliser *)
(* ================================================================== *)

Module ValidatorFacts.

Import City.

(** [/[class]/.test(s)]: some code unit of [s] is in the class. *)
Lemma test_class (p : char -> bool) (s : jsstring) :
  forall prev, Regex.searchFrom (Regex.Chr p) prev s = List.existsb p s.
Proof.
  induction s as [|c s IH]; intros prev; [reflexivity|].
  cbn [Regex.searchFrom Regex.matchAt List.existsb].
  now rewrite IH, andb_true_r.
Qed.

Lemma existsb_rev (p : char -> bool) (s : jsstring) :
  List.existsb p (rev s) = List.existsb p s.
Proof.
  destruct (List.existsb p s) eqn:E.
  - apply List.existsb_exists in E. destruct E as (x & Hx & Hp).
    apply List.existsb_exists. exists x. split; [|exact Hp].
    now apply List.in_rev in Hx.
  - destruct (List.existsb p (rev s)) eqn:E'; [|reflexivity].
    apply List.existsb_exists in E'. destruct E' as (x & Hx & Hp).
    assert (List.existsb p s = true).
    { apply List.existsb_exists. exists x. split; [|exact Hp].
      now apply List.in_rev. }
    congruence.
Qed.

Lemma digit_survives_dropWhile (s : jsstring) :
  List.existsb isDigit (dropWhile isWhiteSpace s) = List.existsb isDigit s.
Proof.
  induction s as [|c s IH]; [reflexivity|]. cbn [dropWhile].
  destruct (isWhiteSpace c) eqn:E; [|reflexivity].
  rewrite IH. cbn [List.existsb].
  destruct (isDigit c) eqn:Ed; [|reflexivity].
  rewrite (ThresholdFacts.digit_not_space c Ed) in E. discriminate.
Qed.

Lemma digit_survives_trim (s : jsstring) :
  List.existsb isDigit (trim s) = List.existsb isDigit s.
Proof.
  unfold trim, trimEnd, trimStart.
  now rewrite existsb_rev, digit_survives_dropWhile, existsb_rev,
    digit_survives_dropWhile.
Qed.

(** X23: what [isValidCityName] never accepts, in either explorer: a
    string with a decimal digit anywhere, and a string whose trimmed form
    is shorter than 3 or longer than 40 code units or steps outside the
    character class. *)
Theorem validator_bounds (accented : list char) (city : jsstring) :
  (List.existsb isDigit city = true ->
   isValidCityNameWith accented city = false)
  /\ (isValidCityNameWith accented city = true ->
      (3 <= List.length (trim city) <= 40)%nat
      /\ List.forallb (cityClass accented) (trim city) = true
      /\ List.existsb isDigit city = false).
Proof.
  assert (G : isValidCityNameWith accented city = true ->
              (3 <= List.length (trim city) <= 40)%nat
              /\ List.forallb (cityClass accented) (trim city) = true
              /\ List.existsb isDigit city = false).
  { unfold isValidCityNameWith. cbv zeta. intros H.
    repeat match type of H with
           | (if ?c then false else _) = true =>
               let E := fresh "E" in destruct c eqn:E; [discriminate|]
           end.
    match goal with
    | E : negb (Regex.test _ _) = false |- _ =>
        apply negb_false_iff in E;
        rewrite RegexFacts.test_anchored_plus in E;
        apply andb_true_iff in E; destruct E as [_ Ec]
    end.
    match goal with
    | E : (Nat.ltb _ 3 || Nat.ltb 40 _)%bool = false |- _ =>
        apply orb_false_iff in E; destruct E as [E3 E40];
        apply Nat.ltb_ge in E3, E40
    end.
    match goal with
    | E : Regex.test (Regex.Chr isDigit) _ = false |- _ =>
        unfold Regex.test in E; rewrite test_class, digit_survives_trim in E
    end.
    auto. }
  split; [|exact G].
  intros Hd. destruct (isValidCityNameWith accented city) eqn:E;
    [|reflexivity].
  destruct (G eq_refl) as (_ & _ & Hn). congruence.
Qed.

Lemma validator_bounds_witness :
  ExplorerA.isValidCityName (js "Toronto M5V") = false
  /\ (3 <= List.length (trim (js " Port Moody ")) <= 40)%nat.
Proof.
  split.
  - apply (proj1 (validator_bounds ExplorerA.accented (js "Toronto M5V"))).
    reflexivity.
  - apply (proj2 (validator_bounds ExplorerA.accented (js " Port Moody "))).
    reflexivity.
Defined.

(** X24: surrounding white space does not matter: [isValidCityName] and
    [normalizeCityName] give on a string what they give on its trimmed
    form, in both explorers. *)
Theorem padding_is_ignored (city : jsstring) :
  ExplorerA.isValidCityName (trim city) = ExplorerA.isValidCityName city
  /\ ExplorerB.isValidCityName (trim city) = ExplorerB.isValidCityName city
  /\ ExplorerA.normalizeCityName (trim city)
     = ExplorerA.normalizeCityName city
  /\ ExplorerB.normalizeCityName (trim city)
     = ExplorerB.normalizeCityName city.
Proof.
  assert (G : forall accented,
             isValidCityNameWith accented (trim city)
             = isValidCityNameWith accented city).
  { intros accented. unfold isValidCityNameWith.
    rewrite LocalAuthMore.trim_idempotent.
    destruct (trim city) as [|c t] eqn:Et.
    - cbn [truthy negb]. destruct (truthy city); reflexivity.
    - cbn [truthy negb]. destruct city as [|c0 t0]; [discriminate|].
      reflexivity. }
  split; [apply G|]. split; [apply G|].
  unfold ExplorerA.normalizeCityName, ExplorerB.normalizeCityName,
    normalizeCityNameWith.
  now rewrite LocalAuthMore.trim_idempotent.
Qed.

(** X25: apart from the corrections, normalising only changes letter
    case.  For a city that [isValidCityName] of src/unnamed/part_004
    accepts and that is not a key of [CITY_CORRECTIONS], the normalised
    name has the length of the trimmed input, the same lower-case form,
    and no white space at either end. *)
Theorem normalize_changes_only_case (city n : jsstring) :
  ExplorerA.isValidCityName city = true ->
  assoc ExplorerA.CITY_CORRECTIONS (trim city) = None ->
  ExplorerA.normalizeCityName city = Some n ->
  toLowerCase n = toLowerCase (trim city)
  /\ List.length n = List.length (trim city)
  /\ trim n = n.
Proof.
  intros Hv Ha Hn.
  apply NormalizeFacts.valid_in_class in Hv. destruct Hv as [Hc Hne].
  unfold ExplorerA.normalizeCityName in Hn.
  rewrite NormalizeFacts.normalize_unfold in Hn. unfold lookup in Hn.
  rewrite Ha in Hn.
  destruct (List.existsb (str_eqb (trim city)) objectPrototypeKeys);
    [discriminate|].
  injection Hn as <-.
  assert (El : toLowerCase (titleFrom true (toLowerCase (trim city)))
               = toLowerCase (trim city))
    by (apply (NormalizeFacts.lower_title (cityClass ExplorerA.accented)
                 NormalizeFacts.classA_regular); exact Hc).
  split; [exact El|]. split.
  - rewrite <- (List.length_map lowerChar). fold (toLowerCase
      (titleFrom true (toLowerCase (trim city)))).
    rewrite El. unfold toLowerCase. apply List.length_map.
  - apply NormalizeFacts.trim_fixed.
    + apply (NormalizeFacts.title_headOk (cityClass ExplorerA.accented)
               NormalizeFacts.classA_regular); [exact Hc|].
      apply NormalizeFacts.trim_headOk.
    + apply (NormalizeFacts.title_lastOk (cityClass ExplorerA.accented)
               NormalizeFacts.classA_regular); [exact Hc|].
      apply NormalizeFacts.trim_lastOk.
Qed.

Lemma normalize_changes_only_case_witness :
  toLowerCase (js "Sault Ste Marie") = toLowerCase (trim (js " SAULT ste marie "))
  /\ List.length (js "Sault Ste Marie")
     = List.length (trim (js " SAULT ste marie "))
  /\ trim (js "Sault Ste Marie") = js "Sault Ste Marie".
Proof.
  apply (normalize_changes_only_case (js " SAULT ste marie ")
           (js "Sault Ste Marie")); reflexivity.
Defined.

End ValidatorFacts.

(* ================================================================== *)
(** * The options of the selects *)
(* ================================================================== *)

Module OptionsFacts.

Import Provinces Options.

Lemma pushNew_in x l y : In y (pushNew x l) <-> y = x \/ In y l.
Proof.
  unfold pushNew. destruct (List.existsb (str_eqb x) l) eqn:E.
  - apply InsightsFacts.existsb_in in E. split; [tauto|].
    intros [-> | H]; assumption.
  - rewrite List.in_app_iff. simpl. intuition congruence.
Qed.

Lemma pushNew_NoDup x l : NoDup l -> NoDup (pushNew x l).
Proof.
  unfold pushNew. intros H.
  destruct (List.existsb (str_eqb x) l) eqn:E; [exact H|].
  apply List.NoDup_app; [exact H | repeat constructor; intros [] |].
  intros y Hy [<- | []].
  apply InsightsFacts.existsb_in in Hy. congruence.
Qed.

Lemma updateAt_keys m p f : List.map fst (updateAt m p f) = List.map fst m.
Proof.
  unfold updateAt. rewrite List.map_map. apply List.map_ext.
  intros [q cs]. cbn [fst]. now destruct (str_eqb q p).
Qed.

Lemma updateAt_in m p f q cs' :
  In (q, cs') (updateAt m p f)
  <-> exists cs, In (q, cs) m
                 /\ cs' = if str_eqb q p then f cs else cs.
Proof.
  unfold updateAt. rewrite List.in_map_iff. split.
  - intros ([q0 cs] & E & Hin). cbn [fst snd] in E.
    destruct (str_eqb q0 p) eqn:Eq; injection E as E1 E2;
      exists cs; rewrite <- E1, Eq; auto.
  - intros (cs & Hin & ->). exists (q, cs). cbn [fst snd].
    split; [|exact Hin]. now destruct (str_eqb q p).
Qed.

Section Collect.

Variable valid : jsstring -> bool.
Variable normalize : jsstring -> option jsstring.

Lemma province_of r q :
  Province r = Some q -> isProvince q = true ->
  orEmpty (Province r) = q /\ truthy q = true.
Proof.
  intros E H. rewrite E. split; [reflexivity|].
  now destruct (LoaderFacts.province_facts q H) as (_ & _ & Ht).
Qed.

Lemma collect_step m seen r m' :
  collected valid normalize m seen ->
  collectCity valid normalize m r = Some m' ->
  collected valid normalize m' (seen ++ [r]).
Proof.
  intros [Hkeys Hin] Hc. unfold collectCity in Hc.
  assert (Hskip : (forall q c, ~ contributes valid normalize q c r) ->
                  collected valid normalize m (seen ++ [r])).
  { intros Hno. split; [exact Hkeys|]. intros q cs Hq.
    destruct (Hin q cs Hq) as [Hn Hi]. split; [exact Hn|].
    intros c. rewrite Hi. split.
    - intros (r' & Hr' & Hcon). exists r'.
      split; [apply List.in_or_app; now left | exact Hcon].
    - intros (r' & Hr' & Hcon). apply List.in_app_or in Hr'.
      destruct Hr' as [Hr' | [<- | []]]; [eauto|].
      exfalso. exact (Hno q c Hcon). }
  destruct (negb (truthy (orEmpty (Province r)))
            || negb (truthy (orEmpty (City r)))
            || negb (isProvince (orEmpty (Province r))))%bool eqn:Eg.
  - injection Hc as <-. apply Hskip.
    intros q c (Ep & Hp & Ht & _).
    destruct (province_of r q Ep Hp) as [Eo Hq].
    rewrite Eo, Hq, Hp, Ht in Eg. discriminate.
  - apply orb_false_iff in Eg. destruct Eg as [Eg Eprov].
    apply orb_false_iff in Eg. destruct Eg as [Etp Etc].
    apply negb_false_iff in Eprov, Etp, Etc.
    destruct (normalize (orEmpty (City r))) as [n|] eqn:En; [|discriminate].
    destruct (valid n) eqn:Ev; cbn [negb] in Hc.
    + injection Hc as <-.
      assert (Ep : Province r = Some (orEmpty (Province r))).
      { destruct (Province r); [reflexivity | discriminate]. }
      set (P := orEmpty (Province r)) in *.
      split; [now rewrite updateAt_keys|].
      intros q cs' Hq. apply updateAt_in in Hq.
      destruct Hq as (cs & Hq & ->). destruct (Hin q cs Hq) as [Hn Hi].
      destruct (str_eqb q P) eqn:Eq.
      * apply str_eqb_eq in Eq. subst q.
        split; [now apply pushNew_NoDup|].
        intros c. rewrite pushNew_in, Hi. split.
        -- intros [-> | (r' & Hr' & Hcon)].
           ++ exists r. split; [apply List.in_or_app; right; now left|].
              repeat split; assumption.
           ++ exists r'. split; [apply List.in_or_app; now left | exact Hcon].
        -- intros (r' & Hr' & Hcon). apply List.in_app_or in Hr'.
           destruct Hr' as [Hr' | [<- | []]]; [right; eauto|].
           left. destruct Hcon as (_ & _ & _ & En' & _). congruence.
      * split; [exact Hn|]. intros c. rewrite Hi. split.
        -- intros (r' & Hr' & Hcon). exists r'.
           split; [apply List.in_or_app; now left | exact Hcon].
        -- intros (r' & Hr' & Hcon). apply List.in_app_or in Hr'.
           destruct Hr' as [Hr' | [<- | []]]; [eauto|].
           exfalso. destruct Hcon as (Ep' & _).
           rewrite Ep in Ep'. injection Ep' as Ep'.
           rewrite Ep', str_eqb_refl in Eq. discriminate.
    + injection Hc as <-. apply Hskip.
      intros q c (_ & _ & _ & En' & Hv). congruence.
Qed.

Lemma collect_all rows :
  forall m seen m',
    collected valid normalize m seen ->
    collectCities valid normalize m rows = Some m' ->
    collected valid normalize m' (seen ++ rows).
Proof.
  induction rows as [|r rows IH]; intros m seen m' Hc H.
  - injection H as <-. now rewrite List.app_nil_r.
  - cbn [collectCities] in H.
    destruct (collectCity valid normalize m r) as [m1|] eqn:E1;
      [|discriminate].
    change (r :: rows) with ([r] ++ rows). rewrite List.app_assoc.
    apply (IH m1); [|exact H]. now apply (collect_step m seen r).
Qed.

Lemma collected_start : collected valid normalize (List.map (fun p => (p, [])) PROVINCES) [].
Proof.
  split.
  - rewrite List.map_map. cbn [fst]. apply List.map_id.
  - intros q cs Hin. apply List.in_map_iff in Hin.
    destruct Hin as (p & E & _). injection E as <- <-.
    split; [constructor|]. intros c. split; [intros []|].
    intros (r & [] & _).
Qed.

End Collect.

Section Sorted.

Variable localeSort : list jsstring -> list jsstring.
Hypothesis localeSort_permutes : forall l, Permutation (localeSort l) l.

Lemma NoDup_firstn {A : Type} (n : nat) (l : list A) :
  NoDup l -> NoDup (List.firstn n l).
Proof.
  intros H. rewrite <- (List.firstn_skipn n l) in H.
  now apply List.NoDup_app_remove_r in H.
Qed.

Lemma in_firstn {A : Type} (n : nat) (l : list A) (x : A) :
  In x (List.firstn n l) -> In x l.
Proof.
  intros H. rewrite <- (List.firstn_skipn n l).
  apply List.in_or_app. now left.
Qed.

(** X26: the city select.  When [citiesByProvince] is computed, it has
    one list per province code; each list has at most 200 cities, none
    twice; every city in it passes the validator and is the normalised
    city of a row of that province; and a city that a row contributes is
    missing from the list only when the list is full.  This holds for
    any sort that permutes its input, whatever the collation. *)
Theorem city_options (valid : jsstring -> bool)
        (normalize : jsstring -> option jsstring)
        (rows : list LMIARecord) (m : list (jsstring * list jsstring)) :
  citiesByProvinceWith valid normalize localeSort rows = Some m ->
  List.map fst m = PROVINCES
  /\ forall p cs, In (p, cs) m ->
       (List.length cs <= 200)%nat
       /\ NoDup cs
       /\ (forall c, In c cs ->
             exists r, In r rows /\ contributes valid normalize p c r)
       /\ (forall r c, In r rows -> contributes valid normalize p c r ->
             In c cs \/ List.length cs = 200%nat).
Proof.
  unfold citiesByProvinceWith.
  destruct (collectCities valid normalize
              (List.map (fun p => (p, [])) PROVINCES) rows) as [m0|] eqn:E;
    [|discriminate].
  intros H.
  assert (Hm : m = List.map (fun e => (fst e, List.firstn 200 (localeSort (snd e)))) m0)
    by congruence.
  clear H. subst m.
  destruct (collect_all valid normalize rows _ [] m0
              (collected_start valid normalize) E) as [Hkeys Hin].
  cbn [List.app] in Hin. split.
  - rewrite List.map_map. cbn [fst]. exact Hkeys.
  - intros p cs Hp. apply List.in_map_iff in Hp.
    destruct Hp as ([q cs0] & Eq & Hq). cbn [fst snd] in Eq.
    pose proof (f_equal fst Eq) as E1. pose proof (f_equal snd Eq) as E2.
    cbn [fst snd] in E1, E2. clear Eq. subst p cs.
    destruct (Hin q cs0 Hq) as [Hn Hi].
    pose proof (localeSort_permutes cs0) as Hperm.
    split; [apply List.firstn_le_length|]. split; [|split].
    + apply NoDup_firstn.
      eapply Permutation_NoDup; [apply Permutation_sym; exact Hperm|exact Hn].
    + intros c Hc. apply in_firstn in Hc.
      apply (Permutation_in _ Hperm) in Hc. now apply Hi.
    + intros r c Hr Hcon.
      assert (Hc : In c (localeSort cs0)).
      { apply (Permutation_in _ (Permutation_sym Hperm)).
        apply Hi. eauto. }
      destruct (Nat.le_gt_cases (List.length (localeSort cs0)) 200)
        as [Hle|Hgt].
      * left. now rewrite List.firstn_all2.
      * right. rewrite List.length_firstn. lia.
Qed.

(** X27: the stream select of src/unnamed/part_004 offers each non-empty
    program stream of the data exactly once, and nothing else. *)
Theorem stream_options (rows : list LMIARecord) :
  NoDup (streamOptions localeSort rows)
  /\ forall s, In s (streamOptions localeSort rows)
               <-> s <> [] /\ exists r, In r rows /\ ProgramStream r = Some s.
Proof.
  unfold streamOptions.
  set (step := fun (streams : list jsstring) (r : LMIARecord) =>
                 if (truthy (orEmpty (ProgramStream r))
                     && Nat.ltb 0 (List.length (orEmpty (ProgramStream r))))%bool
                 then pushNew (orEmpty (ProgramStream r)) streams
                 else streams).
  assert (G : forall l acc,
             NoDup acc ->
             NoDup (List.fold_left step l acc)
             /\ forall s, In s (List.fold_left step l acc)
                          <-> In s acc
                              \/ (s <> [] /\ exists r, In r l
                                             /\ ProgramStream r = Some s)).
  { induction l as [|r l IH]; intros acc Hn.
    - split; [exact Hn|]. intros s. simpl. split; [tauto|].
      intros [H | (_ & r & [] & _)]. exact H.
    - cbn [List.fold_left].
      assert (Hn' : NoDup (step acc r)).
      { unfold step. destruct (_ && _)%bool; [now apply pushNew_NoDup|exact Hn]. }
      destruct (IH (step acc r) Hn') as [H1 H2]. split; [exact H1|].
      intros s. rewrite H2. unfold step.
      destruct (ProgramStream r) as [x|] eqn:Ex; cbn [orEmpty].
      + destruct x as [|c x]; cbn [truthy andb].
        * split.
          -- intros [H | (Hs & r' & Hr' & E)]; [now left|].
             right. split; [exact Hs|]. exists r'. split; [now right|exact E].
          -- intros [H | (Hs & r' & [<- | Hr'] & E)]; [now left| |].
             ++ congruence.
             ++ right. split; [exact Hs|]. eauto.
        * cbn [List.length Nat.ltb Nat.leb]. rewrite pushNew_in. split.
          -- intros [[-> | H] | (Hs & r' & Hr' & E)].
             ++ right. split; [discriminate|]. exists r.
                split; [now left | exact Ex].
             ++ now left.
             ++ right. split; [exact Hs|]. exists r'.
                split; [now right | exact E].
          -- intros [H | (Hs & r' & [<- | Hr'] & E)].
             ++ left. now right.
             ++ left. left. congruence.
             ++ right. split; [exact Hs|]. eauto.
      + cbn [truthy andb]. split.
        * intros [H | (Hs & r' & Hr' & E)]; [now left|].
          right. split; [exact Hs|]. exists r'. split; [now right|exact E].
        * intros [H | (Hs & r' & [<- | Hr'] & E)]; [now left| |].
          -- congruence.
          -- right. split; [exact Hs|]. eauto. }
  destruct (G rows [] ltac:(constructor)) as [H1 H2].
  pose proof (localeSort_permutes (List.fold_left step rows [])) as Hperm.
  split.
  - eapply Permutation_NoDup; [apply Permutation_sym; exact Hperm | exact H1].
  - intros s. split.
    + intros Hs. apply (Permutation_in _ Hperm) in Hs. apply H2 in Hs.
      destruct Hs as [[] | Hs]. exact Hs.
    + intros Hs. apply (Permutation_in _ (Permutation_sym Hperm)).
      apply H2. now right.
Qed.

End Sorted.

Lemma city_options_witness :
  exists m,
    citiesByProvinceA (fun l => l) (rows sample) = Some m
    /\ List.map fst m = PROVINCES.
Proof.
  eexists. split; [vm_compute; reflexivity|].
  refine (proj1 (city_options (fun l => l) (fun l => Permutation_refl l)
                   ExplorerA.isValidCityName ExplorerA.normalizeCityName
                   (rows sample) _ _)).
  vm_compute. reflexivity.
Defined.

Lemma stream_options_witness :
  NoDup (streamOptions (fun l => l) (rows sample)).
Proof.
  exact (proj1 (stream_options (fun l => l) (fun l => Permutation_refl l)
                  (rows sample))).
Defined.

End OptionsFacts.

(* ================================================================== *)
(** * The hosted sign-in *)
(* ================================================================== *)

Module SupabaseFacts.

Import SupabaseAuth.

Lemma authStep_loading (st : AuthState) (ev : AuthEvent) :
  loading (authStep st ev) = (loading st && negb (isGetSession ev))%bool.
Proof.
  destruct ev as [s|e s|e| |e|[m|]]; cbn [authStep isGetSession logout
    updatePassword snd loading negb]; rewrite ?andb_true_r, ?andb_false_r;
    reflexivity.
Qed.

Lemma authStep_user (st : AuthState) (ev : AuthEvent) :
  user (authStep st ev) <> None ->
  user st <> None \/ deliversUser ev = true.
Proof.
  destruct ev as [s|e s|e| |e|[m|]]; cbn [authStep deliversUser logout
    updatePassword snd user]; intros H; auto;
    try (right; destruct (sessionToUser s); [reflexivity | congruence]);
    try congruence.
Qed.

Lemma authStep_recovery (st : AuthState) (ev : AuthEvent) :
  isRecoveryMode st = true -> leavesRecovery ev = false ->
  isRecoveryMode (authStep st ev) = true.
Proof.
  intros Hr Hl.
  destruct ev as [s|e s|e| |e|[m|]]; cbn [authStep leavesRecovery logout
    updatePassword snd isRecoveryMode] in *; try assumption;
    try discriminate.
  rewrite Hl, Hr. now destruct (str_eqb e (js "PASSWORD_RECOVERY")).
Qed.

Lemma authRun_loading (evs : list AuthEvent) :
  forall st, loading (authRun st evs) = false ->
             loading st = false \/ List.existsb isGetSession evs = true.
Proof.
  induction evs as [|ev evs IH]; intros st H; [now left|].
  cbn [authRun List.fold_left] in H. apply IH in H.
  cbn [List.existsb]. destruct H as [H | H].
  - rewrite authStep_loading in H. apply andb_false_iff in H.
    destruct H as [H | H]; [now left|].
    right. apply negb_false_iff in H. now rewrite H.
  - right. rewrite H. apply orb_true_r.
Qed.

Lemma authRun_user (evs : list AuthEvent) :
  forall st, user (authRun st evs) <> None ->
             user st <> None \/ List.existsb deliversUser evs = true.
Proof.
  induction evs as [|ev evs IH]; intros st H; [now left|].
  cbn [authRun List.fold_left] in H. apply IH in H.
  cbn [List.existsb]. destruct H as [H | H].
  - apply authStep_user in H. destruct H as [H | H]; [now left|].
    right. now rewrite H.
  - right. rewrite H. apply orb_true_r.
Qed.

Lemma authRun_recovery (evs : list AuthEvent) :
  forall st, isRecoveryMode st = true ->
             List.existsb leavesRecovery evs = false ->
             isRecoveryMode (authRun st evs) = true.
Proof.
  induction evs as [|ev evs IH]; intros st Hr Hl; [exact Hr|].
  cbn [List.existsb] in Hl. apply orb_false_iff in Hl.
  destruct Hl as [Hl1 Hl2]. cbn [authRun List.fold_left].
  apply IH; [|exact Hl2]. now apply authStep_recovery.
Qed.

(** X28: the explorer is on screen only after the answer to
    [getSession] has arrived and some event has delivered a session with
    a user; calls of [login] alone never open it. *)
Theorem explorer_needs_session (evs : list AuthEvent) :
  screen (authRun initialAuth evs) = Explorer ->
  List.existsb isGetSession evs = true
  /\ List.existsb deliversUser evs = true.
Proof.
  unfold screen. intros H.
  destruct (loading (authRun initialAuth evs)) eqn:El; [discriminate|].
  destruct (isRecoveryMode (authRun initialAuth evs)); [discriminate|].
  destruct (user (authRun initialAuth evs)) eqn:Eu; [|discriminate].
  split.
  - apply authRun_loading in El. destruct El as [El | El];
      [discriminate | exact El].
  - destruct (authRun_user evs initialAuth) as [Hu | Hu];
      [congruence | now elim Hu | exact Hu].
Qed.

Lemma explorer_needs_session_witness :
  screen (authRun initialAuth [StateChange (js "SIGNED_IN") annSession;
                               GetSession annSession]) = Explorer
  /\ List.existsb deliversUser [StateChange (js "SIGNED_IN") annSession;
                                GetSession annSession] = true.
Proof.
  split; [reflexivity|].
  refine (proj2 (explorer_needs_session _ _)). reflexivity.
Defined.

(** X29: once the provider is in recovery mode the explorer stays off
    screen, whatever sessions arrive, until a sign-out notification, a
    call of [logout], or a password update that the service accepted. *)
Theorem recovery_hides_explorer (st : AuthState) (evs : list AuthEvent) :
  isRecoveryMode st = true ->
  List.existsb leavesRecovery evs = false ->
  screen (authRun st evs) <> Explorer.
Proof.
  intros Hr Hl. unfold screen.
  rewrite (authRun_recovery evs st Hr Hl).
  destruct (loading (authRun st evs)); discriminate.
Qed.

Lemma recovery_hides_explorer_witness :
  screen (authRun (authStep initialAuth
                     (StateChange (js "PASSWORD_RECOVERY") annSession))
            [GetSession annSession; UpdatePassword (Some (js "weak"));
             StateChange (js "TOKEN_REFRESHED") annSession])
  <> Explorer.
Proof.
  apply recovery_hides_explorer; reflexivity.
Defined.

(** X30: the password form.  A request to change the password is sent
    exactly when the password has six or more code units and equals its
    confirmation, and then it is one request carrying that password;
    otherwise the form shows an error and nothing changes in the
    provider.  The provider's user and loading cells are never touched,
    and recovery mode changes only when the service reports no error. *)
Theorem set_password_guard (updateUser : jsstring -> option jsstring)
        (pg : Page) (st : AuthState) :
  let '(pg', st', calls) := handleSetPassword updateUser pg st in
  ((6 <= List.length (password pg))%nat
   /\ password pg = confirmPassword pg
   /\ calls = [UpdateUser (password pg)]
   /\ submitting pg' = false
   \/ ((List.length (password pg) < 6)%nat
       \/ password pg <> confirmPassword pg)
      /\ calls = [] /\ st' = st /\ truthy (error pg') = true)
  /\ user st' = user st /\ loading st' = loading st
  /\ (isRecoveryMode st' <> isRecoveryMode st ->
      updateUser (password pg) = None /\ isRecoveryMode st' = false).
Proof.
  unfold handleSetPassword.
  destruct (Nat.ltb_spec (List.length (password pg)) 6) as [Hlt | Hge].
  - split; [right; repeat split; auto|].
    split; [reflexivity | split; [reflexivity | intros Hne; now elim Hne]].
  - destruct (str_eqb (password pg) (confirmPassword pg)) eqn:Eq;
      cbn [negb].
    + apply str_eqb_eq in Eq.
      destruct (updateUser (password pg)) as [m|];
        cbn [updatePassword user loading isRecoveryMode].
      * split; [left; repeat split; auto|].
        split; [reflexivity | split; [reflexivity | intros Hne; now elim Hne]].
      * split; [left; repeat split; auto|].
        repeat split; reflexivity.
    + split; [right; repeat split; auto|].
      * right. intros E. rewrite E, str_eqb_refl in Eq. discriminate.
      * split; [reflexivity | split; [reflexivity | intros Hne; now elim Hne]].
Qed.

End SupabaseFacts.
